(** * The direct-chat route of dualBot: answer-composition pipelines

    A shallow embedding of the request handlers of the chat route, in its
    two variants, followed by the properties of the pipeline
    specification checked against them.

    - [Tavily] is [app/api/direct-chat/route.tsx]: the workflow
      tavily-to-gemini and the default handler.
    - [Perplexity] is the variant with the workflows chatgpt-to-gemini,
      perplexity-to-gemini and perplexity-chatgpt-gemini, in the revision
      that caps the references at [MAX_REFERENCES] and strips a reference
      section the model wrote on its own.

    Strings are JavaScript strings: sequences of UTF-16 code units.  The
    regular expressions of the program are written out as matchers over
    code units and run by a left-to-right global replacement.

    The external providers (OpenAI, Perplexity, Tavily, Gemini and the
    Gemini Files API) are oracles of a [World]; every adapter call is
    recorded in a log, so that "which stage ran, and in what order" is a
    statement about the log a handler leaves behind.  A handler is a
    computation in a small monad of log and exceptions; [try]/[catch] is
    [try_catch].

    The body of a Perplexity reply is a JSON value where the adapter
    looks for the summary ([extractText], [sniffed_summary]); the
    handlers see the reply as the summary and the citation candidates
    found in it.

    What is left out: console logging; the [usageMetadata] a response
    passes through; [handleOpenAI] and [prepareMessagesForGemini], which
    [POST] never reaches.  A request is
    taken as parsed and well-typed: [messages] is an array of messages
    whose content is a string or an array of parts, and text fields are
    strings.  An exception is represented by its [message] (empty when it
    has none). *)

From Stdlib Require Import Ascii String.
From Stdlib Require Import List NArith Bool Arith Lia.
Import ListNotations.

Set Implicit Arguments.

(* ===================================================================== *)
(** ** JavaScript strings *)
(* ===================================================================== *)

Module JS.

(** A string is a list of UTF-16 code units. *)
Definition jsstring := list N.

Fixpoint bytes_of (s : string) : list N :=
  match s with
  | EmptyString => []
  | String a s' => N_of_ascii a :: bytes_of s'
  end.

(** UTF-8 decoding of a literal of this file into code units (a code point
    above the BMP becomes a surrogate pair, as in a JavaScript literal). *)
Fixpoint utf16_of_utf8 (bs : list N) : jsstring :=
  match bs with
  | [] => []
  | b0 :: r0 =>
    if (b0 <? 128)%N then b0 :: utf16_of_utf8 r0
    else if (b0 <? 224)%N then
      match r0 with
      | b1 :: r1 => ((b0 - 192) * 64 + (b1 - 128))%N :: utf16_of_utf8 r1
      | _ => [65533%N]
      end
    else if (b0 <? 240)%N then
      match r0 with
      | b1 :: b2 :: r2 =>
          ((b0 - 224) * 4096 + (b1 - 128) * 64 + (b2 - 128))%N :: utf16_of_utf8 r2
      | _ => [65533%N]
      end
    else
      match r0 with
      | b1 :: b2 :: b3 :: r3 =>
          let v := ((b0 - 240) * 262144 + (b1 - 128) * 4096
                    + (b2 - 128) * 64 + (b3 - 128) - 65536)%N in
          (55296 + v / 1024)%N :: (56320 + v mod 1024)%N :: utf16_of_utf8 r3
      | _ => [65533%N]
      end
  end.

Definition js (s : string) : jsstring := utf16_of_utf8 (bytes_of s).
Arguments js s%_string : simpl never.

Definition dquote : jsstring := [34%N].
Definition nl : jsstring := [10%N].

Fixpoint eqb (a b : jsstring) : bool :=
  match a, b with
  | [], [] => true
  | x :: a', y :: b' => (x =? y)%N && eqb a' b'
  | _, _ => false
  end.

(** Truthiness of a string: only the empty string is falsy. *)
Definition truthy (s : jsstring) : bool :=
  match s with [] => false | _ => true end.

(** [a || b] on strings. *)
Definition or_else (a b : jsstring) : jsstring :=
  if truthy a then a else b.

(** [x || b] where [x] may be [undefined]. *)
Definition opt_or (a : option jsstring) (b : jsstring) : jsstring :=
  match a with
  | Some s => or_else s b
  | None => b
  end.

Definition opt_truthy (a : option jsstring) : bool :=
  match a with Some s => truthy s | None => false end.

(** ECMAScript LineTerminator: LF, CR, LS, PS. *)
Definition is_line_terminator (c : N) : bool :=
  ((c =? 10) || (c =? 13) || (c =? 8232) || (c =? 8233))%N.

(** ECMAScript WhiteSpace: TAB, VT, FF, SP, NBSP, ZWNBSP and category Zs. *)
Definition is_white_space (c : N) : bool :=
  ((c =? 9) || (c =? 11) || (c =? 12) || (c =? 32) || (c =? 160)
   || (c =? 5760) || ((8192 <=? c) && (c <=? 8202)) || (c =? 8239)
   || (c =? 8287) || (c =? 12288) || (c =? 65279))%N.

(** The class [\s], which is also the set [String.prototype.trim] strips. *)
Definition is_space (c : N) : bool := is_white_space c || is_line_terminator c.

Fixpoint take_while (p : N -> bool) (s : jsstring) : jsstring :=
  match s with
  | [] => []
  | c :: t => if p c then c :: take_while p t else []
  end.

Fixpoint drop_while (p : N -> bool) (s : jsstring) : jsstring :=
  match s with
  | [] => []
  | c :: t => if p c then drop_while p t else s
  end.

Definition trimStart (s : jsstring) : jsstring := drop_while is_space s.
Definition trimEnd (s : jsstring) : jsstring := rev (drop_while is_space (rev s)).
Definition trim (s : jsstring) : jsstring := trimEnd (trimStart s).

Fixpoint startsWith (s p : jsstring) : bool :=
  match p, s with
  | [], _ => true
  | x :: p', y :: s' => (x =? y)%N && startsWith s' p'
  | _ :: _, [] => false
  end.

(** [s.includes(p)] *)
Fixpoint includes (s p : jsstring) : bool :=
  startsWith s p ||
  match s with
  | [] => false
  | _ :: t => includes t p
  end.

(** [parts.join(sep)] *)
Fixpoint join (sep : jsstring) (parts : list jsstring) : jsstring :=
  match parts with
  | [] => []
  | [p] => p
  | p :: rest => p ++ sep ++ join sep rest
  end.

(** [s.substring(0, n)] and [s.slice(0, n)] for [n >= 0]. *)
Definition substring0 (n : nat) (s : jsstring) : jsstring := firstn n s.

Definition digit (d : nat) : N := (48 + N.of_nat d)%N.

Fixpoint digits_of (fuel n : nat) (acc : jsstring) : jsstring :=
  match fuel with
  | O => acc
  | S fuel' =>
      let acc' := digit (n mod 10) :: acc in
      if n <? 10 then acc' else digits_of fuel' (n / 10) acc'
  end.

(** [String(n)] for a non-negative integer. *)
Definition of_nat (n : nat) : jsstring := digits_of (S n) n [].

(** [s.split(sep)] for a one-unit separator. *)
Fixpoint split_on (sep : N) (s : jsstring) : list jsstring :=
  match s with
  | [] => [[]]
  | c :: t =>
      if (c =? sep)%N then [] :: split_on sep t
      else match split_on sep t with
           | l :: ls => (c :: l) :: ls
           | [] => [[c]]
           end
  end.

(** *** Global regular-expression replacement

    [s.replace(/re/g, repl)] scans the input from left to right.  At each
    position the expression is tried; on success the replacement is
    emitted and the scan resumes after the match, otherwise one code unit
    is copied and the scan moves on by one.  A [matcher] is one of the
    expressions of this program: given the code unit before the current
    position ([None] at index 0, for the [^] assertion under the [m] flag)
    and the remaining input, it returns the replacement text, the last
    code unit it consumed, and the input left after the match. *)
Definition matcher := option N -> jsstring -> option (jsstring * N * jsstring).

Fixpoint replace_all (m : matcher) (fuel : nat) (prev : option N) (s : jsstring)
  : jsstring :=
  match fuel with
  | O => s
  | S fuel' =>
      match m prev s with
      | Some (out, last, rest) => out ++ replace_all m fuel' (Some last) rest
      | None =>
          match s with
          | [] => []
          | c :: t => c :: replace_all m fuel' (Some c) t
          end
      end
  end.

(** No expression of this program matches the empty string, so each step
    consumes at least one code unit and [S (length s)] steps suffice (see
    [replace_all_fuel] and the [shrinking] lemmas). *)
Definition replace_g (m : matcher) (s : jsstring) : jsstring :=
  replace_all m (S (length s)) None s.

(** [^] under the [m] flag. *)
Definition at_line_start (prev : option N) : bool :=
  match prev with
  | None => true
  | Some c => is_line_terminator c
  end.

(** [(.*?)close]: the shortest run of non-line-terminators followed by
    [close]; returns the run and the input after [close]. *)
Fixpoint lazy_until (close : jsstring) (s : jsstring)
  : option (jsstring * jsstring) :=
  if startsWith s close then Some ([], skipn (length close) s)
  else match s with
       | [] => None
       | c :: t =>
           if is_line_terminator c then None
           else match lazy_until close t with
                | Some (g, r) => Some (c :: g, r)
                | None => None
                end
       end.

(** [/d(.*?)d/] with replacement [$1], for a delimiter [d]. *)
Definition re_wrapped (d : jsstring) : matcher := fun _ s =>
  if startsWith s d then
    match lazy_until d (skipn (length d) s) with
    | Some (g, r) => Some (g, last d 0%N, r)
    | None => None
    end
  else None.

(** [/\*\*(.*?)\*\*/g] *)
Definition re_bold : matcher := re_wrapped [42; 42]%N.
(** [/\*(.*?)\*/g] *)
Definition re_italic : matcher := re_wrapped [42]%N.
(** [/`(.*?)`/g] *)
Definition re_code : matcher := re_wrapped [96]%N.

(** [/^#+\s+/gm] with the empty replacement. *)
Definition re_heading : matcher := fun prev s =>
  if at_line_start prev then
    match take_while (N.eqb 35) s, take_while is_space (drop_while (N.eqb 35) s) with
    | _ :: _, w :: ws =>
        Some ([], last (w :: ws) 0%N, drop_while is_space (drop_while (N.eqb 35) s))
    | _, _ => None
    end
  else None.

Definition not_unit (x : N) : N -> bool := fun c => negb (c =? x)%N.

(** [/\[([^\]]+)\]\([^)]+\)/g] with replacement [$1]. *)
Definition re_link : matcher := fun _ s =>
  match s with
  | 91%N :: t =>
      match take_while (not_unit 93) t, drop_while (not_unit 93) t with
      | (_ :: _) as txt, 93%N :: 40%N :: r2 =>
          match take_while (not_unit 41) r2, drop_while (not_unit 41) r2 with
          | _ :: _, 41%N :: r4 => Some (txt, 41%N, r4)
          | _, _ => None
          end
      | _, _ => None
      end
  | _ => None
  end.

(** [/^[-*+]\s+/gm] with the empty replacement. *)
Definition re_list : matcher := fun prev s =>
  if at_line_start prev then
    match s with
    | c :: t =>
        if ((c =? 45) || (c =? 42) || (c =? 43))%N then
          match take_while is_space t with
          | w :: ws => Some ([], last (w :: ws) 0%N, drop_while is_space t)
          | [] => None
          end
        else None
    | [] => None
    end
  else None.

(** [/\n{3,}/g] with replacement two newlines. *)
Definition re_newlines : matcher := fun _ s =>
  if 3 <=? length (take_while (N.eqb 10) s) then
    Some ([10; 10]%N, 10%N, drop_while (N.eqb 10) s)
  else None.

End JS.

Import JS.

(* ===================================================================== *)
(** ** Text clean-up *)
(* ===================================================================== *)

(** The clean-up chain that [handleGoogle], [handlePerplexityToGemini] and
    [handlePerplexityChatGPTToGemini] apply to the generated text. *)
Definition cleanText (text : jsstring) : jsstring :=
  trim
    (replace_g re_newlines
      (replace_g re_list
        (replace_g re_link
          (replace_g re_heading
            (replace_g re_code
              (replace_g re_italic
                (replace_g re_bold text))))))).

(** [/\r\n/g] with replacement one newline. *)
Definition re_crlf : matcher := fun _ s =>
  match s with
  | 13%N :: 10%N :: r => Some ([10%N], 10%N, r)
  | _ => None
  end.

(** [/[\u0300-\u036f]/g] with the empty replacement. *)
Definition re_combining : matcher := fun _ s =>
  match s with
  | c :: r => if ((768 <=? c) && (c <=? 879))%N then Some ([], c, r) else None
  | [] => None
  end.

(* ===================================================================== *)
(** ** Requests, provider replies and responses *)
(* ===================================================================== *)

(** One element of a mixed message content.  [TextPart] is an element
    whose [type] is the string text; [ImageUrlPart] one whose [type] is
    image_url, with [image_url.url] when present; [OtherPart] any other
    element. *)
Inductive Part :=
| TextPart (text : jsstring)
| ImageUrlPart (url : option jsstring)
| OtherPart (type : jsstring).

Inductive Content :=
| CString (s : jsstring)
| CParts (ps : list Part).

Record Message := { msg_role : jsstring; msg_content : Content }.

Record File := { file_name : jsstring; file_type : jsstring; file_data : jsstring }.

(** The parsed request body; [workflow] is [None] when the field is absent
    (the destructuring default is then the workflow single). *)
Record Request := {
  messages : list Message;
  model : jsstring;
  stream : bool;
  files : list File;
  workflow : option jsstring
}.

Inductive GeminiPart :=
| GText (text : jsstring)
| GInlineData (mimeType data : jsstring)
| GFileData (mimeType fileUri : jsstring).

Record GeminiContent := { g_role : jsstring; g_parts : list GeminiPart }.

Record GeminiRequest := {
  g_model : option jsstring;
  g_contents : list GeminiContent;
  g_maxOutputTokens : nat
}.

Inductive GeminiReply :=
| GeminiText (text : jsstring)
| GeminiThrows (message : jsstring).

Record OpenAIRequest := {
  oa_model : jsstring;
  oa_system : jsstring;
  oa_user : jsstring;
  oa_max_tokens : nat
}.

(** Outcome of a chat-completions call: the call or the decoding of its
    body throws; the response is not OK; or it is OK with
    [choices[0].message.content] ([None] when any link of the chain is
    missing). *)
Inductive OpenAIReply :=
| OpenAIThrows (message : jsstring)
| OpenAINotOk
| OpenAIOk (content : option jsstring).

Inductive UploadReply :=
| UploadOk (uri name mimeType : jsstring)
| UploadThrows.

Record UploadedFile := {
  originalFile : File;
  fileUri : jsstring;
  up_name : jsstring;
  up_mimeType : jsstring
}.

(** A citation candidate of a Perplexity reply: a plain URL string, an
    object (whose fields, when present, are taken to be strings) or
    anything else. *)
Record CitationObject := {
  cit_title : option jsstring;
  cit_source : option jsstring;
  cit_url : option jsstring;
  cit_link : option jsstring;
  cit_snippet : option jsstring;
  cit_text : option jsstring;
  cit_content : option jsstring;
  cit_summary : option jsstring
}.

Inductive Citation :=
| CitString (url : jsstring)
| CitObject (o : CitationObject)
| CitOther.

(** An entry of [results].  The adapter builds entries with [title], [url]
    and [content] only; [source] is a field the handlers look for when
    they derive a title. *)
Record SearchResult := {
  sr_title : jsstring;
  sr_url : jsstring;
  sr_content : jsstring;
  sr_source : option jsstring
}.

(** Outcome of the Perplexity call.  For an OK response the reply carries
    the summary found by the shape-sniffing chain of the adapter (message
    content, [choice.text], [data.answer], [data.output_text]) and the
    citation candidates gathered from the nine metadata locations, in
    that order. *)
Inductive PerplexityReply :=
| PxThrows (message : jsstring)
| PxNotOk (status : nat) (statusText rawErrorText : jsstring)
          (parsedErrorMessage parsedMessage : option jsstring)
| PxOk (summary : jsstring) (citationCandidates : list Citation).

(** What [searchWithPerplexityStyle] returns: an object with an [error]
    field, or an object with [answer] and [results]. *)
Inductive SearchReturn :=
| SearchFailed (type message : jsstring)
| SearchDone (answer : jsstring) (results : list SearchResult).

Record TavilyResult := { tv_title : jsstring; tv_content : jsstring; tv_url : jsstring }.

Record TavilyData := {
  tv_results : option (list TavilyResult);
  tv_answer : option jsstring
}.

Inductive TavilyReply :=
| TvThrows
| TvNotOk
| TvOk (data : TavilyData).

(** Adapter calls, in the order they are made. *)
Inductive Event :=
| EvUpload (f : File)                (* [genAI.files.upload] *)
| EvOpenAI (req : OpenAIRequest)     (* chat completions, used to rewrite *)
| EvSearch (query : jsstring)        (* the search adapter *)
| EvGemini (req : GeminiRequest).    (* [generateContent] *)

(** The providers.  Each oracle sees the calls made so far, so that two
    identical requests may be answered differently. *)
Record World := {
  openai_chat : list Event -> OpenAIRequest -> OpenAIReply;
  perplexity_chat : list Event -> jsstring -> jsstring -> PerplexityReply;
  tavily_search : list Event -> jsstring -> TavilyReply;
  gemini_generate : list Event -> GeminiRequest -> GeminiReply;
  gemini_upload : list Event -> File -> UploadReply
}.

(** Provider credentials, read once from the process environment. *)
Record Env := {
  GOOGLE_API_KEY : option jsstring;
  OPENAI_API_KEY : option jsstring;
  PERPLEXITY_API_KEY : option jsstring;
  PERPLEXITY_MODEL : option jsstring;
  TAVILY_API_KEY : option jsstring
}.

(** Built-ins of the platform that are used but not modelled: their
    tables (Unicode normalisation and case mapping, URL parsing, JSON
    serialisation) are parameters of the development. *)
Record Platform := {
  JSON_stringify : list Part -> jsstring;
  URL_hostname : jsstring -> option jsstring;   (* [None]: [new URL] throws *)
  normalize_NFD : jsstring -> jsstring;
  toLowerCase : jsstring -> jsstring
}.

(** *** Responses *)

Inductive Step :=
| StepChatgptPromptGeneration (originalQuery optimizedPrompt : jsstring)
                              (promptLength : nat)
| StepGeminiResponse (promptLength : option nat) (content : option jsstring)
| StepPerplexitySearch (query : jsstring) (resultsCount : nat) (prompt : jsstring)
                       (summary : option jsstring) (references : list SearchResult)
| StepChatgptRefinement (prompt : jsstring)
| StepTavilySearch (query : jsstring) (resultsCount : nat).

(** The [type] field of a step. *)
Definition step_type (s : Step) : jsstring :=
  match s with
  | StepChatgptPromptGeneration _ _ _ => js "chatgpt_prompt_generation"
  | StepGeminiResponse _ _ => js "gemini_response"
  | StepPerplexitySearch _ _ _ _ _ => js "perplexity_search"
  | StepChatgptRefinement _ => js "chatgpt_refinement"
  | StepTavilySearch _ _ => js "tavily_search"
  end.

Record Prompt := { p_system : jsstring; p_user : jsstring; p_output : jsstring }.

Inductive SearchPayload :=
| PerplexityPayload (r : SearchReturn)
| TavilyPayload (r : option TavilyData).

(** The JSON body of a response.  [text] is the generated text, which the
    handlers store both in [candidates[0].content.parts[0].text] and in
    [choices[0].message.content]; [steps] is the nested object of the
    three-stage workflow.  The pass-through [usageMetadata] is left out. *)
Record Body := {
  error : option jsstring;
  errorType : option jsstring;
  text : option jsstring;
  body_workflow : option jsstring;
  step1 : option Step;
  step2 : option Step;
  steps : option (Step * Step * Step);
  prompts : option (list Prompt);
  searchResults : option SearchPayload;
  referencesText : option jsstring
}.

Record Response := { status : nat; body : Body }.

Definition error_response (st : nat) (msg : jsstring) (ty : option jsstring)
  : Response :=
  {| status := st;
     body := {| error := Some msg; errorType := ty; text := None;
                body_workflow := None; step1 := None; step2 := None;
                steps := None; prompts := None; searchResults := None;
                referencesText := None |} |}.

(** *** Stages *)

Inductive Stage := SEARCH | REWRITE | ANSWER.

(** The stage an adapter call belongs to; an upload is a side channel and
    not a stage of its own. *)
Definition stage_of_event (e : Event) : option Stage :=
  match e with
  | EvUpload _ => None
  | EvOpenAI _ => Some REWRITE
  | EvSearch _ => Some SEARCH
  | EvGemini _ => Some ANSWER
  end.

Fixpoint stages (log : list Event) : list Stage :=
  match log with
  | [] => []
  | e :: rest =>
      match stage_of_event e with
      | Some st => st :: stages rest
      | None => stages rest
      end
  end.

Definition stage_of_step (s : Step) : Stage :=
  match s with
  | StepChatgptPromptGeneration _ _ _ => REWRITE
  | StepGeminiResponse _ _ => ANSWER
  | StepPerplexitySearch _ _ _ _ _ => SEARCH
  | StepChatgptRefinement _ => REWRITE
  | StepTavilySearch _ _ => SEARCH
  end.

(** The per-stage trace a body reports, in key order. *)
Definition trace (b : Body) : list Step :=
  match steps b with
  | Some (s1, s2, s3) => [s1; s2; s3]
  | None =>
      match step1 b, step2 b with
      | Some s1, Some s2 => [s1; s2]
      | Some s1, None => [s1]
      | None, Some s2 => [s2]
      | None, None => []
      end
  end.

(* ===================================================================== *)
(** ** Effects: the adapter-call log and exceptions *)
(* ===================================================================== *)

Inductive Outcome (A : Type) :=
| Ok (a : A)
| Throw (message : jsstring).
Arguments Throw {A} message.

(** A computation reads and extends the log of adapter calls and either
    returns or throws an error with a [message]. *)
Definition M (A : Type) := list Event -> Outcome A * list Event.

Definition ret (A : Type) (a : A) : M A := fun log => (Ok a, log).

Definition bind (A B : Type) (c : M A) (k : A -> M B) : M B := fun log =>
  match c log with
  | (Ok a, log') => k a log'
  | (Throw msg, log') => (Throw msg, log')
  end.

Definition throw (A : Type) (msg : jsstring) : M A := fun log => (Throw msg, log).
Arguments throw {A} msg.

Definition try_catch (A : Type) (c : M A) (handler : jsstring -> M A) : M A :=
  fun log =>
    match c log with
    | (Ok a, log') => (Ok a, log')
    | (Throw msg, log') => handler msg log'
    end.

(** Make an adapter call: record it, then ask the oracle, which sees the
    calls made before this one. *)
Definition call (R : Type) (e : Event) (oracle : list Event -> R) : M R :=
  fun log => (Ok (oracle log), log ++ [e]).

Declare Scope monad_scope.
Delimit Scope monad_scope with monad.
Notation "x <- c ;; k" := (bind c (fun x => k))
  (at level 61, c at next level, right associativity) : monad_scope.
Notation "' pat <- c ;; k" := (bind c (fun x => match x with pat => k end))
  (at level 61, pat pattern, c at next level, right associativity) : monad_scope.
Local Open Scope monad_scope.

(* ===================================================================== *)
(** ** Helpers shared by the two variants of the route *)
(* ===================================================================== *)

Fixpoint last_opt (A : Type) (l : list A) : option A :=
  match l with
  | [] => None
  | [x] => Some x
  | _ :: t => last_opt t
  end.

(** [l.map((x, index) => index === l.length - 1 ? f(x) : x)] *)
Fixpoint map_last (A : Type) (f : A -> A) (l : list A) : list A :=
  match l with
  | [] => []
  | [x] => [f x]
  | x :: t => x :: map_last f t
  end.

(** [l.map((x, index) => f(index, x))], counting from [i]. *)
Fixpoint mapi_from (A B : Type) (f : nat -> A -> B) (i : nat) (l : list A) : list B :=
  match l with
  | [] => []
  | x :: t => f i x :: mapi_from f (S i) t
  end.

Definition mapi (A B : Type) (f : nat -> A -> B) (l : list A) : list B :=
  mapi_from f 0 l.

(** [s.replace(pat, rep)] for a string pattern: the first occurrence is
    replaced.  (The dollar patterns of the replacement are not modelled;
    the one use of this function never finds its pattern, see
    [CONTENT_SYSTEM_has_no_placeholder].) *)
Fixpoint replace_first (s pat rep : jsstring) : jsstring :=
  if startsWith s pat then rep ++ skipn (length pat) s
  else match s with
       | [] => []
       | c :: t => c :: replace_first t pat rep
       end.

(** [/^data:([^;]+);base64,(.+)$/] matched against a whole string: the
    two groups. *)
Definition parse_data_url (u : jsstring) : option (jsstring * jsstring) :=
  if startsWith u (js "data:") then
    let r := skipn 5 u in
    let mime := take_while (not_unit 59) r in
    let r1 := drop_while (not_unit 59) r in
    if truthy mime && startsWith r1 (js ";base64,") then
      let d := skipn 8 r1 in
      if truthy d && forallb (fun c => negb (is_line_terminator c)) d
      then Some (mime, d) else None
    else None
  else None.

Definition TypeError_reading_content : jsstring :=
  js "Cannot read properties of undefined (reading 'content')".

(** [messages[messages.length - 1]], whose [content] is read next. *)
Definition lastMessage_of (ms : list Message) : M Message :=
  match last_opt ms with
  | Some m => ret m
  | None => throw TypeError_reading_content
  end.

Definition is_text_part (c : Part) : bool :=
  match c with TextPart _ => true | _ => false end.

(** The question of a message: its string content, or the text of the
    first text-typed part of a mixed content, or the empty string. *)
Definition userQuestion_of (m : Message) : jsstring :=
  match msg_content m with
  | CString s => s
  | CParts ps =>
      match find is_text_part ps with
      | Some (TextPart t) => or_else t []
      | _ => []
      end
  end.

(** The index found by a loop that runs from the last element down. *)
Fixpoint find_last_index (A : Type) (p : A -> bool) (i : nat) (l : list A)
  : option nat :=
  match l with
  | [] => None
  | x :: t =>
      match find_last_index p (S i) t with
      | Some j => Some j
      | None => if p x then Some i else None
      end
  end.

Definition MAX_REFERENCES : nat := 5.

Definition MODEL_MAPPING : list jsstring :=
  [ js "gpt-4o"; js "gpt-4o-mini"; js "gpt-4-turbo"; js "gpt-3.5-turbo";
    js "gemini-2.5-pro"; js "gemini-2.5-flash"; js "gemini-2.5-flash-lite";
    js "gemini-2.0-flash"; js "gemini-2.0-flash-lite"; js "gemini-2.0-pro";
    js "gemini-1.5-flash"; js "gemini-1.5-flash-lite"; js "gemini-1.5-pro";
    js "gemini-1.0-pro"; js "gemini-1.0-ultra"; js "gemini-1.0-nano";
    js "gemini-embedding"; js "gemini-2.5-flash-preview-tts";
    js "gemini-2.5-flash-preview-image-generation";
    js "gemini-2.5-flash-live-preview-04-09" ].

(** Property names every object literal inherits from [Object.prototype];
    a lookup by one of them yields a truthy value that has no [model]. *)
Definition Object_prototype_names : list jsstring :=
  [ js "constructor"; js "__proto__"; js "hasOwnProperty"; js "isPrototypeOf";
    js "propertyIsEnumerable"; js "toLocaleString"; js "toString"; js "valueOf";
    js "__defineGetter__"; js "__defineSetter__"; js "__lookupGetter__";
    js "__lookupSetter__" ].

Definition mem (x : jsstring) (l : list jsstring) : bool := existsb (eqb x) l.

(** [MODEL_MAPPING[model]]: [None] when the lookup is [undefined];
    otherwise the [model] field of what was found (every entry maps a key
    to itself). *)
Definition modelConfig (m : jsstring) : option (option jsstring) :=
  if mem m MODEL_MAPPING then Some (Some m)
  else if mem m Object_prototype_names then Some None
  else None.

Definition needsUpload (f : File) : bool :=
  mem (file_type f)
    [ js "application/vnd.openxmlformats-officedocument.wordprocessingml.document";
      js "application/msword";
      js "application/vnd.openxmlformats-officedocument.spreadsheetml.sheet";
      js "application/vnd.ms-excel";
      js "application/vnd.openxmlformats-officedocument.presentationml.presentation";
      js "application/pdf" ].

Definition gemini_role (role : jsstring) : jsstring :=
  if eqb role (js "assistant") then js "model" else js "user".

Definition part_to_gemini (c : Part) : list GeminiPart :=
  match c with
  | TextPart t => [GText t]
  | ImageUrlPart (Some u) =>
      if truthy u then
        match parse_data_url u with
        | Some (mimeType, base64Data) => [GInlineData mimeType base64Data]
        | None => []
        end
      else []
  | ImageUrlPart None => []
  | OtherPart _ => []
  end.

(** Push [extra] onto the parts of the last content when its role is user. *)
Definition push_to_last_user (extra : list GeminiPart) (cs : list GeminiContent)
  : list GeminiContent :=
  map_last (fun c => if eqb (g_role c) (js "user")
                     then {| g_role := g_role c; g_parts := g_parts c ++ extra |}
                     else c) cs.

Definition inline_image (f : File) : list GeminiPart :=
  if startsWith (file_type f) (js "image/")
  then [GInlineData (file_type f) (file_data f)] else [].

Definition file_data_part (u : UploadedFile) : GeminiPart :=
  GFileData (up_mimeType u) (fileUri u).

Section Shared.
Variable pf : Platform.
Variable env : Env.
Variable W : World.
(** The [CONTENT_SYSTEM] constant of the variant. *)
Variable content_system : jsstring.

Definition simplified (line : jsstring) : jsstring :=
  trim (toLowerCase pf (replace_g re_combining (normalize_NFD pf line))).

Definition stripReferenceSection (text : jsstring) : jsstring :=
  if negb (truthy text) then text
  else
    let normalized := replace_g re_crlf text in
    let lines := split_on 10 normalized in
    match find_last_index
            (fun l => startsWith (simplified l) (js "nguon tham khao")) 0 lines with
    | Some i => trim (join nl (firstn i lines))
    | None => trim normalized
    end.

(** [typeof msg.content === string ? msg.content : JSON.stringify(msg.content)] *)
Definition content_text (m : Message) : jsstring :=
  match msg_content m with
  | CString s => s
  | CParts ps => JSON_stringify pf ps
  end.

(** The [contents] the workflow handlers send to Gemini. *)
Definition gemini_contents (ms : list Message) : list GeminiContent :=
  map (fun m => {| g_role := gemini_role (msg_role m);
                   g_parts := [GText (content_text m)] |}) ms.

Definition generateContent (req : GeminiRequest) : M jsstring :=
  r <- call (EvGemini req) (fun log => gemini_generate W log req) ;;
  match r with
  | GeminiText t => ret t
  | GeminiThrows msg => throw msg
  end.

Fixpoint upload_each (fs : list File) : M (list UploadedFile) :=
  match fs with
  | [] => ret []
  | file :: rest =>
      if needsUpload file then
        r <- call (EvUpload file) (fun log => gemini_upload W log file) ;;
        match r with
        | UploadOk uri name mimeType =>
            more <- upload_each rest ;;
            ret ({| originalFile := file; fileUri := uri; up_name := name;
                    up_mimeType := mimeType |} :: more)
        | UploadThrows => upload_each rest
        end
      else upload_each rest
  end.

Definition uploadFilesToGeminiSDK (fs : list File) : M (list UploadedFile) :=
  if negb (opt_truthy (GOOGLE_API_KEY env)) then ret [] else upload_each fs.

(** The chat-completions request of [convertToPromptChatGPT]. *)
Definition rewrite_request (contentText : jsstring) : OpenAIRequest :=
  let systemWithQuestion :=
    replace_first content_system (js "{user_question}") (trim contentText) in
  {| oa_model := js "gpt-4o-mini"; oa_system := systemWithQuestion;
     oa_user := contentText; oa_max_tokens := 400 |}.

Definition convertToPromptChatGPT (contentText : jsstring) : M jsstring :=
  let req := rewrite_request contentText in
  r <- call (EvOpenAI req) (fun log => openai_chat W log req) ;;
  match r with
  | OpenAIThrows msg => throw msg
  | OpenAINotOk => ret contentText
  | OpenAIOk c => ret (opt_or c contentText)
  end.

(** The loop over [messages] of [processMessagesForGoogleSDK]. *)
Fixpoint process_each (ms : list Message) : M (list GeminiContent * list Prompt) :=
  match ms with
  | [] => ret ([], [])
  | message :: rest =>
      let role := gemini_role (msg_role message) in
      ' (parts, pushed) <-
          match msg_content message with
          | CString s =>
              contentText <- convertToPromptChatGPT s ;;
              ret ([GText contentText],
                   [{| p_system := content_system; p_user := s;
                       p_output := contentText |}])
          | CParts ps => ret (flat_map part_to_gemini ps, [])
          end ;;
      ' (processedContents, prompts) <- process_each rest ;;
      ret (match parts with
           | [] => processedContents
           | _ => {| g_role := role; g_parts := parts |} :: processedContents
           end,
           pushed ++ prompts)
  end.

Definition processMessagesForGoogleSDK
  (ms : list Message) (fs : list File) (uploadedFiles : list UploadedFile)
  : M (list GeminiContent * list Prompt) :=
  ' (processedContents, prompts) <- process_each ms ;;
  let withFiles := push_to_last_user (map file_data_part uploadedFiles) processedContents in
  let withImages := push_to_last_user (flat_map inline_image fs) withFiles in
  ret (withImages, prompts).

End Shared.

(* ===================================================================== *)
(** ** The Perplexity variant of the route (workflows chatgpt-to-gemini,
       perplexity-to-gemini and perplexity-chatgpt-gemini) *)
(* ===================================================================== *)

Module Perplexity.

Definition DEFAULT_PERPLEXITY_MODEL : jsstring := js "sonar-pro".

(** [CONTENT_SYSTEM] *)
Definition CONTENT_SYSTEM : jsstring :=
  nl ++ js "Bạn là Chatbot ORS. Nhiệm vụ: nhận câu hỏi của user, sinh ra " ++
  js "prompt đơn giản cho Gemini." ++ nl ++ nl ++ js "LUỒNG XỬ LÝ:" ++ nl ++
  js "User hỏi → Bạn tạo prompt → Prompt gửi cho Gemini → Gemini trả " ++ js "lời" ++ nl ++
  nl ++ js "QUY TẮC SINH PROMPT:" ++ nl ++
  js "1. Nếu user chỉ chào hỏi (hi, hello, xin chào) → Trả lời: " ++ dquote ++
  js "Xin chào! Tôi có thể giúp gì cho bạn?" ++ dquote ++ nl ++
  js "2. Nếu user hỏi thông tin → Sinh prompt theo mẫu này:" ++ nl ++ dquote ++
  js "Bạn là một trợ lý AI hữu ích. Hãy trả lời câu hỏi sau một cách " ++
  js "rõ ràng, dễ hiểu:" ++ nl ++ nl ++ js "Câu hỏi: [câu hỏi user]" ++ nl ++ nl ++
  js "Yêu cầu:" ++ nl ++ js "- Không sử dụng bất kỳ ký hiệu markdown nào như **, ##, ```, " ++
  js "v.v." ++ nl ++ js "- Trình bày thông tin rõ ràng, mạch lạc" ++ nl ++
  js "- Sử dụng các số thứ tự (1, 2, 3) để liệt kê các ý chính" ++ nl ++
  js "- Mỗi ý chính nên có phần tóm tắt ngắn gọn và giải thích chi " ++ js "tiết" ++ nl ++
  js "- Nếu có nguồn tham khảo, chỉ liệt kê tối đa 5 nguồn ở cuối " ++ js "câu trả lời" ++
  nl ++ js "- Luôn trả lời bằng tiếng Việt" ++ nl ++
  js "- Tuyệt đối không sử dụng bất kỳ ký hiệu đặc biệt nào để định " ++ js "dạng văn bản" ++
  dquote ++ nl ++ nl ++ js "CHÚ Ý:" ++ nl ++
  js "- [câu hỏi user] = copy y nguyên câu hỏi của user" ++ nl ++
  js "- Chỉ xuất prompt, không giải thích gì thêm" ++ nl ++
  js "- Đảm bảo prompt yêu cầu Gemini không sử dụng bất kỳ định dạng " ++ js "markdown nào" ++
  nl.

(** The text of [systemInstruction] in [handleGoogle]. *)
Definition GOOGLE_SYSTEM_INSTRUCTION : jsstring :=
  js "Bạn là một trợ lý AI hữu ích. Khi trả lời câu hỏi, vui lòng " ++
  js "tuân thủ các yêu cầu sau:" ++ nl ++
  js "1. Không sử dụng bất kỳ định dạng markdown nào (không **, ##, " ++ js "```, v.v.)" ++
  nl ++ js "2. Trả lời bằng văn bản thuần, không cần xuống dòng thừa" ++ nl ++
  js "3. Sử dụng các dấu số thứ tự (1, 2, 3) để liệt kê nếu cần" ++ nl ++
  js "4. Trả lời bằng tiếng Việt" ++ nl ++ js "5. Giữ câu trả lời ngắn gọn, súc tích" ++ nl ++
  js "6. Không tự thêm phần " ++ dquote ++ js "Nguồn tham khảo" ++ dquote ++
  js " trong câu trả lời; hệ thống sẽ hiển thị riêng nếu có dữ liệu " ++ js "kèm theo" ++ nl ++
  js "7. Nếu không có nguồn, chỉ cần trả lời nội dung chính xác, không " ++
  js "bổ sung ghi chú nào" ++ nl ++ nl ++
  js "LƯU Ý QUAN TRỌNG: TUYỆT ĐỐI KHÔNG sử dụng bất kỳ định dạng markdown " ++
  js "nào. Chỉ trả lời bằng văn bản thuần.".

(** The first element of [promptParts] in [handlePerplexityToGemini]. *)
Definition PERPLEXITY_PROMPT_HEADER : jsstring :=
  js "Ban la mot tro ly AI huu ich. Hay tra loi cau hoi dua tren du " ++
  js "lieu tim kiem duoc cung cap tu Perplexity, tuan thu cac yeu " ++ js "cau sau:" ++ nl ++
  js "1. Khong su dung bat ky dinh dang markdown nao (khong **, ##, " ++ js "``` , v.v.)" ++
  nl ++ js "2. Tra loi bang van ban thuan, khong can xuong dong thua" ++ nl ++
  js "3. Su dung cac dau so thu tu (1, 2, 3) de liet ke cac y chinh " ++ js "neu can" ++ nl ++
  js "4. Tra loi bang tieng Viet" ++ nl ++
  js "5. Chi tong hop thong tin duoc cung cap tu Perplexity, khong " ++
  js "them nguon ben ngoai" ++ nl ++ js "6. Khong chen phan " ++ dquote ++
  js "Nguon tham khao" ++ dquote ++
  js " trong cau tra loi; he thong se hien thi phan nay tu du lieu " ++ js "dau vao" ++ nl ++
  js "7. Neu can nhac den nguon, chi de cap ten hoac nguon goc trong " ++
  js "noi dung, khong dinh kem URL trong cau tra loi".

(** The user message of the refinement request is
    [REFINE_USER_1 ++ searchContext ++ REFINE_USER_2 ++ userQuestion ++ REFINE_USER_3]. *)
Definition REFINE_USER_1 : jsstring :=
  js "RESEARCH DATA:" ++ nl.

Definition REFINE_USER_2 : jsstring :=
  nl ++ nl ++ js "ORIGINAL QUESTION: ".

Definition REFINE_USER_3 : jsstring :=
  nl ++ nl ++ js "TASK:" ++ nl ++
  js "1. Create a detailed Vietnamese prompt for Gemini using the " ++
  js "research summary and references." ++ nl ++
  js "2. Preserve any critical details from the original question." ++ nl ++
  js "3. Provide explicit guidance on how Gemini should structure " ++ js "the reply." ++ nl ++
  js "4. Require Gemini to answer in Vietnamese plain text without " ++
  js "Markdown symbols." ++ nl ++
  js "5. Remind Gemini to use only the provided research information " ++
  js "and not invent additional sources." ++ nl ++ js "6. Do not instruct Gemini to add a " ++
  dquote ++ js "Nguon tham khao" ++ dquote ++
  js " section; the system will present references separately." ++ nl ++ nl ++
  js "Return only the optimized prompt.".

Definition REFINE_SYSTEM : jsstring :=
  js "You are an assistant that crafts detailed Vietnamese prompts for Gemini " ++
  js "based on research data. Keep the prompt clear and avoid Markdown formatting.".

Definition REFERENCES_HEADING : jsstring := js "Nguồn tham khảo:".
Definition NO_REFERENCES : jsstring := js "Nguồn tham khảo: (không có)".

(** The entry built from the citation candidate at [index]. *)
Definition entry_of (index : nat) (citation : Citation) : option SearchResult :=
  match citation with
  | CitString u =>
      Some {| sr_title := js "Source " ++ of_nat (index + 1); sr_url := u;
              sr_content := []; sr_source := None |}
  | CitObject o =>
      Some {| sr_title :=
                opt_or (cit_title o) (opt_or (cit_source o) (opt_or (cit_url o)
                  (js "Source " ++ of_nat (index + 1))));
              sr_url := opt_or (cit_url o) (opt_or (cit_source o) (opt_or (cit_link o) []));
              sr_content :=
                opt_or (cit_snippet o) (opt_or (cit_text o) (opt_or (cit_content o)
                  (opt_or (cit_summary o) [])));
              sr_source := None |}
  | CitOther => None
  end.

Definition entry_key (e : SearchResult) : jsstring :=
  or_else (sr_url e) [] ++ js "|" ++ sr_title e.

(** The [forEach] over the citation candidates: an entry is kept when its
    key was not seen before. *)
Fixpoint collect (index : nat) (seen : list jsstring) (cs : list Citation)
  : list SearchResult :=
  match cs with
  | [] => []
  | citation :: rest =>
      match entry_of index citation with
      | Some entry =>
          if mem (entry_key entry) seen then collect (S index) seen rest
          else entry :: collect (S index) (entry_key entry :: seen) rest
      | None => collect (S index) seen rest
      end
  end.

(** [hostname.replace(/^www\./, empty)] *)
Definition strip_www (h : jsstring) : jsstring :=
  if startsWith h (js "www.") then skipn 4 h else h.

Section Handlers.
Variable pf : Platform.
Variable env : Env.
Variable W : World.

Definition google_configured : bool := opt_truthy (GOOGLE_API_KEY env).
Definition openai_configured : bool := opt_truthy (OPENAI_API_KEY env).

(** [getPerplexityConfig] *)
Definition getPerplexityConfig : option jsstring * jsstring :=
  (match PERPLEXITY_API_KEY env with
   | Some k => if truthy (trim k) then Some (trim k) else None
   | None => None
   end,
   match PERPLEXITY_MODEL env with
   | Some m => or_else (trim m) DEFAULT_PERPLEXITY_MODEL
   | None => DEFAULT_PERPLEXITY_MODEL
   end).

(** What the adapter makes of the reply of the Perplexity API. *)
Definition search_return (r : PerplexityReply) : SearchReturn :=
  match r with
  | PxThrows msg => SearchFailed (js "perplexity_network_error") msg
  | PxNotOk _ _ rawErrorText parsedErrorMessage parsedMessage =>
      SearchFailed (js "perplexity_api_error")
        (opt_or parsedErrorMessage
           (opt_or parsedMessage (or_else rawErrorText (js "Perplexity API error"))))
  | PxOk summary citationCandidates =>
      SearchDone (if truthy summary then trim summary else [])
                 (collect 0 [] citationCandidates)
  end.

(** What [searchWithPerplexityStyle] returns when the calls made so far
    are [log]. *)
Definition search_outcome (log : list Event) (query : jsstring) : SearchReturn :=
  let (apiKey, model) := getPerplexityConfig in
  match apiKey with
  | None => SearchFailed (js "missing_api_key") (js "Perplexity API key is not configured.")
  | Some _ => search_return (perplexity_chat W log model query)
  end.

Definition searchWithPerplexityStyle (query : jsstring) : M SearchReturn :=
  let (apiKey, model) := getPerplexityConfig in
  match apiKey with
  | None =>
      _ <- call (EvSearch query) (fun _ => tt) ;;
      ret (SearchFailed (js "missing_api_key") (js "Perplexity API key is not configured."))
  | Some _ =>
      r <- call (EvSearch query) (fun log => perplexity_chat W log model query) ;;
      ret (search_return r)
  end.

(** One line of [referencesText]. *)
Definition reference_line (index : nat) (result : SearchResult) : jsstring :=
  let rawUrl := trim (sr_url result) in
  let url := or_else rawUrl (js "(khong co URL)") in
  let title0 :=
    or_else (trim (sr_title result))
            (match sr_source result with
             | Some src => or_else (trim src) []
             | None => []
             end) in
  let title1 :=
    if negb (truthy title0) && truthy rawUrl then
      match URL_hostname pf rawUrl with
      | Some h => or_else (strip_www h) title0
      | None => title0
      end
    else title0 in
  let title :=
    if negb (truthy title1) then js "Nguon " ++ of_nat (index + 1) else title1 in
  let content := or_else (sr_content result) [] in
  of_nat (index + 1) ++ js ". " ++ title ++ js " - " ++ url ++ nl ++ content.

(** The numbered entries of the reference block. *)
Definition reference_entries (researchResults : list SearchResult) : list jsstring :=
  mapi reference_line (firstn MAX_REFERENCES researchResults).

Definition referencesText_of (researchResults : list SearchResult) : jsstring :=
  if 0 <? length researchResults then join nl (reference_entries researchResults)
  else [].

(** [conversationContext] of the workflow handlers. *)
Definition conversationContext_of (ms : list Message) : jsstring :=
  if 1 <? length ms then
    join nl (map (fun msg =>
                    (if eqb (msg_role msg) (js "user") then js "Người dùng" else js "Trợ lý")
                    ++ js ": " ++ content_text pf msg)
                 (removelast ms))
  else [].

Definition replace_last_content (ms : list Message) (p : jsstring) : list Message :=
  map_last (fun msg => {| msg_role := msg_role msg; msg_content := CString p |}) ms.

(** The Gemini request of the workflow handlers: the conversation with
    the content of its last message replaced by the composed prompt. *)
Definition workflow_request (model : option jsstring) (ms : list Message)
  (enhancedPrompt : jsstring) : GeminiRequest :=
  {| g_model := model;
     g_contents := gemini_contents pf (replace_last_content ms enhancedPrompt);
     g_maxOutputTokens := 2000 |}.

Definition preview (t : jsstring) : jsstring :=
  substring0 200 t ++ (if 200 <? length t then js "..." else []).

Definition success (b : Body) : Response := {| status := 200; body := b |}.

(** The [catch] clause of a workflow handler. *)
Definition workflow_error (fallback message : jsstring) : Response :=
  error_response 500 (or_else message fallback) (Some (js "workflow_error")).

(** *** handleGoogle *)

Definition sourcesSection_of (uploadedFiles : list UploadedFile) : jsstring :=
  let displayFiles := firstn MAX_REFERENCES uploadedFiles in
  if 0 <? length displayFiles then
    REFERENCES_HEADING ++ nl ++
    join nl (mapi (fun index file =>
                     of_nat (index + 1) ++ js ") " ++ up_name file
                     ++ js " - " ++ fileUri file) displayFiles)
  else NO_REFERENCES.

Definition google_finalText (text : jsstring) (uploadedFiles : list UploadedFile)
  : jsstring :=
  let responseText := stripReferenceSection pf (cleanText text) in
  let responseParts :=
    (if truthy responseText then [responseText] else [])
    ++ [sourcesSection_of uploadedFiles] in
  join (nl ++ nl) responseParts.

Definition google_request (model : option jsstring)
  (processedContents : list GeminiContent) : GeminiRequest :=
  let systemInstruction :=
    {| g_role := js "user"; g_parts := [GText GOOGLE_SYSTEM_INSTRUCTION] |} in
  {| g_model := model; g_contents := systemInstruction :: processedContents;
     g_maxOutputTokens := 1000 |}.

Definition google_success (finalText : jsstring) (prompts : list Prompt) : Response :=
  success {| error := None; errorType := None; text := Some finalText;
             body_workflow := None; step1 := None; step2 := None; steps := None;
             prompts := Some prompts; searchResults := None;
             referencesText := None |}.

(** The [catch] clause of [handleGoogle]. *)
Definition google_error (message : jsstring) : Response :=
  if includes message (js "API key") then
    error_response 401 (js "Invalid Google API key. Please check your configuration.")
                   (Some (js "invalid_key"))
  else if includes message (js "quota") || includes message (js "limit") then
    error_response 429 (js "Google API quota exceeded. Please try again later.")
                   (Some (js "quota_exceeded"))
  else
    error_response 500 (or_else message (js "Failed to get response from Google Gemini"))
                   (Some (js "api_error")).

Definition handleGoogle (ms : list Message) (model : option jsstring)
  (stream : bool) (fs : list File) : M Response :=
  if negb google_configured then
    ret (error_response 500 (js "Google API key not configured") None)
  else
    try_catch
      (uploadedFiles <- uploadFilesToGeminiSDK env W fs ;;
       ' (processedContents, prompts) <-
           processMessagesForGoogleSDK W CONTENT_SYSTEM ms fs uploadedFiles ;;
       text <- generateContent W (google_request model processedContents) ;;
       ret (google_success (google_finalText text uploadedFiles) prompts))
      (fun message => ret (google_error message)).

(** *** handleChatGPTToGemini *)

Definition chatgpt_enhancedPrompt (conversationContext userQuestion optimizedPrompt
  : jsstring) : jsstring :=
  if truthy conversationContext then
    js "NGỮ CẢNH CUỘC TRÒ CHUYỆN:" ++ nl ++ conversationContext ++ nl ++ nl ++
    js "CÂU HỎI HIỆN TẠI: " ++ userQuestion ++ nl ++ nl ++
    js "PROMPT ĐÃ TỐI ƯU:" ++ nl ++ optimizedPrompt
  else optimizedPrompt.

Definition chatgpt_success (userQuestion optimizedPrompt enhancedPrompt text : jsstring)
  : Response :=
  success {| error := None; errorType := None; text := Some text;
             body_workflow := Some (js "chatgpt-to-gemini");
             step1 := Some (StepChatgptPromptGeneration userQuestion
                              (substring0 200 optimizedPrompt ++ js "...")
                              (length optimizedPrompt));
             step2 := Some (StepGeminiResponse (Some (length enhancedPrompt))
                              (Some (substring0 200 text ++ js "...")));
             steps := None; prompts := None; searchResults := None;
             referencesText := None |}.

Definition no_question : Response :=
  error_response 400 (js "No question provided") None.

Definition handleChatGPTToGemini (ms : list Message) (model : option jsstring)
  (stream : bool) (fs : list File) : M Response :=
  if negb google_configured then
    ret (error_response 500 (js "Google API key not configured") None)
  else if negb openai_configured then
    ret (error_response 500
           (js "OpenAI API key not configured for ChatGPT-to-Gemini workflow") None)
  else
    try_catch
      (lastMessage <- lastMessage_of ms ;;
       let userQuestion := userQuestion_of lastMessage in
       if negb (truthy (trim userQuestion)) then ret no_question
       else
         let conversationContext := conversationContext_of ms in
         optimizedPrompt <- convertToPromptChatGPT W CONTENT_SYSTEM userQuestion ;;
         let enhancedPrompt :=
           chatgpt_enhancedPrompt conversationContext userQuestion optimizedPrompt in
         text <- generateContent W (workflow_request model ms enhancedPrompt) ;;
         ret (chatgpt_success userQuestion optimizedPrompt enhancedPrompt text))
      (fun message =>
         ret (workflow_error (js "Failed to process ChatGPT-to-Gemini workflow") message)).

(** *** handlePerplexityToGemini *)

Definition search_error_response (message : jsstring) : Response :=
  error_response 502 (or_else message (js "Perplexity search failed."))
                 (Some (js "perplexity_search_error")).

Definition step_perplexity_search (userQuestion searchAnswer : jsstring)
  (researchResults : list SearchResult) : Step :=
  StepPerplexitySearch userQuestion (length researchResults)
    (or_else searchAnswer (js "Perplexity did not return a summary."))
    (if truthy searchAnswer then Some searchAnswer else None)
    researchResults.

(** [finalText] of the two Perplexity workflows. *)
Definition finalText_of (text referencesText : jsstring) : jsstring :=
  let responseText := stripReferenceSection pf (cleanText text) in
  let responseParts :=
    (if truthy responseText then [responseText] else []) ++
    (if truthy referencesText then [REFERENCES_HEADING ++ nl ++ referencesText] else []) in
  if 0 <? length responseParts then join (nl ++ nl) responseParts else responseText.

(** [enhancedPrompt] of [handlePerplexityToGemini]. *)
Definition perplexity_prompt (conversationContext searchAnswer userQuestion : jsstring)
  (researchResults : list SearchResult) : jsstring :=
  let searchSections :=
    (if truthy searchAnswer
     then [js "TÓM TẮT TỪ NGUỒN TÌM KIẾM:" ++ nl ++ searchAnswer] else []) ++
    (if 0 <? length researchResults
     then [js "THAM KHAO:" ++ nl ++ referencesText_of researchResults] else []) in
  let promptParts :=
    [PERPLEXITY_PROMPT_HEADER] ++
    (if truthy conversationContext
     then [js "Ngữ cảnh cuộc trò chuyện:" ++ nl ++ conversationContext] else []) ++
    (if 0 <? length searchSections
     then [js "Dữ liệu tìm kiếm từ Perplexity:" ++ nl ++ join (nl ++ nl) searchSections]
     else []) ++
    [js "Câu hỏi hiện tại: " ++ userQuestion] in
  join (nl ++ nl) promptParts.

Definition perplexity_success (userQuestion answer : jsstring)
  (researchResults : list SearchResult) (enhancedPrompt text : jsstring) : Response :=
  let searchAnswer := trim answer in
  let finalText := finalText_of text (referencesText_of researchResults) in
  success {| error := None; errorType := None; text := Some finalText;
             body_workflow := Some (js "perplexity-to-gemini");
             step1 := Some (step_perplexity_search userQuestion searchAnswer
                              researchResults);
             step2 := Some (StepGeminiResponse (Some (length enhancedPrompt))
                              (Some (preview finalText)));
             steps := None; prompts := None;
             searchResults := Some (PerplexityPayload (SearchDone answer researchResults));
             referencesText := None |}.

Definition handlePerplexityToGemini (ms : list Message) (model : option jsstring)
  (stream : bool) (fs : list File) : M Response :=
  if negb google_configured then
    ret (error_response 500 (js "Google API key not configured") None)
  else
    try_catch
      (lastMessage <- lastMessage_of ms ;;
       let userQuestion := userQuestion_of lastMessage in
       if negb (truthy (trim userQuestion)) then ret no_question
       else
         let conversationContext := conversationContext_of ms in
         searchResults <- searchWithPerplexityStyle userQuestion ;;
         match searchResults with
         | SearchFailed _ message => ret (search_error_response message)
         | SearchDone answer researchResults =>
             let enhancedPrompt :=
               perplexity_prompt conversationContext (trim answer) userQuestion
                                 researchResults in
             text <- generateContent W (workflow_request model ms enhancedPrompt) ;;
             ret (perplexity_success userQuestion answer researchResults
                                     enhancedPrompt text)
         end)
      (fun message =>
         ret (workflow_error (js "Failed to process Perplexity-to-Gemini workflow")
                             message)).

(** *** handlePerplexityChatGPTToGemini *)

(** [searchContext] of [handlePerplexityChatGPTToGemini]. *)
Definition searchContext_of (searchAnswer : jsstring)
  (researchResults : list SearchResult) : jsstring :=
  let searchContextSections :=
    (if truthy searchAnswer then [js "Summary:" ++ nl ++ searchAnswer] else []) ++
    (if 0 <? length researchResults
     then [js "References:" ++ nl ++ referencesText_of researchResults] else []) in
  or_else (join (nl ++ nl) searchContextSections)
          (js "No additional research data was returned.").

Definition refinement_request (searchContext userQuestion : jsstring) : OpenAIRequest :=
  {| oa_model := js "gpt-4";
     oa_system := REFINE_SYSTEM;
     oa_user := REFINE_USER_1 ++ searchContext ++ REFINE_USER_2 ++ userQuestion
                ++ REFINE_USER_3;
     oa_max_tokens := 1000 |}.

Definition refined_request (model : option jsstring) (refinedPrompt : jsstring)
  : GeminiRequest :=
  {| g_model := model;
     g_contents := [{| g_role := js "user"; g_parts := [GText refinedPrompt] |}];
     g_maxOutputTokens := 2000 |}.

Definition refined_success (userQuestion answer : jsstring)
  (researchResults : list SearchResult) (refinedPrompt text : jsstring) : Response :=
  let searchAnswer := trim answer in
  let chatReferencesText := referencesText_of researchResults in
  let finalText := finalText_of text chatReferencesText in
  success {| error := None; errorType := None; text := Some finalText;
             body_workflow := Some (js "perplexity-chatgpt-gemini");
             step1 := None; step2 := None;
             steps := Some (step_perplexity_search userQuestion searchAnswer
                              researchResults,
                            StepChatgptRefinement refinedPrompt,
                            StepGeminiResponse None (Some (preview finalText)));
             prompts := None;
             searchResults := Some (PerplexityPayload (SearchDone answer researchResults));
             referencesText := Some chatReferencesText |}.

Definition handlePerplexityChatGPTToGemini (ms : list Message)
  (model : option jsstring) (stream : bool) (fs : list File) : M Response :=
  if negb google_configured || negb openai_configured then
    ret (error_response 500 (js "API keys not configured") None)
  else
    try_catch
      (lastMessage <- lastMessage_of ms ;;
       let userQuestion := userQuestion_of lastMessage in
       if negb (truthy (trim userQuestion)) then ret no_question
       else
         searchResults <- searchWithPerplexityStyle userQuestion ;;
         match searchResults with
         | SearchFailed _ message => ret (search_error_response message)
         | SearchDone answer researchResults =>
             let searchContext := searchContext_of (trim answer) researchResults in
             let req := refinement_request searchContext userQuestion in
             chatGPTResponse <- call (EvOpenAI req) (fun log => openai_chat W log req) ;;
             refinedPrompt <-
               match chatGPTResponse with
               | OpenAIThrows msg => throw msg
               | OpenAINotOk => throw (js "Failed to get response from ChatGPT")
               | OpenAIOk c => ret (opt_or c userQuestion)
               end ;;
             text <- generateContent W (refined_request model refinedPrompt) ;;
             ret (refined_success userQuestion answer researchResults refinedPrompt text)
         end)
      (fun message =>
         ret (workflow_error (js "Failed to process Perplexity-ChatGPT-Gemini workflow")
                             message)).

Definition workflow_of (req : Request) : jsstring :=
  match workflow req with
  | Some w => w
  | None => js "single"
  end.

(** The chain of workflow tests of [POST], for the model found in the
    mapping. *)
Definition dispatch (req : Request) (actualModel : option jsstring) : M Response :=
  if eqb (workflow_of req) (js "chatgpt-to-gemini") then
    handleChatGPTToGemini (messages req) actualModel (stream req) (files req)
  else if eqb (workflow_of req) (js "perplexity-to-gemini") then
    handlePerplexityToGemini (messages req) actualModel (stream req) (files req)
  else if eqb (workflow_of req) (js "perplexity-chatgpt-gemini") then
    handlePerplexityChatGPTToGemini (messages req) actualModel (stream req) (files req)
  else handleGoogle (messages req) actualModel (stream req) (files req).

Definition POST (req : Request) : M Response :=
  try_catch
    (match modelConfig (model req) with
     | None => ret (error_response 400 (js "Unsupported model: " ++ model req) None)
     | Some actualModel => dispatch req actualModel
     end)
    (fun _ => ret (error_response 500 (js "Internal server error") None)).

End Handlers.

End Perplexity.

(* ===================================================================== *)
(** ** The Tavily variant of the route (workflow tavily-to-gemini) *)
(* ===================================================================== *)

Module Tavily.

(** [CONTENT_SYSTEM] *)
Definition CONTENT_SYSTEM : jsstring :=
  nl ++ js "B·∫°n l√† Chatbot ORS. Nhi·ªám v·ª•: nh·∫≠n c√¢u h·ªèi c·ªßa " ++
  js "user, sinh ra prompt ƒë∆°n gi·∫£n cho Gemini." ++ nl ++ js "LU·ªíNG X·ª¨ L√ù:" ++ nl ++
  js "User h·ªèi ‚Üí B·∫°n t·∫°o prompt ‚Üí Prompt g·ª≠i cho Gemini " ++
  js "‚Üí Gemini tr·∫£ l·ªùi" ++ nl ++ js "QUY T·∫ÆC SINH PROMPT:" ++ nl ++ nl ++
  js "1. N·∫øu user ch·ªâ ch√†o h·ªèi (hi, hello, xin ch√†o) ‚Üí Tr·∫£ " ++ js "l·ªùi: " ++
  dquote ++ js "Xin ch√†o! T√¥i c√≥ th·ªÉ gi√∫p g√¨ cho b·∫°n?" ++ dquote ++ nl ++ nl ++
  js "2. N·∫øu user h·ªèi th√¥ng tin ‚Üí Sinh prompt theo m·∫´u n√†y:" ++ nl ++ dquote ++
  js "Tr·∫£ l·ªùi c√¢u h·ªèi: [c√¢u h·ªèi user]" ++ nl ++ nl ++ js "Y√™u c·∫ßu:" ++ nl ++
  js "- Kh√¥ng d√πng k√Ω hi·ªáu **, kh√¥ng markdown" ++ nl ++
  js "- C√≥ s·ªë li·ªáu b√°o c√°o n·∫øu c√≥" ++ nl ++
  js "- Hi·ªÉn th·ªã √Ω ch√≠nh ƒë√∫ng tr·ªçng t√¢m, v√≠ d·ª•: ƒë√°nh " ++ js "s·ªë 1. 2. 3." ++
  nl ++ js "- M·ªói √Ω: 1 c√¢u t√≥m t·∫Øt + 1-2 c√¢u gi·∫£i th√≠ch" ++ nl ++
  js "- N·∫øu coÃÅ chiÃâ d√¢ÃÉn ngu√¥ÃÄn, s·ªë li·ªáu th√¨ Cu·ªëi " ++
  js "m·ªói √Ω ghi ngu·ªìn: <br /><strong>Ngu·ªìn:</strong> <a href='[link]' " ++
  js "target='_blank'>[t√™n]</a>" ++ nl ++ js "Kh√¥ng c√≥ ngu·ªìn th√¨ kh√¥ng ghi." ++ nl ++
  js "- Vi·∫øt b·∫±ng ti·∫øng Vi·ªát" ++ dquote ++ nl ++ nl ++ js "CH√ö √ù:" ++ nl ++
  js "- [ch·ªß ƒë·ªÅ] = thay b·∫±ng lƒ©nh v·ª±c ph√π h·ª£p (t√†i ch√≠nh, " ++
  js "gi√°o d·ª•c, y t·∫ø, ng√¢n h√†ng...)" ++ nl ++
  js "- [c√¢u h·ªèi user] = copy y nguy√™n c√¢u h·ªèi c·ªßa user" ++ nl ++
  js "- Ch·ªâ xu·∫•t prompt, kh√¥ng gi·∫£i th√≠ch g√¨ th√™m" ++ nl.

(** One search result is rendered as
    [index + 1 ++ SEARCH_CONTEXT_1 ++ title ++ SEARCH_CONTEXT_2 ++ content
     ++ SEARCH_CONTEXT_3 ++ url]. *)
Definition SEARCH_CONTEXT_1 : jsstring :=
  js ". **".

Definition SEARCH_CONTEXT_2 : jsstring :=
  js "**" ++ nl.

Definition SEARCH_CONTEXT_3 : jsstring :=
  nl ++ js "üìç Ngu·ªìn: ".

(** [tavilyAnswer] is [TAVILY_ANSWER_0 ++ answer ++ TAVILY_ANSWER_1]. *)
Definition TAVILY_ANSWER_0 : jsstring :=
  nl ++ js "**T√≥m t·∫Øt t·ª´ Tavily AI:**" ++ nl.

Definition TAVILY_ANSWER_1 : jsstring :=
  nl ++ nl.

(** [enhancedPrompt] is [tavilyAnswer ++ TAVILY_PROMPT_1 ++ searchContext ++
    TAVILY_PROMPT_2 ++ userQuestion ++ TAVILY_PROMPT_3 ++ userQuestion ++
    TAVILY_PROMPT_4]. *)
Definition TAVILY_PROMPT_1 : jsstring :=
  js "D·ª±a tr√™n th√¥ng tin t√¨m ki·∫øm m·ªõi nh·∫•t sau ƒë√¢y, h√£y " ++
  js "tr·∫£ l·ªùi c√¢u h·ªèi c·ªßa t√¥i m·ªôt c√°ch chi ti·∫øt v√† " ++ js "ch√≠nh x√°c:" ++
  nl ++ nl ++ js "üìö **TH√îNG TIN T√åM KI·∫æM:**" ++ nl.

Definition TAVILY_PROMPT_2 : jsstring :=
  nl ++ nl ++ js "‚ùì **C√ÇU H·ªéI:** ".

Definition TAVILY_PROMPT_3 : jsstring :=
  nl ++ nl ++ js "üìã **Y√äU C·∫¶U TR·∫¢ L·ªúI:**" ++ nl ++
  js "- B·∫°n ƒë√≥ng vai tr√≤ l√† m·ªôt chuy√™n gia trong lƒ©nh v·ª±c " ++
  js "t√¨m ki·∫øm t√†i li·ªáu d·ª±a theo y√™u c·∫ßu ".

Definition TAVILY_PROMPT_4 : jsstring :=
  nl ++ js "- T·ª´ t√†i li·ªáu thu th·∫≠p ƒë∆∞·ª£c, b·∫°n s·∫Ω t·ªïng h·ª£p " ++
  js "l·∫°i th√†nh m·ªôt prompt ƒë·ªÉ g·ª≠i cho Gemini" ++ nl ++
  js "- Kh√¥ng d√πng k√Ω hi·ªáu **, kh√¥ng markdown" ++ nl ++
  js "- N·∫øu th√¥ng tin t√¨m ki·∫øm kh√¥ng ƒë·ªß ho·∫∑c m√¢u thu·∫´n, " ++
  js "h√£y n√≥i r√µ" ++ nl ++
  js "- Tr·∫£ l·ªùi b·∫±ng ti·∫øng Vi·ªát, s·ª≠ d·ª•ng ƒë·ªãnh d·∫°ng " ++
  js "d·ªÖ ƒë·ªçc v·ªõi bullet points khi c·∫ßn thi·∫øt" ++ nl ++
  js "- Vi·∫øt b·∫±ng ti·∫øng Vi·ªát".

Section Handlers.
Variable pf : Platform.
Variable env : Env.
Variable W : World.

Definition google_configured : bool := opt_truthy (GOOGLE_API_KEY env).

(** What the adapter makes of the reply of the Tavily API. *)
Definition search_return (r : TavilyReply) : option TavilyData :=
  match r with
  | TvThrows => None
  | TvNotOk => None
  | TvOk data => Some data
  end.

(** What [searchWithTavily] returns when the calls made so far are [log]. *)
Definition search_outcome (log : list Event) (query : jsstring) : option TavilyData :=
  if negb (opt_truthy (TAVILY_API_KEY env)) then None
  else search_return (tavily_search W log query).

Definition searchWithTavily (query : jsstring) : M (option TavilyData) :=
  if negb (opt_truthy (TAVILY_API_KEY env)) then
    _ <- call (EvSearch query) (fun _ => tt) ;;
    ret None
  else
    r <- call (EvSearch query) (fun log => tavily_search W log query) ;;
    ret (search_return r).

Definition searchContext_of (results : list TavilyResult) : jsstring :=
  join (nl ++ nl)
    (mapi (fun index result =>
             of_nat (index + 1) ++ SEARCH_CONTEXT_1 ++ tv_title result
             ++ SEARCH_CONTEXT_2 ++ tv_content result
             ++ SEARCH_CONTEXT_3 ++ tv_url result) results).

(** [enhancedPrompt] of [handleTavilyToGemini]. *)
Definition enhancedPrompt_of (userQuestion : jsstring)
  (searchResults : option TavilyData) : jsstring :=
  match searchResults with
  | Some data =>
      match tv_results data with
      | Some results =>
          if 0 <? length results then
            let tavilyAnswer :=
              match tv_answer data with
              | Some a => if truthy a then TAVILY_ANSWER_0 ++ a ++ TAVILY_ANSWER_1 else []
              | None => []
              end in
            tavilyAnswer ++ TAVILY_PROMPT_1 ++ searchContext_of results
            ++ TAVILY_PROMPT_2 ++ userQuestion ++ TAVILY_PROMPT_3 ++ userQuestion
            ++ TAVILY_PROMPT_4
          else userQuestion
      | None => userQuestion
      end
  | None => userQuestion
  end.

Definition resultsCount_of (searchResults : option TavilyData) : nat :=
  match searchResults with
  | Some data => match tv_results data with Some rs => length rs | None => 0 end
  | None => 0
  end.

Definition success (b : Body) : Response := {| status := 200; body := b |}.

Definition no_question : Response :=
  error_response 400 (js "No question provided") None.

Definition workflow_error (fallback message : jsstring) : Response :=
  error_response 500 (or_else message fallback) (Some (js "workflow_error")).

(** The Gemini request of [handleTavilyToGemini]. *)
Definition workflow_request (model : option jsstring) (ms : list Message)
  (enhancedPrompt : jsstring) : GeminiRequest :=
  {| g_model := model;
     g_contents :=
       gemini_contents pf
         (map_last (fun msg => {| msg_role := msg_role msg;
                                  msg_content := CString enhancedPrompt |}) ms);
     g_maxOutputTokens := 2000 |}.

Definition tavily_success (userQuestion : jsstring) (searchResults : option TavilyData)
  (text : jsstring) : Response :=
  success {| error := None; errorType := None; text := Some text;
             body_workflow := Some (js "tavily-to-gemini");
             step1 := Some (StepTavilySearch userQuestion (resultsCount_of searchResults));
             step2 := Some (StepGeminiResponse
                              (Some (length (enhancedPrompt_of userQuestion searchResults)))
                              None);
             steps := None; prompts := None;
             searchResults := Some (TavilyPayload searchResults);
             referencesText := None |}.

Definition handleTavilyToGemini (ms : list Message) (model : option jsstring)
  (stream : bool) (fs : list File) : M Response :=
  if negb google_configured then
    ret (error_response 500 (js "Google API key not configured") None)
  else
    try_catch
      (lastMessage <- lastMessage_of ms ;;
       let userQuestion := userQuestion_of lastMessage in
       if negb (truthy (trim userQuestion)) then ret no_question
       else
         searchResults <- searchWithTavily userQuestion ;;
         let enhancedPrompt := enhancedPrompt_of userQuestion searchResults in
         text <- generateContent W (workflow_request model ms enhancedPrompt) ;;
         ret (tavily_success userQuestion searchResults text))
      (fun message =>
         ret (workflow_error (js "Failed to process Tavily-to-Gemini workflow") message)).

Definition google_request (model : option jsstring)
  (processedContents : list GeminiContent) : GeminiRequest :=
  {| g_model := model; g_contents := processedContents; g_maxOutputTokens := 1000 |}.

Definition google_success (text : jsstring) (prompts : list Prompt) : Response :=
  success {| error := None; errorType := None; text := Some text;
             body_workflow := None; step1 := None; step2 := None; steps := None;
             prompts := Some prompts; searchResults := None;
             referencesText := None |}.

(** The [catch] clause of [handleGoogle]. *)
Definition google_error (message : jsstring) : Response :=
  if includes message (js "API key") then
    error_response 401 (js "Invalid Google API key. Please check your configuration.")
                   (Some (js "invalid_key"))
  else if includes message (js "quota") || includes message (js "limit") then
    error_response 429 (js "Google API quota exceeded. Please try again later.")
                   (Some (js "quota_exceeded"))
  else
    error_response 500 (or_else message (js "Failed to get response from Google Gemini"))
                   (Some (js "api_error")).

Definition handleGoogle (ms : list Message) (model : option jsstring)
  (stream : bool) (fs : list File) : M Response :=
  if negb google_configured then
    ret (error_response 500 (js "Google API key not configured") None)
  else
    try_catch
      (uploadedFiles <- uploadFilesToGeminiSDK env W fs ;;
       ' (processedContents, prompts) <-
           processMessagesForGoogleSDK W CONTENT_SYSTEM ms fs uploadedFiles ;;
       text <- generateContent W (google_request model processedContents) ;;
       ret (google_success text prompts))
      (fun message => ret (google_error message)).

Definition workflow_of (req : Request) : jsstring :=
  match workflow req with
  | Some w => w
  | None => js "single"
  end.

(** The workflow test of [POST], for the model found in the mapping. *)
Definition dispatch (req : Request) (actualModel : option jsstring) : M Response :=
  if eqb (workflow_of req) (js "tavily-to-gemini") then
    handleTavilyToGemini (messages req) actualModel (stream req) (files req)
  else handleGoogle (messages req) actualModel (stream req) (files req).

Definition POST (req : Request) : M Response :=
  try_catch
    (match modelConfig (model req) with
     | None => ret (error_response 400 (js "Unsupported model: " ++ model req) None)
     | Some actualModel => dispatch req actualModel
     end)
    (fun _ => ret (error_response 500 (js "Internal server error") None)).

End Handlers.

End Tavily.

(* ===================================================================== *)
(** ** Running a handler; sample environments *)
(* ===================================================================== *)

(** Run a handler on a fresh request: no adapter has been called yet. *)
Definition run (A : Type) (c : M A) : Outcome A * list Event := c [].

(** What a run shows to the outside: the status of the response, the
    response itself, the trace it reports and the adapter calls made. *)
Definition response_of (o : Outcome Response * list Event) : option Response :=
  match fst o with
  | Ok r => Some r
  | Throw _ => None
  end.

Definition status_of (o : Outcome Response * list Event) : option nat :=
  option_map status (response_of o).


Definition reported (o : Outcome Response * list Event) : list Stage :=
  match response_of o with
  | Some r => map stage_of_step (trace (body r))
  | None => []
  end.

Definition calls (o : Outcome Response * list Event) : list Event := snd o.

(** The two variants of the route. *)
Inductive Variant := PerplexityVariant | TavilyVariant.

Definition route_POST (v : Variant) (pf : Platform) (env : Env) (W : World)
  (req : Request) : M Response :=
  match v with
  | PerplexityVariant => Perplexity.POST pf env W req
  | TavilyVariant => Tavily.POST pf env W req
  end.

(** The string contents of a conversation, oldest first. *)
Definition string_contents (ms : list Message) : list jsstring :=
  flat_map (fun m => match msg_content m with
                     | CString s => [s]
                     | CParts _ => []
                     end) ms.

(** The stage table of the specification (section 4.4). *)
Definition workflow_table (w : jsstring) : option (list Stage) :=
  if eqb w (js "single") then Some [ANSWER]
  else if eqb w (js "chatgpt-to-gemini") then Some [REWRITE; ANSWER]
  else if eqb w (js "tavily-to-gemini") then Some [SEARCH; ANSWER]
  else if eqb w (js "perplexity-to-gemini") then Some [SEARCH; ANSWER]
  else if eqb w (js "perplexity-chatgpt-gemini") then Some [SEARCH; REWRITE; ANSWER]
  else None.

(** What the default handler runs: one rewrite per string-content message,
    then the answer. *)
Definition single_stages (ms : list Message) : list Stage :=
  repeat REWRITE (length (string_contents ms)) ++ [ANSWER].

(** The workflow ids a variant tests for; every other id, known or not,
    is served by [handleGoogle]. *)
Definition handles (v : Variant) (w : jsstring) : bool :=
  match v with
  | PerplexityVariant =>
      eqb w (js "chatgpt-to-gemini") || eqb w (js "perplexity-to-gemini")
      || eqb w (js "perplexity-chatgpt-gemini")
  | TavilyVariant => eqb w (js "tavily-to-gemini")
  end.

(** The stages a successful request runs, read off the dispatch of each
    variant. *)
Definition route_stages (v : Variant) (req : Request) : list Stage :=
  let w := Perplexity.workflow_of req in
  match v with
  | PerplexityVariant =>
      if eqb w (js "chatgpt-to-gemini") then [REWRITE; ANSWER]
      else if eqb w (js "perplexity-to-gemini") then [SEARCH; ANSWER]
      else if eqb w (js "perplexity-chatgpt-gemini") then [SEARCH; REWRITE; ANSWER]
      else single_stages (messages req)
  | TavilyVariant =>
      if eqb w (js "tavily-to-gemini") then [SEARCH; ANSWER]
      else single_stages (messages req)
  end.

(** The stages a successful response reports in [step1], [step2] or
    [steps]; the default handler reports [prompts] and no step. *)
Definition route_reported (v : Variant) (req : Request) : list Stage :=
  if handles v (Perplexity.workflow_of req) then route_stages v req else [].


(** ASCII upper-case letters to lower case. *)
Definition ascii_lower (c : N) : N :=
  if ((65 <=? c) && (c <=? 90))%N then (c + 32)%N else c.

(** A platform for the examples: on ASCII text, which is all the examples
    use, normalisation is the identity and case mapping is [ascii_lower];
    no URL is parsed and no mixed content is serialised. *)
Definition ascii_platform : Platform :=
  {| JSON_stringify := fun _ => js "[]";
     URL_hostname := fun _ => None;
     normalize_NFD := fun s => s;
     toLowerCase := map ascii_lower |}.

Definition all_keys : Env :=
  {| GOOGLE_API_KEY := Some (js "g-key");
     OPENAI_API_KEY := Some (js "o-key");
     PERPLEXITY_API_KEY := Some (js "p-key");
     PERPLEXITY_MODEL := None;
     TAVILY_API_KEY := Some (js "t-key") |}.

(** A world whose providers always give the same replies. *)
Definition constant_world (oa : OpenAIReply) (px : PerplexityReply)
  (tv : TavilyReply) (gm : GeminiReply) : World :=
  {| openai_chat := fun _ _ => oa;
     perplexity_chat := fun _ _ _ => px;
     tavily_search := fun _ _ => tv;
     gemini_generate := fun _ _ => gm;
     gemini_upload := fun _ f => UploadOk (js "files/1") (file_name f) (file_type f) |}.

Definition user_says (s : jsstring) : Message :=
  {| msg_role := js "user"; msg_content := CString s |}.

Definition request_of (ms : list Message) (w : jsstring) : Request :=
  {| messages := ms; model := js "gemini-2.5-flash"; stream := false;
     files := []; workflow := Some w |}.

Definition sample_result (n : jsstring) : SearchResult :=
  {| sr_title := js "T" ++ n; sr_url := js "http://x/" ++ n; sr_content := js "c";
     sr_source := None |}.

(** What the clean-up leaves alone: no star, backtick or opening bracket
    anywhere, and no line that starts with a heading or list marker. *)
Definition inline_marker (c : N) : bool := ((c =? 42) || (c =? 96) || (c =? 91))%N.
Definition line_marker (c : N) : bool := ((c =? 35) || (c =? 45) || (c =? 43))%N.

Fixpoint no_marker_at_line_start (prev : option N) (s : jsstring) : bool :=
  match s with
  | [] => true
  | c :: t =>
      negb (at_line_start prev && line_marker c) && no_marker_at_line_start (Some c) t
  end.

Definition markup_free (s : jsstring) : bool :=
  forallb (fun c => negb (inline_marker c)) s && no_marker_at_line_start None s.

(** No run of three newlines starts anywhere in [s]. *)
Fixpoint no_triple_newline (s : jsstring) : bool :=
  match s with
  | [] => true
  | _ :: t => negb (3 <=? length (take_while (N.eqb 10) s)) && no_triple_newline t
  end.

(* ===================================================================== *)
(** ** Vocabulary of the properties; sample worlds *)
(* ===================================================================== *)

Definition marked_up_text : jsstring :=
  js "**Xin chao**" ++ nl ++ nl ++ nl ++ nl ++ js "- mot [a](http://b)  ".

(** A matcher consumes input whenever it matches. *)
Definition shrinking (m : matcher) : Prop :=
  forall prev s out last rest,
    m prev s = Some (out, last, rest) -> length rest < length s.

(** Number of newlines the string starts with. *)
Definition lead (s : jsstring) : nat := length (take_while (N.eqb 10) s).

Definition steady_world : World :=
  constant_world (OpenAIOk (Some (js "Tra loi ngan gon: Xin chao")))
                 (PxOk (js "tom tat") [CitString (js "http://x/1")])
                 (TvOk {| tv_results := Some []; tv_answer := Some (js "tom tat") |})
                 (GeminiText (js "Chao ban")).

Definition tavily_down : World :=
  constant_world OpenAINotOk (PxThrows (js "fetch failed")) TvNotOk
                 (GeminiText (js "Chao ban")).

Definition perplexity_down : World :=
  constant_world (OpenAIOk (Some (js "P")))
                 (PxNotOk 503 (js "Service Unavailable") (js "upstream down") None None)
                 TvThrows (GeminiText (js "Chao ban")).

(** The rewrite call failed in the sense of C3: the response is not OK, or
    it is OK and carries no content. *)
Definition rewrite_failed (r : OpenAIReply) : bool :=
  match r with
  | OpenAIThrows _ => false
  | OpenAINotOk => true
  | OpenAIOk c => negb (opt_truthy c)
  end.

Definition openai_down : World :=
  constant_world OpenAINotOk (PxOk (js "tom tat") []) TvThrows
                 (GeminiText (js "Chao ban")).

(** A world whose chat completions are OK and carry no content. *)
Definition openai_silent : World :=
  constant_world (OpenAIOk None) (PxOk (js "tom tat") []) TvThrows
                 (GeminiText (js "Chao ban")).

(** The credentials a workflow handler checks before it reads the
    question. *)
Definition keys_checked (v : Variant) (env : Env) (w : jsstring) : bool :=
  match v with
  | PerplexityVariant =>
      if eqb w (js "perplexity-to-gemini") then Perplexity.google_configured env
      else Perplexity.google_configured env && Perplexity.openai_configured env
  | TavilyVariant => Tavily.google_configured env
  end.

(** The default handler of a variant. *)
Definition default_handler (v : Variant) (pf : Platform) (env : Env) (W : World)
  (req : Request) (actualModel : option jsstring) : M Response :=
  match v with
  | PerplexityVariant =>
      Perplexity.handleGoogle pf env W (messages req) actualModel (stream req) (files req)
  | TavilyVariant =>
      Tavily.handleGoogle env W (messages req) actualModel (stream req) (files req)
  end.

(** The [CONTENT_SYSTEM] constant of a variant. *)
Definition content_system_of (v : Variant) : jsstring :=
  match v with
  | PerplexityVariant => Perplexity.CONTENT_SYSTEM
  | TavilyVariant => Tavily.CONTENT_SYSTEM
  end.

(** The [catch] clause of the default handler of a variant. *)
Definition default_error (v : Variant) (message : jsstring) : Response :=
  match v with
  | PerplexityVariant => Perplexity.google_error message
  | TavilyVariant => Tavily.google_error message
  end.

Definition seven_results : list SearchResult :=
  map sample_result [js "1"; js "2"; js "3"; js "4"; js "5"; js "6"; js "7"].


(** [p] occurs in [s]. *)
Definition occurs_in (p s : jsstring) : Prop := exists a b, s = a ++ p ++ b.

Definition summary_only : World :=
  constant_world (OpenAIOk (Some (js "P"))) (PxOk (js "tom tat") [])
                 (TvOk {| tv_results := Some []; tv_answer := Some (js "tom tat") |})
                 (GeminiText (js "Chao ban")).

(** No chat-completions call throws. *)
Definition openai_never_throws (W : World) : Prop :=
  forall log req msg, openai_chat W log req <> OpenAIThrows msg.

(** The conversation of the C10 example: a question, the assistant's
    answer, a message with mixed content and a follow-up question. *)
Definition four_turns : list Message :=
  [ user_says (js "Xin chao");
    {| msg_role := js "assistant"; msg_content := CString (js "Chao ban") |};
    {| msg_role := js "user"; msg_content := CParts [TextPart (js "anh")] |};
    user_says (js "gia vang hom nay") ].

(* ===================================================================== *)
(** ** Preparing messages for OpenAI *)
(* ===================================================================== *)

(** The parts [processMessagesForOpenAI] pushes for one file: a data URL
    for an image, a note for a PDF, nothing for a file of another type. *)
Definition openai_file_parts (file : File) : list Part :=
  if startsWith (file_type file) (js "image/") then
    [ImageUrlPart (Some (js "data:" ++ file_type file ++ js ";base64," ++ file_data file))]
  else if eqb (file_type file) (js "application/pdf") then
    [TextPart (js "[PDF File: " ++ file_name file ++
               js " - Note: OpenAI cannot directly process PDF files. " ++
               js "Please extract text content manually.]")]
  else [].

(** [processMessagesForOpenAI].  The function copies the array and
    updates the last message in place; what is modelled is the array it
    returns, which is all [handleOpenAI] reads. *)
Definition processMessagesForOpenAI (ms : list Message) (fs : list File)
  : list Message :=
  if (0 <? length fs) && (0 <? length ms) then
    map_last
      (fun lastMessage =>
         if eqb (msg_role lastMessage) (js "user") then
           {| msg_role := msg_role lastMessage;
              msg_content :=
                CParts ((match msg_content lastMessage with
                         | CString s => [TextPart s]
                         | CParts ps => ps
                         end) ++ flat_map openai_file_parts fs) |}
         else lastMessage) ms
  else ms.

(* ===================================================================== *)
(** ** The body of a Perplexity reply *)
(* ===================================================================== *)

#[local] Set Warnings "-register-all".

(** A parsed JSON value.  Of a number only its truthiness is kept, which
    is all [extractText] looks at; the fields of an object are in source
    order, the last one of a repeated key being the one [JSON.parse]
    keeps. *)
Inductive JSON :=
| JNull
| JBool (b : bool)
| JNumber (nonzero : bool)
| JString (s : jsstring)
| JArray (items : list JSON)
| JObject (fields : list (jsstring * JSON)).

(** Truthiness of a parsed value. *)
Definition truthy_json (v : JSON) : bool :=
  match v with
  | JNull => false
  | JBool b => b
  | JNumber nonzero => nonzero
  | JString s => truthy s
  | JArray _ => true
  | JObject _ => true
  end.

(** The value of the last field named [key]. *)
Fixpoint assoc_last (key : jsstring) (fields : list (jsstring * JSON))
  : option JSON :=
  match fields with
  | [] => None
  | (k, v) :: rest =>
      match assoc_last key rest with
      | Some x => Some x
      | None => if eqb key k then Some v else None
      end
  end.

(** [value.key] and [value?.key]: [None] is [undefined].  None of the keys
    read here is a property of a string, an array, a number or a boolean. *)
Definition get (key : jsstring) (value : JSON) : option JSON :=
  match value with
  | JObject fields => assoc_last key fields
  | _ => None
  end.

(** [a ?? b] *)
Definition coalesce (a b : option JSON) : option JSON :=
  match a with
  | None => b
  | Some JNull => b
  | Some _ => a
  end.

(** [item?.text ?? item?.content ?? item?.value ?? item] *)
Definition pick (item : JSON) : JSON :=
  match coalesce (get (js "text") item)
          (coalesce (get (js "content") item)
             (coalesce (get (js "value") item) (Some item))) with
  | Some x => x
  | None => item
  end.

(** [value.key] when it is truthy. *)
Definition truthy_field (key : jsstring) (value : JSON) : option JSON :=
  match get key value with
  | Some x => if truthy_json x then Some x else None
  | None => None
  end.

(** The closure [extractText] of [searchWithPerplexityStyle], with a
    bound on the depth of the recursion. *)
Fixpoint extractText_upto (fuel : nat) (value : JSON) : jsstring :=
  match fuel with
  | O => []
  | S fuel' =>
      if negb (truthy_json value) then []
      else
        match value with
        | JString s => s
        | JArray items =>
            join nl (filter truthy
                       (map (fun item => extractText_upto fuel' (pick item)) items))
        | JObject _ =>
            match truthy_field (js "text") value with
            | Some t => extractText_upto fuel' t
            | None =>
                match truthy_field (js "content") value with
                | Some c => extractText_upto fuel' c
                | None =>
                    match truthy_field (js "value") value with
                    | Some x => extractText_upto fuel' x
                    | None =>
                        match get (js "parts") value with
                        | Some (JArray parts) => extractText_upto fuel' (JArray parts)
                        | _ => []
                        end
                    end
                end
            end
        | _ => []
        end
  end.

(** Nesting depth of a value. *)
Fixpoint depth (v : JSON) : nat :=
  match v with
  | JArray items => S (list_max (map depth items))
  | JObject fields => S (list_max (map (fun kv => depth (snd kv)) fields))
  | _ => 0
  end.

(** [extractText(value)]: the recursion goes down the value, so its depth
    bounds it (see [extractText_upto_stable]). *)
Definition extractText (value : JSON) : jsstring :=
  extractText_upto (S (depth value)) value.

(** [value?.[0]] for a value that is neither [null] nor [undefined]. *)
Definition first_of (value : JSON) : option JSON :=
  match value with
  | JArray (x :: _) => Some x
  | JString (c :: _) => Some (JString [c])
  | JObject fields => assoc_last (js "0") fields
  | _ => None
  end.

(** [x || null] *)
Definition or_null (x : option JSON) : option JSON :=
  match x with
  | Some v => if truthy_json v then Some v else None
  | None => None
  end.

(** [value?.key] when it is a string. *)
Definition string_field (key : jsstring) (value : option JSON) : option jsstring :=
  match value with
  | Some v => match get key v with Some (JString s) => Some s | _ => None end
  | None => None
  end.

(** The summary [searchWithPerplexityStyle] finds in the body [data] of an
    OK response, before it is trimmed: the text of the message content,
    else [choice.text], else [data.answer], else the lines of
    [data.output_text].  [None]: [data] is [null] and reading [choices]
    throws.  [array_join] is [Array.prototype.join] with a newline, a
    built-in that is a parameter here. *)
Definition sniffed_summary (array_join : list JSON -> jsstring) (data : JSON)
  : option jsstring :=
  match data with
  | JNull => None
  | _ =>
      let choice :=
        or_null (match coalesce (get (js "choices") data) None with
                 | Some choices => first_of choices
                 | None => None
                 end) in
      let message :=
        match choice with Some c => get (js "message") c | None => None end in
      let content :=
        match coalesce message None with
        | Some m => get (js "content") m
        | None => None
        end in
      let summary0 := match content with Some v => extractText v | None => [] end in
      let summary1 :=
        if truthy summary0 then summary0
        else match string_field (js "text") choice with
             | Some t => t
             | None => summary0
             end in
      let summary2 :=
        if truthy summary1 then summary1
        else match string_field (js "answer") (Some data) with
             | Some a => a
             | None => summary1
             end in
      Some (if truthy summary2 then summary2
            else match get (js "output_text") data with
                 | Some (JArray lines) => array_join lines
                 | _ => summary2
                 end)
  end.

(* ===================================================================== *)
(** ** Vocabulary of the further properties; more samples *)
(* ===================================================================== *)

(** A matcher emits at most what it consumes. *)
Definition non_expanding (m : matcher) : Prop :=
  forall prev s out last rest,
    m prev s = Some (out, last, rest) -> length out + length rest <= length s.

(** The test [stripReferenceSection] makes on a line. *)
Definition heading_line (pf : Platform) (line : jsstring) : bool :=
  startsWith (simplified pf line) (js "nguon tham khao").

Definition answer_with_two_headings : jsstring :=
  js "Tra loi" ++ nl ++ js "Nguon tham khao:" ++ nl ++ js "1) a" ++ nl ++
  js "  NGUON THAM KHAO" ++ nl ++ js "2) b".

Definition plain_vietnamese : jsstring :=
  js "Giá vàng hôm nay tăng." ++ nl ++ nl ++ nl ++ nl ++ js "1. Nguồn cung giảm  ".

(** [subseq l1 l2]: [l1] is [l2] with some elements left out. *)
Inductive subseq (A : Type) : list A -> list A -> Prop :=
| subseq_nil : subseq [] []
| subseq_skip x l1 l2 : subseq l1 l2 -> subseq l1 (x :: l2)
| subseq_keep x l1 l2 : subseq l1 l2 -> subseq (x :: l1) (x :: l2).

(** What one pass of the loop of [uploadFilesToGeminiSDK] pushes for
    [file]: the handle of the upload, or nothing when the upload threw. *)
Definition pushed_handle (file : File) (r : UploadReply) : list UploadedFile :=
  match r with
  | UploadOk uri name mimeType =>
      [{| originalFile := file; fileUri := uri; up_name := name;
          up_mimeType := mimeType |}]
  | UploadThrows => []
  end.

(** No upload to the Files API throws. *)
Definition uploads_succeed (W : World) : Prop :=
  forall log f, gemini_upload W log f <> UploadThrows.

(** A content with at least one part and one of the two roles of the
    Gemini API. *)
Definition well_formed_content (c : GeminiContent) : Prop :=
  g_parts c <> [] /\ (g_role c = js "user" \/ g_role c = js "model").

Definition png : File :=
  {| file_name := js "a.png"; file_type := js "image/png"; file_data := js "iVBORw0KGgo=" |}.
Definition pdf : File :=
  {| file_name := js "b.pdf"; file_type := js "application/pdf"; file_data := js "JVBERi0=" |}.
Definition docx : File :=
  {| file_name := js "c.docx";
     file_type := js "application/vnd.openxmlformats-officedocument.wordprocessingml.document";
     file_data := js "UEsDBA==" |}.

(** A world in which the upload of a Word document fails. *)
Definition word_upload_fails : World :=
  {| openai_chat := fun _ _ => OpenAINotOk;
     perplexity_chat := fun _ _ _ => PxThrows [];
     tavily_search := fun _ _ => TvThrows;
     gemini_generate := fun _ _ => GeminiText (js "Chao ban");
     gemini_upload := fun _ f =>
       if eqb (file_type f) (js "application/pdf")
       then UploadOk (js "files/1") (file_name f) (file_type f)
       else UploadThrows |}.

Definition assistant_last : list Message :=
  [ user_says (js "Xin chao");
    {| msg_role := js "assistant"; msg_content := CParts [TextPart (js "Chao ban")] |} ].

(** [p] is an initial segment of [l]. *)
Definition prefix_of (A : Type) (p l : list A) : Prop := exists rest, l = p ++ rest.

(** The two shapes of a response body: the generated text with status 200
    and no error, or a non-empty error message with one of the error
    statuses and no text. *)
Definition envelope (r : Response) : bool :=
  match text (body r), error (body r) with
  | Some _, None => status r =? 200
  | None, Some e => truthy e && existsb (Nat.eqb (status r)) [400; 401; 429; 500; 502]
  | _, _ => false
  end.

(** The model of an adapter call: Gemini is asked with [actualModel], a
    rewrite with one of two fixed models. *)
Definition routed (actualModel : option jsstring) (e : Event) : Prop :=
  match e with
  | EvGemini req => g_model req = actualModel
  | EvOpenAI req => oa_model req = js "gpt-4o-mini" \/ oa_model req = js "gpt-4"
  | EvSearch _ => True
  | EvUpload _ => True
  end.

(** What holds of every run of a handler that is given [actualModel],
    whose successful runs go through the stages [seq], which makes at
    most [bound] adapter calls and answers with one of [statuses]. *)
Definition handler_invariant (actualModel : option jsstring) (seq : list Stage)
  (bound : nat) (statuses : list nat) (o : Outcome Response * list Event) : Prop :=
  exists r, fst o = Ok r /\ envelope r = true /\
            prefix_of (stages (snd o)) seq /\ Forall (routed actualModel) (snd o) /\
            length (snd o) <= bound /\ In (status r) statuses.

(** The statuses of each handler. *)
Definition workflow_statuses : list nat := [200; 400; 500].
Definition search_statuses : list nat := [200; 400; 500; 502].
Definition default_statuses : list nat := [200; 401; 429; 500].

(** The statuses a request for a supported model can be answered with. *)
Definition route_statuses (v : Variant) (req : Request) : list nat :=
  let w := Perplexity.workflow_of req in
  match v with
  | PerplexityVariant =>
      if eqb w (js "chatgpt-to-gemini") then workflow_statuses
      else if eqb w (js "perplexity-to-gemini") then search_statuses
      else if eqb w (js "perplexity-chatgpt-gemini") then search_statuses
      else default_statuses
  | TavilyVariant =>
      if eqb w (js "tavily-to-gemini") then workflow_statuses else default_statuses
  end.

(** The adapter calls a request can make: one per stage in a workflow
    handler; in the default handler one upload per file at most, one
    rewrite per message at most, and the answer. *)
Definition call_bound (v : Variant) (req : Request) : nat :=
  if handles v (Perplexity.workflow_of req) then length (route_stages v req)
  else length (files req) + length (messages req) + 1.

Definition no_google_key : Env :=
  {| GOOGLE_API_KEY := None;
     OPENAI_API_KEY := Some (js "o-key");
     PERPLEXITY_API_KEY := Some (js "p-key");
     PERPLEXITY_MODEL := None;
     TAVILY_API_KEY := Some (js "t-key") |}.

Definition blank_perplexity_key : Env :=
  {| GOOGLE_API_KEY := Some (js "g-key");
     OPENAI_API_KEY := Some (js "o-key");
     PERPLEXITY_API_KEY := Some (js "   ");
     PERPLEXITY_MODEL := None;
     TAVILY_API_KEY := Some (js "t-key") |}.

(** A world whose first chat-completions call is answered and whose
    later ones are refused with a rate limit. *)
Definition second_rewrite_throws : World :=
  {| openai_chat := fun log _ =>
       match stages log with
       | [] => OpenAIOk (Some (js "Tra loi ngan gon: Xin chao"))
       | _ => OpenAIThrows (js "rate limit reached")
       end;
     perplexity_chat := fun _ _ _ => PxThrows [];
     tavily_search := fun _ _ => TvThrows;
     gemini_generate := fun _ _ => GeminiText (js "Chao ban");
     gemini_upload := fun _ f => UploadOk (js "files/1") (file_name f) (file_type f) |}.

(** [req] with other attachments and another [stream] flag. *)
Definition with_attachments (req : Request) (fs : list File) (st : bool) : Request :=
  {| messages := messages req; model := model req; stream := st; files := fs;
     workflow := workflow req |}.

(** The entry of a plain URL at [index]. *)
Definition url_entry (index : nat) (u : jsstring) : SearchResult :=
  {| sr_title := js "Source " ++ of_nat (index + 1); sr_url := u; sr_content := [];
     sr_source := None |}.

(** The number a decimal numeral denotes. *)
Definition number_of (s : jsstring) : nat :=
  fold_left (fun a c => 10 * a + (N.to_nat c - 48)) s 0.

Definition is_digit (c : N) : bool := ((48 <=? c) && (c <=? 57))%N.

(** A Gemini call whose last content is one non-empty text. *)
Definition asks_with_prompt (e : Event) : Prop :=
  match e with
  | EvGemini req =>
      exists role prompt,
        last_opt (g_contents req) = Some {| g_role := role; g_parts := [GText prompt] |} /\
        truthy prompt = true
  | _ => True
  end.

(** The length of the prompt a successful workflow response reports: that
    of the refined prompt in the three-stage workflow, [promptLength] of
    the second step in the others. *)
Definition reported_prompt_length (b : Body) : option nat :=
  match steps b, step2 b with
  | Some (_, StepChatgptRefinement prompt, _), _ => Some (length prompt)
  | None, Some (StepGeminiResponse (Some n) _) => Some n
  | _, _ => None
  end.

(** A text part of a message content. *)
Definition text_part (s : jsstring) : JSON :=
  JObject [(js "type", JString (js "text")); (js "text", JString s)].

(** A chat-completions body with one choice. *)
Definition completion (content : JSON) (others : list (jsstring * JSON)) : JSON :=
  JObject ((js "choices",
            JArray [JObject [(js "message",
                              JObject [(js "role", JString (js "assistant"));
                                       (js "content", content)])]]) :: others).

(* ===================================================================== *)
(** ** Facts about strings and global replacement *)
(* ===================================================================== *)

Unset Implicit Arguments.

Lemma JS_eqb_eq (a b : jsstring) : eqb a b = true -> a = b.
Proof.
  revert b. induction a as [|x a IH]; intros [|y b]; cbn [eqb]; try discriminate.
  - reflexivity.
  - intros [Hx Hab]%andb_prop. apply N.eqb_eq in Hx. subst y. f_equal. now apply IH.
Qed.

Lemma JS_eqb_refl (a : jsstring) : eqb a a = true.
Proof. induction a as [|x a IH]; [reflexivity|]. cbn [eqb]. now rewrite N.eqb_refl. Qed.

Lemma take_drop_while (p : N -> bool) (s : jsstring) :
  take_while p s ++ drop_while p s = s.
Proof.
  induction s as [|c t IH]; simpl; [reflexivity|].
  destruct (p c); simpl; [now rewrite IH | reflexivity].
Qed.

Lemma take_drop_while_length (p : N -> bool) (s : jsstring) :
  length (take_while p s) + length (drop_while p s) = length s.
Proof.
  rewrite <- (take_drop_while p s) at 3. now rewrite length_app.
Qed.

Lemma drop_while_head (p : N -> bool) (s : jsstring) c t :
  drop_while p s = c :: t -> p c = false.
Proof.
  induction s as [|x s IH]; simpl; [discriminate|].
  destruct (p x) eqn:E; [exact IH|]. intros H. now inversion H; subst.
Qed.

Lemma drop_while_fixed (p : N -> bool) (s : jsstring) :
  match s with [] => True | c :: _ => p c = false end -> drop_while p s = s.
Proof. destruct s as [|c t]; simpl; [reflexivity|]. now intros ->. Qed.

Lemma drop_while_idem (p : N -> bool) (s : jsstring) :
  drop_while p (drop_while p s) = drop_while p s.
Proof.
  apply drop_while_fixed. destruct (drop_while p s) eqn:E; [exact I|].
  eapply drop_while_head; eauto.
Qed.

Lemma trimEnd_prefix (s : jsstring) : exists w, s = trimEnd s ++ w.
Proof.
  exists (rev (take_while is_space (rev s))). unfold trimEnd.
  rewrite <- rev_app_distr, take_drop_while. now rewrite rev_involutive.
Qed.

Lemma trimEnd_idem (s : jsstring) : trimEnd (trimEnd s) = trimEnd s.
Proof. unfold trimEnd. now rewrite rev_involutive, drop_while_idem. Qed.

Lemma trim_head (s : jsstring) c t : trim s = c :: t -> is_space c = false.
Proof.
  unfold trim. intros H. destruct (trimEnd_prefix (trimStart s)) as [w Hw].
  rewrite H in Hw. simpl in Hw. unfold trimStart in Hw.
  eapply drop_while_head; eauto.
Qed.

(** Trimming is idempotent. *)
Lemma trim_idem (s : jsstring) : trim (trim s) = trim s.
Proof.
  unfold trim at 1. unfold trimStart.
  rewrite drop_while_fixed.
  - unfold trim. apply trimEnd_idem.
  - destruct (trim s) eqn:E; [exact I|]. eapply trim_head; eauto.
Qed.

(** A matcher that never matches along the scan leaves the input as it is. *)
Lemma replace_all_id (m : matcher) (inv : option N -> jsstring -> Prop) :
  (forall prev s, inv prev s -> m prev s = None) ->
  (forall prev c t, inv prev (c :: t) -> inv (Some c) t) ->
  forall fuel prev s, inv prev s -> replace_all m fuel prev s = s.
Proof.
  intros Hnone Hstep. induction fuel as [|fuel IH]; intros prev s Hinv; simpl.
  - reflexivity.
  - rewrite (Hnone _ _ Hinv). destruct s as [|c t]; [reflexivity|].
    f_equal. apply IH. eapply Hstep; eauto.
Qed.

Lemma forallb_tail (p : N -> bool) c (t : jsstring) :
  forallb p (c :: t) = true -> forallb p t = true.
Proof. simpl. now intros [_ H]%andb_prop. Qed.

Lemma re_wrapped_none (d : N) (ds : jsstring) prev (s : jsstring) :
  forallb (fun c => negb (c =? d)%N) s = true ->
  re_wrapped (d :: ds) prev s = None.
Proof.
  unfold re_wrapped. destruct s as [|c t]; simpl; [reflexivity|].
  intros [Hc _]%andb_prop. rewrite N.eqb_sym.
  destruct (c =? d)%N; [discriminate | reflexivity].
Qed.

Lemma inline_free_weaken (d : N) (s : jsstring) :
  inline_marker d = true ->
  forallb (fun c => negb (inline_marker c)) s = true ->
  forallb (fun c => negb (c =? d)%N) s = true.
Proof.
  intros Hd. induction s as [|c t IH]; simpl; [reflexivity|].
  intros [Hc Ht]%andb_prop. rewrite (IH Ht), andb_true_r.
  destruct (c =? d)%N eqn:E; [|reflexivity].
  apply N.eqb_eq in E. subst c. now rewrite Hd in Hc.
Qed.

Lemma replace_wrapped_id (d : N) (ds : jsstring) (s : jsstring) :
  inline_marker d = true ->
  forallb (fun c => negb (inline_marker c)) s = true ->
  replace_g (re_wrapped (d :: ds)) s = s.
Proof.
  intros Hd Hs. unfold replace_g.
  apply replace_all_id with
      (inv := fun _ u => forallb (fun c => negb (c =? d)%N) u = true).
  - intros prev u Hu. now apply re_wrapped_none.
  - intros prev c t Hu. eapply forallb_tail; eauto.
  - now apply inline_free_weaken.
Qed.

Lemma replace_link_id (s : jsstring) :
  forallb (fun c => negb (inline_marker c)) s = true ->
  replace_g re_link s = s.
Proof.
  intros Hs. unfold replace_g.
  apply replace_all_id with
      (inv := fun _ u => forallb (fun c => negb (c =? 91)%N) u = true).
  - intros prev [|c t]; simpl; [reflexivity|].
    intros [Hc _]%andb_prop.
    destruct (c =? 91)%N eqn:E; [discriminate|].
    apply N.eqb_neq in E.
    destruct c as [|p]; [reflexivity|].
    repeat (destruct p as [p|p|]; try reflexivity). now elim E.
  - intros prev c t Hu. eapply forallb_tail; eauto.
  - now apply inline_free_weaken.
Qed.

Lemma replace_heading_id (s : jsstring) :
  no_marker_at_line_start None s = true -> replace_g re_heading s = s.
Proof.
  intros Hs. unfold replace_g.
  apply replace_all_id with
      (inv := fun prev u => no_marker_at_line_start prev u = true); [| |exact Hs].
  - intros prev [|c t] Hu; unfold re_heading.
    + now destruct (at_line_start prev).
    + cbn [no_marker_at_line_start] in Hu. apply andb_prop in Hu as [Hc _].
      destruct (at_line_start prev); [|reflexivity].
      assert (E : N.eqb 35 c = false).
      { destruct (N.eqb_spec 35 c); [subst c; cbv in Hc; discriminate | reflexivity]. }
      cbn [take_while]. now rewrite E.
  - intros prev c t Hu. cbn [no_marker_at_line_start] in Hu.
    now apply andb_prop in Hu as [_ H].
Qed.

Lemma replace_list_id (s : jsstring) :
  forallb (fun c => negb (inline_marker c)) s = true ->
  no_marker_at_line_start None s = true -> replace_g re_list s = s.
Proof.
  intros Hi Hs. unfold replace_g.
  apply replace_all_id with
      (inv := fun prev u => forallb (fun c => negb (inline_marker c)) u = true /\
                            no_marker_at_line_start prev u = true); [| |now split].
  - intros prev [|c t] [Hu Hv]; unfold re_list.
    + now destruct (at_line_start prev).
    + cbn [no_marker_at_line_start] in Hv. apply andb_prop in Hv as [Hm _].
      cbn [forallb] in Hu. apply andb_prop in Hu as [Hc _].
      destruct (at_line_start prev); [|reflexivity].
      cbn [andb] in Hm. unfold line_marker in Hm. unfold inline_marker in Hc.
      destruct (c =? 45)%N, (c =? 42)%N, (c =? 43)%N, (c =? 35)%N, (c =? 96)%N,
        (c =? 91)%N; cbn in Hm, Hc; try discriminate; reflexivity.
  - intros prev c t [Hi' Hs']. cbn [forallb] in Hi'.
    cbn [no_marker_at_line_start] in Hs'.
    apply andb_prop in Hi'. apply andb_prop in Hs'. tauto.
Qed.

Lemma replace_newlines_id (s : jsstring) :
  no_triple_newline s = true -> replace_g re_newlines s = s.
Proof.
  intros Hs. unfold replace_g.
  apply replace_all_id with
      (inv := fun _ u => no_triple_newline u = true); [| |exact Hs].
  - intros prev [|c t]; unfold re_newlines; [reflexivity|].
    intros [Hc _]%andb_prop.
    destruct (3 <=? length (take_while (N.eqb 10) (c :: t))); [discriminate|reflexivity].
  - intros prev c t Hu. cbn [no_triple_newline] in Hu.
    now apply andb_prop in Hu as [_ H].
Qed.

Lemma lead_cons_other c (t : jsstring) : (10 =? c)%N = false -> lead (c :: t) = 0.
Proof. unfold lead. cbn [take_while]. now intros ->. Qed.

Lemma lead_cons_newline (t : jsstring) : lead (10%N :: t) = S (lead t).
Proof. reflexivity. Qed.

Lemma lead_drop_while (s : jsstring) : lead (drop_while (N.eqb 10) s) = 0.
Proof.
  destruct (drop_while (N.eqb 10) s) as [|c t] eqn:E; [reflexivity|].
  apply lead_cons_other. eapply drop_while_head; eauto.
Qed.

Lemma no_triple_newline_cons c (t : jsstring) :
  no_triple_newline (c :: t) = negb (3 <=? lead (c :: t)) && no_triple_newline t.
Proof. reflexivity. Qed.

Lemma replace_newlines_step (fuel : nat) prev (s : jsstring) :
  replace_all re_newlines (S fuel) prev s =
  if 3 <=? lead s
  then 10%N :: 10%N :: replace_all re_newlines fuel (Some 10%N) (drop_while (N.eqb 10) s)
  else match s with
       | [] => []
       | c :: t => c :: replace_all re_newlines fuel (Some c) t
       end.
Proof.
  cbn [replace_all]. unfold lead.
  change (re_newlines prev s)
    with (if 3 <=? length (take_while (N.eqb 10) s)
          then Some ([10; 10]%N, 10%N, drop_while (N.eqb 10) s) else None).
  now destruct (3 <=? length (take_while (N.eqb 10) s)).
Qed.

(** After [/\n{3,}/g] is replaced, no run of three newlines is left. *)
Lemma collapse_spec (fuel : nat) : forall prev (s : jsstring),
  length s < fuel ->
  no_triple_newline (replace_all re_newlines fuel prev s) = true /\
  lead (replace_all re_newlines fuel prev s) <= 2 /\
  lead (replace_all re_newlines fuel prev s) <= lead s.
Proof.
  induction fuel as [|fuel IH]; intros prev s Hlen; [lia|].
  rewrite replace_newlines_step.
  destruct (3 <=? lead s) eqn:E3.
  - apply Nat.leb_le in E3.
    assert (Hshort : length (drop_while (N.eqb 10) s) < fuel).
    { pose proof (take_drop_while_length (N.eqb 10) s) as H.
      unfold lead in E3. lia. }
    destruct (IH (Some 10%N) _ Hshort) as (Hn & _ & Hl).
    rewrite lead_drop_while in Hl.
    set (o := replace_all re_newlines fuel (Some 10%N) (drop_while (N.eqb 10) s)) in *.
    rewrite !no_triple_newline_cons, !lead_cons_newline, Hn.
    assert (lead o = 0) as -> by lia. split; [reflexivity | lia].
  - apply Nat.leb_gt in E3. destruct s as [|c t]; [cbn; repeat split; lia|].
    cbn [length] in Hlen.
    destruct (IH (Some c) t ltac:(lia)) as (Hn & H2 & Hl).
    set (o := replace_all re_newlines fuel (Some c) t) in *.
    rewrite no_triple_newline_cons, Hn, andb_true_r.
    destruct (N.eqb_spec 10 c) as [<-|Hne].
    + rewrite !lead_cons_newline in *.
      assert (Hlt : (3 <=? S (lead o)) = false) by (apply Nat.leb_gt; lia).
      rewrite Hlt. split; [reflexivity | lia].
    + apply N.eqb_neq in Hne. rewrite !(lead_cons_other _ _ Hne).
      split; [reflexivity | lia].
Qed.

Lemma lead_app_le (a b : jsstring) : lead a <= lead (a ++ b).
Proof.
  unfold lead. induction a as [|c t IH]; cbn [take_while app length]; [lia|].
  destruct (10 =? c)%N; cbn [length]; lia.
Qed.

Lemma no_triple_newline_prefix (a b : jsstring) :
  no_triple_newline (a ++ b) = true -> no_triple_newline a = true.
Proof.
  induction a as [|c t IH]; [reflexivity|].
  change ((c :: t) ++ b) with (c :: (t ++ b)).
  rewrite !no_triple_newline_cons. intros [H1 H2]%andb_prop.
  rewrite (IH H2), andb_true_r.
  apply negb_true_iff, Nat.leb_gt in H1. apply negb_true_iff, Nat.leb_gt.
  pose proof (lead_app_le (c :: t) b). simpl app in *. lia.
Qed.

Lemma no_triple_newline_drop_while (p : N -> bool) (s : jsstring) :
  no_triple_newline s = true -> no_triple_newline (drop_while p s) = true.
Proof.
  induction s as [|c t IH]; [reflexivity|]. intros H.
  cbn [drop_while]. destruct (p c); [|exact H].
  apply IH. rewrite no_triple_newline_cons in H. now apply andb_prop in H.
Qed.

Lemma no_triple_newline_trim (s : jsstring) :
  no_triple_newline s = true -> no_triple_newline (trim s) = true.
Proof.
  intros H. unfold trim.
  destruct (trimEnd_prefix (trimStart s)) as [w Hw].
  apply no_triple_newline_prefix with (b := w). rewrite <- Hw.
  now apply no_triple_newline_drop_while.
Qed.

(** The text the clean-up returns has no run of three newlines and is
    trimmed. *)
Lemma cleanText_no_triple_newline (text : jsstring) :
  no_triple_newline (cleanText text) = true.
Proof.
  unfold cleanText. apply no_triple_newline_trim. unfold replace_g.
  apply collapse_spec. lia.
Qed.

Lemma cleanText_trimmed (text : jsstring) : trim (cleanText text) = cleanText text.
Proof. unfold cleanText. apply trim_idem. Qed.

(** *** The scan always has enough steps *)

(** With enough steps for the length of the input, the result of the scan
    does not depend on the number of steps. *)
Lemma replace_all_fuel (m : matcher) :
  shrinking m ->
  forall f1 f2 prev s,
    length s < f1 -> length s < f2 -> replace_all m f1 prev s = replace_all m f2 prev s.
Proof.
  intros Hm. induction f1 as [|f1 IH]; intros f2 prev s H1 H2; [lia|].
  destruct f2 as [|f2]; [lia|]. cbn [replace_all].
  destruct (m prev s) as [[[out last] rest]|] eqn:E.
  - f_equal. pose proof (Hm _ _ _ _ _ E). apply IH; lia.
  - destruct s as [|c t]; [reflexivity|]. cbn [length] in *. f_equal. apply IH; lia.
Qed.

Lemma drop_while_length (p : N -> bool) (s : jsstring) :
  length (drop_while p s) <= length s.
Proof. pose proof (take_drop_while_length p s). lia. Qed.

Lemma lazy_until_length (close s g r : jsstring) :
  lazy_until close s = Some (g, r) -> length r <= length s.
Proof.
  revert g r. induction s as [|c t IH]; intros g r; cbn [lazy_until].
  - destruct (startsWith [] close); [|discriminate].
    intros H. inversion H; subst. rewrite length_skipn. lia.
  - destruct (startsWith (c :: t) close).
    + intros H. inversion H; subst. rewrite length_skipn. lia.
    + destruct (is_line_terminator c); [discriminate|].
      destruct (lazy_until close t) as [[g' r']|] eqn:E; [|discriminate].
      intros H. inversion H; subst. pose proof (IH _ _ eq_refl). cbn [length]. lia.
Qed.

Lemma re_wrapped_shrinking (d : N) (ds : jsstring) : shrinking (re_wrapped (d :: ds)).
Proof.
  intros prev s out last rest. unfold re_wrapped.
  destruct s as [|c t]; [discriminate|].
  destruct (startsWith (c :: t) (d :: ds)); [|discriminate].
  destruct (lazy_until (d :: ds) (skipn (length (d :: ds)) (c :: t))) as [[g r]|] eqn:E;
    [|discriminate].
  intros H. inversion H; subst. apply lazy_until_length in E.
  rewrite length_skipn in E. cbn [length] in *. lia.
Qed.

Lemma re_heading_shrinking : shrinking re_heading.
Proof.
  intros prev s out last rest. unfold re_heading.
  destruct (at_line_start prev); [|discriminate].
  destruct (take_while (N.eqb 35) s) as [|h hs] eqn:Eh; [discriminate|].
  destruct (take_while is_space (drop_while (N.eqb 35) s)) as [|w ws]; [discriminate|].
  intros H. inversion H; subst.
  pose proof (take_drop_while_length (N.eqb 35) s) as H1. rewrite Eh in H1.
  pose proof (drop_while_length is_space (drop_while (N.eqb 35) s)).
  cbn [length] in H1. lia.
Qed.

Lemma re_link_shrinking : shrinking re_link.
Proof.
  intros prev s out last rest. unfold re_link.
  destruct s as [|c t]; [discriminate|].
  destruct (N.eqb_spec c 91) as [->|Hc].
  2:{ destruct c as [|p]; [discriminate|].
      repeat (destruct p as [p|p|]; try discriminate). now elim Hc. }
  destruct (take_while (not_unit 93) t) as [|x xs]; [discriminate|].
  pose proof (drop_while_length (not_unit 93) t) as H1.
  destruct (drop_while (not_unit 93) t) as [|c1 [|c2 r2]]; try discriminate.
  { destruct c1 as [|p]; [discriminate|].
    repeat (destruct p as [p|p|]; try discriminate). }
  destruct (N.eqb_spec c1 93) as [->|Hc1].
  2:{ destruct c1 as [|p]; [discriminate|].
      repeat (destruct p as [p|p|]; try discriminate). now elim Hc1. }
  destruct (N.eqb_spec c2 40) as [->|Hc2].
  2:{ destruct c2 as [|p]; [discriminate|].
      repeat (destruct p as [p|p|]; try discriminate). now elim Hc2. }
  destruct (take_while (not_unit 41) r2) as [|y ys]; [discriminate|].
  pose proof (drop_while_length (not_unit 41) r2) as H2.
  destruct (drop_while (not_unit 41) r2) as [|c3 r4]; [discriminate|].
  destruct (N.eqb_spec c3 41) as [->|Hc3].
  2:{ destruct c3 as [|p]; [discriminate|].
      repeat (destruct p as [p|p|]; try discriminate). now elim Hc3. }
  intros H. inversion H; subst. cbn [length] in *. lia.
Qed.

Lemma re_list_shrinking : shrinking re_list.
Proof.
  intros prev s out last rest. unfold re_list.
  destruct (at_line_start prev); [|discriminate].
  destruct s as [|c t]; [discriminate|].
  destruct ((c =? 45)%N || (c =? 42)%N || (c =? 43)%N); [|discriminate].
  destruct (take_while is_space t) as [|w ws]; [discriminate|].
  intros H. inversion H; subst.
  pose proof (drop_while_length is_space t). cbn [length]. lia.
Qed.

Lemma re_newlines_shrinking : shrinking re_newlines.
Proof.
  intros prev s out last rest. unfold re_newlines.
  destruct (3 <=? length (take_while (N.eqb 10) s)) eqn:E; [|discriminate].
  apply Nat.leb_le in E. intros H. inversion H; subst.
  pose proof (take_drop_while_length (N.eqb 10) s). lia.
Qed.

Lemma re_crlf_shrinking : shrinking re_crlf.
Proof.
  intros prev s out last rest. unfold re_crlf.
  destruct s as [|c1 [|c2 r]]; try discriminate.
  { destruct c1 as [|p]; [discriminate|].
    repeat (destruct p as [p|p|]; try discriminate). }
  destruct (N.eqb_spec c1 13) as [->|Hc1].
  2:{ destruct c1 as [|p]; [discriminate|].
      repeat (destruct p as [p|p|]; try discriminate). now elim Hc1. }
  destruct (N.eqb_spec c2 10) as [->|Hc2].
  2:{ destruct c2 as [|p]; [discriminate|].
      repeat (destruct p as [p|p|]; try discriminate). now elim Hc2. }
  intros H. inversion H; subst. cbn [length]. lia.
Qed.

Lemma re_combining_shrinking : shrinking re_combining.
Proof.
  intros prev s out last rest. unfold re_combining.
  destruct s as [|c r]; [discriminate|].
  destruct ((768 <=? c)%N && (c <=? 879)%N); [|discriminate].
  intros H. inversion H; subst. cbn [length]. lia.
Qed.

(** For a shrinking matcher [replace_g] is the scan with any larger
    number of steps. *)
Lemma replace_g_fuel (m : matcher) (s : jsstring) (fuel : nat) :
  shrinking m -> length s < fuel -> replace_g m s = replace_all m fuel None s.
Proof. intros Hm Hf. unfold replace_g. apply replace_all_fuel; [exact Hm | lia | exact Hf]. Qed.

(** *** The placeholder of the rewrite instruction *)

Lemma replace_first_absent (s pat rep : jsstring) :
  includes s pat = false -> replace_first s pat rep = s.
Proof.
  induction s as [|c t IH]; cbn [includes replace_first].
  - intros H. apply orb_false_elim in H as [H _]. now rewrite H.
  - intros H. apply orb_false_elim in H as [H1 H2]. rewrite H1. now rewrite (IH H2).
Qed.

(** Neither variant of [CONTENT_SYSTEM] has the placeholder that
    [convertToPromptChatGPT] replaces, so the system message of every
    rewrite request is [CONTENT_SYSTEM] itself. *)
Lemma CONTENT_SYSTEM_has_no_placeholder :
  includes Perplexity.CONTENT_SYSTEM (js "{user_question}") = false /\
  includes Tavily.CONTENT_SYSTEM (js "{user_question}") = false.
Proof. split; vm_compute; reflexivity. Qed.

Lemma rewrite_request_system (contentText : jsstring) :
  oa_system (rewrite_request Perplexity.CONTENT_SYSTEM contentText)
  = Perplexity.CONTENT_SYSTEM /\
  oa_system (rewrite_request Tavily.CONTENT_SYSTEM contentText) = Tavily.CONTENT_SYSTEM.
Proof.
  unfold rewrite_request. cbn [oa_system].
  destruct CONTENT_SYSTEM_has_no_placeholder as [H1 H2].
  split; now apply replace_first_absent.
Qed.

(** *** The search adapter deduplicates *)

Lemma mem_true_iff (x : jsstring) (l : list jsstring) : mem x l = true <-> In x l.
Proof.
  unfold mem. rewrite existsb_exists. split.
  - intros (y & Hy & E). apply JS_eqb_eq in E. now subst.
  - intros H. exists x. split; [exact H | apply JS_eqb_refl].
Qed.

Lemma collect_keys (cs : list Citation) : forall index seen,
  NoDup (map Perplexity.entry_key (Perplexity.collect index seen cs)) /\
  forall e, In e (Perplexity.collect index seen cs) -> ~ In (Perplexity.entry_key e) seen.
Proof.
  induction cs as [|c cs IH]; intros index seen; cbn [Perplexity.collect map].
  - split; [constructor | contradiction].
  - destruct (Perplexity.entry_of index c) as [entry|]; [|apply IH].
    destruct (mem (Perplexity.entry_key entry) seen) eqn:E; [apply IH|].
    destruct (IH (S index) (Perplexity.entry_key entry :: seen)) as [Hnd Hnot].
    split.
    + cbn [map]. constructor; [|exact Hnd].
      intros Hin. apply in_map_iff in Hin as (e & He & Hine).
      apply (Hnot e Hine). left. now symmetry.
    + intros e [<-|Hin].
      * intros Hs. apply mem_true_iff in Hs. congruence.
      * intros Hs. apply (Hnot e Hin). now right.
Qed.

(** The results of a successful search have pairwise different keys (url
    and title). *)
Lemma search_results_deduplicated (env : Env) (W : World) log q answer results :
  Perplexity.search_outcome env W log q = SearchDone answer results ->
  NoDup (map Perplexity.entry_key results).
Proof.
  unfold Perplexity.search_outcome.
  destruct (Perplexity.getPerplexityConfig env) as [[k|] mdl]; [|discriminate].
  destruct (perplexity_chat W log mdl q) as [msg|st stt raw pe pm|summary cands];
    cbn [Perplexity.search_return]; try discriminate.
  intros H. inversion H; subst. apply collect_keys.
Qed.

(* ===================================================================== *)
(** ** C4: the clean-up chain applied twice *)
(* ===================================================================== *)

(** C4, as stated, fails: the clean-up is not idempotent.  On the text
    [- - a] the list-marker expression removes the first marker only
    (the second one is not at a line start during that scan), so one pass
    gives [- a] and a second pass gives [a]. *)
Lemma C4_cleanText_not_idempotent :
  cleanText (js "- - a") = js "- a" /\
  cleanText (cleanText (js "- - a")) = js "a" /\
  cleanText (cleanText (js "- - a")) <> cleanText (js "- - a").
Proof. vm_compute. repeat split. discriminate. Qed.

(** C4 (amended): cleaning twice equals cleaning once for every text whose
    cleaned form has no residual markup, that is, no star, backtick or
    opening bracket, and no line that starts with a heading or list
    marker.  On such a text every expression of the chain finds nothing,
    the newline runs are already collapsed and the text is trimmed. *)
Theorem C4_cleanText_idempotent_on_clean_output (text : jsstring) :
  markup_free (cleanText text) = true ->
  cleanText (cleanText text) = cleanText text.
Proof.
  intros Hfree. unfold markup_free in Hfree.
  apply andb_prop in Hfree as [Hinline Hline].
  set (u := cleanText text) in *.
  unfold cleanText at 1. unfold re_bold, re_italic, re_code.
  rewrite (replace_wrapped_id 42 [42%N] u eq_refl Hinline).
  rewrite (replace_wrapped_id 42 [] u eq_refl Hinline).
  rewrite (replace_wrapped_id 96 [] u eq_refl Hinline).
  rewrite (replace_heading_id u Hline).
  rewrite (replace_link_id u Hinline).
  rewrite (replace_list_id u Hinline Hline).
  rewrite (replace_newlines_id u (cleanText_no_triple_newline text)).
  apply cleanText_trimmed.
Qed.

(** The amended C4 at a text with bold, a link, a list and a long run of
    newlines. *)
Lemma C4_witness :
  markup_free (cleanText marked_up_text) = true /\
  cleanText marked_up_text = js "Xin chao" ++ nl ++ nl ++ js "mot a" /\
  cleanText (cleanText marked_up_text) = cleanText marked_up_text.
Proof.
  split; [vm_compute; reflexivity|]. split; [vm_compute; reflexivity|].
  apply (C4_cleanText_idempotent_on_clean_output marked_up_text).
  vm_compute. reflexivity.
Defined.

(* ===================================================================== *)
(** ** Facts about the adapter-call log *)
(* ===================================================================== *)

Lemma stages_app (a b : list Event) : stages (a ++ b) = stages a ++ stages b.
Proof.
  induction a as [|e a IH]; [reflexivity|].
  cbn [app stages]. destruct (stage_of_event e); cbn [app]; now rewrite IH.
Qed.

Lemma stages_uploads (fs : list File) : stages (map EvUpload fs) = [].
Proof. induction fs as [|f fs IH]; [reflexivity | exact IH]. Qed.

Lemma stages_rewrites (rs : list OpenAIRequest) :
  stages (map EvOpenAI rs) = repeat REWRITE (length rs).
Proof. induction rs as [|r rs IH]; [reflexivity|]. cbn. now rewrite IH. Qed.

(** Uploading never throws: each file that needs an upload is one call,
    whatever the Files API replies. *)
Lemma upload_each_log (W : World) (fs : list File) : forall log,
  exists ups, upload_each W fs log = (Ok ups, log ++ map EvUpload (filter needsUpload fs)).
Proof.
  induction fs as [|f fs IH]; intros log.
  - exists []. cbn. now rewrite app_nil_r.
  - cbn [upload_each filter]. destruct (needsUpload f).
    + unfold bind at 1. unfold call at 1. cbn beta iota.
      destruct (gemini_upload W log f) as [uri name mt|].
      * destruct (IH (log ++ [EvUpload f])) as [ups Hups].
        exists ({| originalFile := f; fileUri := uri; up_name := name;
                   up_mimeType := mt |} :: ups).
        unfold bind, ret. rewrite Hups. cbn [map]. now rewrite <- app_assoc.
      * destruct (IH (log ++ [EvUpload f])) as [ups Hups].
        exists ups. rewrite Hups. cbn [map]. now rewrite <- app_assoc.
    + apply IH.
Qed.

Lemma uploadFilesToGeminiSDK_log (env : Env) (W : World) (fs : list File) log :
  exists ups sent,
    uploadFilesToGeminiSDK env W fs log = (Ok ups, log ++ map EvUpload sent).
Proof.
  unfold uploadFilesToGeminiSDK. destruct (opt_truthy (GOOGLE_API_KEY env)); cbn [negb].
  - destruct (upload_each_log W fs log) as [ups H]. now exists ups, (filter needsUpload fs).
  - exists [], []. cbn. now rewrite app_nil_r.
Qed.

(** With a Google key the files sent to the Files API are the documents
    of the request. *)
Lemma filter_sent (env : Env) (W : World) (fs : list File) ups sent :
  opt_truthy (GOOGLE_API_KEY env) = true ->
  uploadFilesToGeminiSDK env W fs [] = (Ok ups, map EvUpload sent) ->
  sent = filter needsUpload fs.
Proof.
  intros Hkey H. unfold uploadFilesToGeminiSDK in H. rewrite Hkey in H. cbn [negb] in H.
  destruct (upload_each_log W fs []) as [ups' H']. rewrite H' in H. cbn [app] in H.
  injection H as _ Hm. revert Hm. generalize (filter needsUpload fs) as l. clear.
  induction sent as [|x sent IH]; intros [|y l] H; try discriminate; [reflexivity|].
  cbn [map] in H. inversion H; subst. f_equal. now apply IH.
Qed.

(** One call of [convertToPromptChatGPT]. *)
Lemma convertToPromptChatGPT_run (W : World) (cs contentText : jsstring) log :
  convertToPromptChatGPT W cs contentText log =
  (match openai_chat W log (rewrite_request cs contentText) with
   | OpenAIThrows msg => Throw msg
   | OpenAINotOk => Ok contentText
   | OpenAIOk c => Ok (opt_or c contentText)
   end,
   log ++ [EvOpenAI (rewrite_request cs contentText)]).
Proof.
  unfold convertToPromptChatGPT, bind, call. cbn beta iota zeta.
  now destruct (openai_chat W log (rewrite_request cs contentText)).
Qed.

Lemma opt_or_falsy (c : option jsstring) (d : jsstring) :
  opt_truthy c = false -> opt_or c d = d.
Proof.
  destruct c as [s|]; [|reflexivity]. cbn [opt_truthy opt_or]. unfold or_else.
  now intros ->.
Qed.

Lemma or_else_left (a b : jsstring) : truthy a = true -> or_else a b = a.
Proof. unfold or_else. now intros ->. Qed.

(** A reply that is not OK, or OK without content, leaves the text as it
    was. *)
Lemma convertToPromptChatGPT_degrades (W : World) (cs contentText : jsstring) log :
  rewrite_failed (openai_chat W log (rewrite_request cs contentText)) = true ->
  convertToPromptChatGPT W cs contentText log
  = (Ok contentText, log ++ [EvOpenAI (rewrite_request cs contentText)]).
Proof.
  intros Hf. rewrite convertToPromptChatGPT_run.
  destruct (openai_chat W log (rewrite_request cs contentText)) as [msg| |c];
    [discriminate Hf|reflexivity|].
  cbn [rewrite_failed] in Hf. apply negb_true_iff in Hf.
  now rewrite (opt_or_falsy c contentText Hf).
Qed.

(** When the loop of [processMessagesForGoogleSDK] returns, it has made
    one rewrite call per string-content message, in order, and recorded
    one prompt per such call. *)
Lemma process_each_ok (W : World) (cs : jsstring) (ms : list Message) :
  forall log contents prompts log',
    process_each W cs ms log = (Ok (contents, prompts), log') ->
    log' = log ++ map (fun s => EvOpenAI (rewrite_request cs s)) (string_contents ms) /\
    map p_user prompts = string_contents ms /\
    Forall (fun p => p_system p = cs) prompts.
Proof.
  induction ms as [|m ms IH]; intros log contents prompts log' H.
  - cbn in H. inversion H; subst. cbn. rewrite app_nil_r. auto.
  - cbn [process_each] in H. unfold string_contents. cbn [flat_map].
    fold (string_contents ms).
    destruct (msg_content m) as [s|ps].
    + unfold bind at 1 in H. unfold bind at 1 in H.
      rewrite convertToPromptChatGPT_run in H.
      destruct (openai_chat W log (rewrite_request cs s)) as [msg| |c];
        cbn beta iota in H; [discriminate| |].
      * unfold ret at 1 in H. cbn beta iota in H. unfold bind at 1 in H.
        destruct (process_each W cs ms (log ++ [EvOpenAI (rewrite_request cs s)]))
          as [[[cts ps]|msg] l1] eqn:E; [|discriminate].
        unfold ret in H. inversion H; subst.
        destruct (IH _ _ _ _ E) as (-> & Hu & Hs).
        cbn [app map]. rewrite Hu, <- app_assoc. repeat split; auto.
      * unfold ret at 1 in H. cbn beta iota in H. unfold bind at 1 in H.
        destruct (process_each W cs ms (log ++ [EvOpenAI (rewrite_request cs s)]))
          as [[[cts ps]|msg] l1] eqn:E; [|discriminate].
        unfold ret in H. inversion H; subst.
        destruct (IH _ _ _ _ E) as (-> & Hu & Hs).
        cbn [app map]. rewrite Hu, <- app_assoc. repeat split; auto.
    + unfold bind at 1 in H. unfold ret at 1 in H. cbn beta iota in H.
      unfold bind at 1 in H.
      destruct (process_each W cs ms log) as [[[cts ps']|msg] l1] eqn:E; [|discriminate].
      unfold ret in H. inversion H; subst.
      destruct (IH _ _ _ _ E) as (-> & Hu & Hs). cbn [app]. auto.
Qed.

(** As long as no rewrite call throws, the loop returns. *)
Lemma process_each_returns (W : World) (cs : jsstring) (ms : list Message) :
  openai_never_throws W ->
  forall log, exists cts ps l, process_each W cs ms log = (Ok (cts, ps), l).
Proof.
  intros Hnt. induction ms as [|m ms IH]; intros log.
  - now exists [], [], log.
  - cbn [process_each]. destruct (msg_content m) as [s|parts].
    + unfold bind at 1. unfold bind at 1. rewrite convertToPromptChatGPT_run.
      destruct (openai_chat W log (rewrite_request cs s)) as [msg| |c] eqn:E;
        [now elim (Hnt _ _ _ E)| |];
        unfold ret at 1; cbn beta iota; unfold bind at 1;
        destruct (IH (log ++ [EvOpenAI (rewrite_request cs s)])) as (cts & ps & l & H);
        rewrite H; unfold ret; eexists _, _, _; reflexivity.
    + unfold bind at 1. unfold ret at 1. cbn beta iota. unfold bind at 1.
      destruct (IH log) as (cts & ps & l & H). rewrite H. unfold ret.
      eexists _, _, _. reflexivity.
Qed.

(** The loop of [processMessagesForGoogleSDK] over a conversation in two
    pieces: the second piece is processed after the calls of the first. *)
Lemma process_each_app (W : World) (cs : jsstring) (ms1 ms2 : list Message) :
  forall log c1 p1 l1,
    process_each W cs ms1 log = (Ok (c1, p1), l1) ->
    process_each W cs (ms1 ++ ms2) log =
    match process_each W cs ms2 l1 with
    | (Ok (c2, p2), l2) => (Ok (c1 ++ c2, p1 ++ p2), l2)
    | (Throw msg, l2) => (Throw msg, l2)
    end.
Proof.
  induction ms1 as [|m ms1 IH]; intros log c1 p1 l1 H.
  - cbn in H. inversion H; subst. cbn [app].
    now destruct (process_each W cs ms2 l1) as [[[c2 p2]|msg] l2].
  - cbn [app process_each] in H |- *.
    destruct (msg_content m) as [s|ps].
    + unfold bind at 1 in H. unfold bind at 1 in H.
      unfold bind at 1. unfold bind at 1.
      rewrite convertToPromptChatGPT_run in H |- *.
      destruct (openai_chat W log (rewrite_request cs s)) as [msg| |c];
        cbn beta iota in H |- *; [discriminate| |];
        unfold ret at 1 in H; cbn beta iota in H; unfold bind at 1 in H;
        unfold ret at 1; cbn beta iota; unfold bind at 1;
        (destruct (process_each W cs ms1 (log ++ [EvOpenAI (rewrite_request cs s)]))
           as [[[c1' p1']|msg] l1'] eqn:E; [|discriminate]);
        unfold ret in H; inversion H; subst;
        rewrite (IH _ _ _ _ E);
        destruct (process_each W cs ms2 l1) as [[[c2 p2]|msg] l2]; reflexivity.
    + unfold bind at 1 in H. unfold ret at 1 in H. cbn beta iota in H.
      unfold bind at 1 in H.
      unfold bind at 1. unfold ret at 1. cbn beta iota. unfold bind at 1.
      destruct (process_each W cs ms1 log) as [[[c1' p1']|msg] l1'] eqn:E; [|discriminate].
      unfold ret in H. inversion H; subst.
      rewrite (IH _ _ _ _ E).
      destruct (process_each W cs ms2 l1) as [[[c2 p2]|msg] l2]; [|reflexivity].
      unfold ret. now destruct (flat_map part_to_gemini ps).
Qed.

(** The loop of [processMessagesForGoogleSDK] stops at the first rewrite
    call that throws, whichever message it is for. *)
Lemma process_each_throws_at (W : World) (cs msg : jsstring) (ms : list Message) :
  forall log before s after,
    string_contents ms = before ++ s :: after ->
    (forall b1 x b2 m, before = b1 ++ x :: b2 ->
       openai_chat W (log ++ map (fun y => EvOpenAI (rewrite_request cs y)) b1)
                   (rewrite_request cs x) <> OpenAIThrows m) ->
    openai_chat W (log ++ map (fun y => EvOpenAI (rewrite_request cs y)) before)
                (rewrite_request cs s) = OpenAIThrows msg ->
    process_each W cs ms log
    = (Throw msg, log ++ map (fun y => EvOpenAI (rewrite_request cs y)) (before ++ [s])).
Proof.
  induction ms as [|m ms IH]; intros log before s after Hs Hpass Hthrow.
  { now destruct before. }
  cbn [process_each]. unfold string_contents in Hs. cbn [flat_map] in Hs.
  fold (string_contents ms) in Hs. destruct (msg_content m) as [s'|ps].
  - cbn [app] in Hs. unfold bind at 1. unfold bind at 1.
    rewrite convertToPromptChatGPT_run.
    destruct before as [|x before].
    + cbn [app] in Hs. inversion Hs; subst. cbn [map app] in Hthrow |- *.
      rewrite app_nil_r in Hthrow. now rewrite Hthrow.
    + cbn [app] in Hs. inversion Hs; subst.
      pose proof (fun m => Hpass [] x before m eq_refl) as H0. cbn [map] in H0.
      rewrite app_nil_r in H0.
      assert (Hrest : process_each W cs ms (log ++ [EvOpenAI (rewrite_request cs x)])
                      = (Throw msg,
                         (log ++ [EvOpenAI (rewrite_request cs x)])
                         ++ map (fun y => EvOpenAI (rewrite_request cs y)) (before ++ [s]))).
      { apply (IH _ before s after H1).
        - intros b1 y b2 m' E. rewrite <- app_assoc.
          apply (Hpass (x :: b1) y b2 m'). now rewrite E.
        - rewrite <- app_assoc. exact Hthrow. }
      rewrite <- app_assoc in Hrest. cbn [app map] in Hrest |- *.
      destruct (openai_chat W log (rewrite_request cs x)) as [m'| |c];
        [now elim (H0 m')| |];
        unfold ret at 1; cbn beta iota; unfold bind at 1; now rewrite Hrest.
  - cbn [app] in Hs. unfold bind at 1. unfold ret at 1. cbn beta iota.
    unfold bind at 1. now rewrite (IH log before s after Hs Hpass Hthrow).
Qed.

(** *** Running the monad *)

Lemma bind_ok {A B : Type} (c : M A) (k : A -> M B) log a l :
  c log = (Ok a, l) -> bind c k log = k a l.
Proof. unfold bind. now intros ->. Qed.

Lemma bind_throw {A B : Type} (c : M A) (k : A -> M B) log msg l :
  c log = (Throw msg, l) -> bind c k log = (Throw msg, l).
Proof. unfold bind. now intros ->. Qed.

Lemma try_catch_ok {A : Type} (c : M A) (h : jsstring -> M A) log a l :
  c log = (Ok a, l) -> try_catch c h log = (Ok a, l).
Proof. unfold try_catch. now intros ->. Qed.

Lemma try_catch_throw {A : Type} (c : M A) (h : jsstring -> M A) log msg l :
  c log = (Throw msg, l) -> try_catch c h log = h msg l.
Proof. unfold try_catch. now intros ->. Qed.

(** A [try] whose [catch] clause returns a response always returns one. *)
Lemma try_catch_returns {A : Type} (c : M A) (f : jsstring -> A) log :
  exists a l, try_catch c (fun msg => ret (f msg)) log = (Ok a, l).
Proof.
  unfold try_catch. destruct (c log) as [[a|msg] l]; [now exists a, l|].
  now exists (f msg), l.
Qed.

Lemma generateContent_run (W : World) (req : GeminiRequest) log :
  generateContent W req log =
  (match gemini_generate W log req with
   | GeminiText t => Ok t
   | GeminiThrows msg => Throw msg
   end, log ++ [EvGemini req]).
Proof.
  unfold generateContent, bind, call. cbn beta iota.
  now destruct (gemini_generate W log req).
Qed.

Lemma processMessagesForGoogleSDK_ok (W : World) cs ms fs ups log cts ps l :
  process_each W cs ms log = (Ok (cts, ps), l) ->
  processMessagesForGoogleSDK W cs ms fs ups log =
  (Ok (push_to_last_user (flat_map inline_image fs)
         (push_to_last_user (map file_data_part ups) cts), ps), l).
Proof. intros H. unfold processMessagesForGoogleSDK. now rewrite (bind_ok _ _ _ _ _ H). Qed.

Lemma processMessagesForGoogleSDK_throw (W : World) cs ms fs ups log msg l :
  process_each W cs ms log = (Throw msg, l) ->
  processMessagesForGoogleSDK W cs ms fs ups log = (Throw msg, l).
Proof. intros H. unfold processMessagesForGoogleSDK. now rewrite (bind_throw _ _ _ _ _ H). Qed.

Module PerplexityFacts.
Import Perplexity.

Section Runs.
Variable pf : Platform.
Variable env : Env.
Variable W : World.

Lemma searchWithPerplexityStyle_run (query : jsstring) log :
  searchWithPerplexityStyle env W query log =
  (Ok (search_outcome env W log query), log ++ [EvSearch query]).
Proof.
  unfold searchWithPerplexityStyle, search_outcome.
  destruct (getPerplexityConfig env) as [[k|] m]; reflexivity.
Qed.

(** A blank question is rejected before any adapter is called. *)
Lemma handleChatGPTToGemini_blank ms model stream fs m :
  google_configured env = true -> openai_configured env = true ->
  last_opt ms = Some m -> truthy (trim (userQuestion_of m)) = false ->
  run (handleChatGPTToGemini pf env W ms model stream fs) = (Ok no_question, []).
Proof.
  intros Hg Ho Hm Hq. unfold run, handleChatGPTToGemini. rewrite Hg, Ho. cbn [negb].
  apply try_catch_ok. unfold lastMessage_of. rewrite Hm.
  unfold bind, ret. now rewrite Hq.
Qed.

Lemma handleChatGPTToGemini_run ms model stream fs m :
  google_configured env = true -> openai_configured env = true ->
  last_opt ms = Some m -> truthy (trim (userQuestion_of m)) = true ->
  run (handleChatGPTToGemini pf env W ms model stream fs) =
  let q := userQuestion_of m in
  let req := rewrite_request CONTENT_SYSTEM q in
  let continue optimizedPrompt :=
    let enhanced := chatgpt_enhancedPrompt (conversationContext_of pf ms) q optimizedPrompt in
    let greq := workflow_request pf model ms enhanced in
    (match gemini_generate W [EvOpenAI req] greq with
     | GeminiText t => Ok (chatgpt_success q optimizedPrompt enhanced t)
     | GeminiThrows msg =>
         Ok (workflow_error (js "Failed to process ChatGPT-to-Gemini workflow") msg)
     end, [EvOpenAI req; EvGemini greq]) in
  match openai_chat W [] req with
  | OpenAIThrows msg =>
      (Ok (workflow_error (js "Failed to process ChatGPT-to-Gemini workflow") msg),
       [EvOpenAI req])
  | OpenAINotOk => continue q
  | OpenAIOk c => continue (opt_or c q)
  end.
Proof.
  intros Hg Ho Hm Hq. unfold run, handleChatGPTToGemini. rewrite Hg, Ho. cbn [negb].
  unfold try_catch, lastMessage_of. rewrite Hm. unfold bind at 1. unfold ret at 1.
  cbn beta iota. rewrite Hq. cbn [negb]. unfold bind at 1.
  rewrite convertToPromptChatGPT_run. cbn zeta.
  destruct (openai_chat W [] (rewrite_request CONTENT_SYSTEM (userQuestion_of m)));
    cbn beta iota; [reflexivity| |];
    unfold bind; rewrite generateContent_run; cbn [app];
    match goal with |- context [gemini_generate W ?l ?r] =>
      destruct (gemini_generate W l r) end; reflexivity.
Qed.

Lemma handlePerplexityToGemini_blank ms model stream fs m :
  google_configured env = true ->
  last_opt ms = Some m -> truthy (trim (userQuestion_of m)) = false ->
  run (handlePerplexityToGemini pf env W ms model stream fs) = (Ok no_question, []).
Proof.
  intros Hg Hm Hq. unfold run, handlePerplexityToGemini. rewrite Hg. cbn [negb].
  apply try_catch_ok. unfold lastMessage_of. rewrite Hm.
  unfold bind, ret. now rewrite Hq.
Qed.

Lemma handlePerplexityToGemini_run ms model stream fs m :
  google_configured env = true ->
  last_opt ms = Some m -> truthy (trim (userQuestion_of m)) = true ->
  run (handlePerplexityToGemini pf env W ms model stream fs) =
  let q := userQuestion_of m in
  match search_outcome env W [] q with
  | SearchFailed _ message => (Ok (search_error_response message), [EvSearch q])
  | SearchDone answer results =>
      let prompt :=
        perplexity_prompt pf (conversationContext_of pf ms) (trim answer) q results in
      let greq := workflow_request pf model ms prompt in
      (match gemini_generate W [EvSearch q] greq with
       | GeminiText t => Ok (perplexity_success pf q answer results prompt t)
       | GeminiThrows msg =>
           Ok (workflow_error (js "Failed to process Perplexity-to-Gemini workflow") msg)
       end, [EvSearch q; EvGemini greq])
  end.
Proof.
  intros Hg Hm Hq. unfold run, handlePerplexityToGemini. rewrite Hg. cbn [negb].
  unfold try_catch, lastMessage_of. rewrite Hm. unfold bind at 1. unfold ret at 1.
  cbn beta iota. rewrite Hq. cbn [negb]. unfold bind at 1.
  rewrite searchWithPerplexityStyle_run. cbn zeta. cbn [app].
  destruct (search_outcome env W [] (userQuestion_of m)); [reflexivity|].
  unfold bind; rewrite generateContent_run; cbn [app];
    match goal with |- context [gemini_generate W ?l ?r] =>
      destruct (gemini_generate W l r) end; reflexivity.
Qed.

Lemma handlePerplexityChatGPTToGemini_blank ms model stream fs m :
  google_configured env = true -> openai_configured env = true ->
  last_opt ms = Some m -> truthy (trim (userQuestion_of m)) = false ->
  run (handlePerplexityChatGPTToGemini pf env W ms model stream fs) = (Ok no_question, []).
Proof.
  intros Hg Ho Hm Hq. unfold run, handlePerplexityChatGPTToGemini. rewrite Hg, Ho.
  cbn [negb orb]. apply try_catch_ok. unfold lastMessage_of. rewrite Hm.
  unfold bind, ret. now rewrite Hq.
Qed.

Lemma handlePerplexityChatGPTToGemini_run ms model stream fs m :
  google_configured env = true -> openai_configured env = true ->
  last_opt ms = Some m -> truthy (trim (userQuestion_of m)) = true ->
  run (handlePerplexityChatGPTToGemini pf env W ms model stream fs) =
  let q := userQuestion_of m in
  let failed := workflow_error (js "Failed to process Perplexity-ChatGPT-Gemini workflow") in
  match search_outcome env W [] q with
  | SearchFailed _ message => (Ok (search_error_response message), [EvSearch q])
  | SearchDone answer results =>
      let req := refinement_request (searchContext_of pf (trim answer) results) q in
      let continue refinedPrompt :=
        let greq := refined_request model refinedPrompt in
        (match gemini_generate W [EvSearch q; EvOpenAI req] greq with
         | GeminiText t => Ok (refined_success pf q answer results refinedPrompt t)
         | GeminiThrows msg => Ok (failed msg)
         end, [EvSearch q; EvOpenAI req; EvGemini greq]) in
      match openai_chat W [EvSearch q] req with
      | OpenAIThrows msg => (Ok (failed msg), [EvSearch q; EvOpenAI req])
      | OpenAINotOk =>
          (Ok (failed (js "Failed to get response from ChatGPT")),
           [EvSearch q; EvOpenAI req])
      | OpenAIOk c => continue (opt_or c q)
      end
  end.
Proof.
  intros Hg Ho Hm Hq. unfold run, handlePerplexityChatGPTToGemini. rewrite Hg, Ho.
  cbn [negb orb].
  unfold try_catch, lastMessage_of. rewrite Hm. unfold bind at 1. unfold ret at 1.
  cbn beta iota. rewrite Hq. cbn [negb]. unfold bind at 1.
  rewrite searchWithPerplexityStyle_run. cbn zeta. cbn [app].
  destruct (search_outcome env W [] (userQuestion_of m)); [reflexivity|].
  unfold bind at 1. unfold call at 1. cbn beta iota. cbn [app].
  match goal with |- context [openai_chat W ?l ?r] =>
    destruct (openai_chat W l r) end; [reflexivity|reflexivity|].
  unfold bind at 1. unfold ret at 1. cbn beta iota.
  unfold bind; rewrite generateContent_run; cbn [app];
    match goal with |- context [gemini_generate W ?l ?r] =>
      destruct (gemini_generate W l r) end; reflexivity.
Qed.

End Runs.
End PerplexityFacts.

Module PerplexityRoute.
Import Perplexity.

Section Runs.
Variable pf : Platform.
Variable env : Env.
Variable W : World.

Lemma google_error_status (message : jsstring) : status (google_error message) <> 200.
Proof.
  unfold google_error.
  destruct (includes message (js "API key")); [cbn; discriminate|].
  destruct (includes message (js "quota") || includes message (js "limit"));
    cbn; discriminate.
Qed.

Lemma handleGoogle_run ms model stream fs :
  google_configured env = true ->
  exists ups sent,
    uploadFilesToGeminiSDK env W fs [] = (Ok ups, map EvUpload sent) /\
    run (handleGoogle pf env W ms model stream fs) =
    match process_each W CONTENT_SYSTEM ms (map EvUpload sent) with
    | (Throw msg, l) => (Ok (google_error msg), l)
    | (Ok (cts, ps), l) =>
        let greq :=
          google_request model
            (push_to_last_user (flat_map inline_image fs)
               (push_to_last_user (map file_data_part ups) cts)) in
        (match gemini_generate W l greq with
         | GeminiText t => Ok (google_success (google_finalText pf t ups) ps)
         | GeminiThrows msg => Ok (google_error msg)
         end, l ++ [EvGemini greq])
    end.
Proof.
  intros Hg. destruct (uploadFilesToGeminiSDK_log env W fs []) as (ups & sent & Hup).
  cbn [app] in Hup. exists ups, sent. split; [exact Hup|].
  unfold run, handleGoogle. rewrite Hg. cbn [negb]. unfold try_catch.
  rewrite (bind_ok _ _ _ _ _ Hup).
  destruct (process_each W CONTENT_SYSTEM ms (map EvUpload sent))
    as [[[cts ps]|msg] l] eqn:E.
  - rewrite (bind_ok _ _ _ _ _ (processMessagesForGoogleSDK_ok W _ ms fs ups _ _ _ _ E)).
    cbn zeta. unfold bind. rewrite generateContent_run.
    match goal with |- context [gemini_generate W ?l ?r] =>
      destruct (gemini_generate W l r) end; reflexivity.
  - now rewrite (bind_throw _ _ _ _ _ (processMessagesForGoogleSDK_throw W _ ms fs ups _ _ _ E)).
Qed.

(** Every handler returns a response. *)
Lemma handleGoogle_returns ms model stream fs log :
  exists r l, handleGoogle pf env W ms model stream fs log = (Ok r, l).
Proof.
  unfold handleGoogle. destruct (google_configured env); cbn [negb].
  - apply try_catch_returns.
  - eexists _, _. reflexivity.
Qed.

Lemma handleChatGPTToGemini_returns ms model stream fs log :
  exists r l, handleChatGPTToGemini pf env W ms model stream fs log = (Ok r, l).
Proof.
  unfold handleChatGPTToGemini.
  destruct (google_configured env); cbn [negb]; [|eexists _, _; reflexivity].
  destruct (openai_configured env); cbn [negb]; [|eexists _, _; reflexivity].
  apply (try_catch_returns _
           (workflow_error (js "Failed to process ChatGPT-to-Gemini workflow"))).
Qed.

Lemma handlePerplexityToGemini_returns ms model stream fs log :
  exists r l, handlePerplexityToGemini pf env W ms model stream fs log = (Ok r, l).
Proof.
  unfold handlePerplexityToGemini.
  destruct (google_configured env); cbn [negb]; [|eexists _, _; reflexivity].
  apply (try_catch_returns _
           (workflow_error (js "Failed to process Perplexity-to-Gemini workflow"))).
Qed.

Lemma handlePerplexityChatGPTToGemini_returns ms model stream fs log :
  exists r l, handlePerplexityChatGPTToGemini pf env W ms model stream fs log = (Ok r, l).
Proof.
  unfold handlePerplexityChatGPTToGemini.
  destruct (negb (google_configured env) || negb (openai_configured env));
    [eexists _, _; reflexivity|].
  apply (try_catch_returns _
           (workflow_error (js "Failed to process Perplexity-ChatGPT-Gemini workflow"))).
Qed.

Lemma POST_dispatch req actualModel :
  modelConfig (model req) = Some actualModel ->
  run (POST pf env W req) = run (dispatch pf env W req actualModel).
Proof.
  intros Hm. unfold run, POST, dispatch. rewrite Hm.
  destruct (eqb (workflow_of req) (js "chatgpt-to-gemini")).
  { destruct (handleChatGPTToGemini_returns (messages req) actualModel (stream req)
                (files req) []) as (r & l & H). rewrite H. now apply try_catch_ok. }
  destruct (eqb (workflow_of req) (js "perplexity-to-gemini")).
  { destruct (handlePerplexityToGemini_returns (messages req) actualModel (stream req)
                (files req) []) as (r & l & H). rewrite H. now apply try_catch_ok. }
  destruct (eqb (workflow_of req) (js "perplexity-chatgpt-gemini")).
  { destruct (handlePerplexityChatGPTToGemini_returns (messages req) actualModel
                (stream req) (files req) []) as (r & l & H).
    rewrite H. now apply try_catch_ok. }
  destruct (handleGoogle_returns (messages req) actualModel (stream req)
              (files req) []) as (r & l & H). rewrite H. now apply try_catch_ok.
Qed.

Lemma POST_unsupported req :
  modelConfig (model req) = None ->
  run (POST pf env W req) =
  (Ok (error_response 400 (js "Unsupported model: " ++ model req) None), []).
Proof. intros Hm. unfold run, POST. now rewrite Hm. Qed.

End Runs.
End PerplexityRoute.

Module TavilyRoute.
Import Tavily.

Section Runs.
Variable pf : Platform.
Variable env : Env.
Variable W : World.

Lemma searchWithTavily_run (query : jsstring) log :
  searchWithTavily env W query log =
  (Ok (search_outcome env W log query), log ++ [EvSearch query]).
Proof.
  unfold searchWithTavily, search_outcome.
  destruct (opt_truthy (TAVILY_API_KEY env)); reflexivity.
Qed.

Lemma handleTavilyToGemini_blank ms model stream fs m :
  google_configured env = true ->
  last_opt ms = Some m -> truthy (trim (userQuestion_of m)) = false ->
  run (handleTavilyToGemini pf env W ms model stream fs) = (Ok no_question, []).
Proof.
  intros Hg Hm Hq. unfold run, handleTavilyToGemini. rewrite Hg. cbn [negb].
  apply try_catch_ok. unfold lastMessage_of. rewrite Hm.
  unfold bind, ret. now rewrite Hq.
Qed.

Lemma handleTavilyToGemini_run ms model stream fs m :
  google_configured env = true ->
  last_opt ms = Some m -> truthy (trim (userQuestion_of m)) = true ->
  run (handleTavilyToGemini pf env W ms model stream fs) =
  let q := userQuestion_of m in
  let found := search_outcome env W [] q in
  let greq := workflow_request pf model ms (enhancedPrompt_of q found) in
  (match gemini_generate W [EvSearch q] greq with
   | GeminiText t => Ok (tavily_success q found t)
   | GeminiThrows msg =>
       Ok (workflow_error (js "Failed to process Tavily-to-Gemini workflow") msg)
   end, [EvSearch q; EvGemini greq]).
Proof.
  intros Hg Hm Hq. unfold run, handleTavilyToGemini. rewrite Hg. cbn [negb].
  unfold try_catch, lastMessage_of. rewrite Hm. unfold bind at 1. unfold ret at 1.
  cbn beta iota. rewrite Hq. cbn [negb]. unfold bind at 1.
  rewrite searchWithTavily_run. cbn zeta. cbn [app].
  unfold bind; rewrite generateContent_run; cbn [app];
    match goal with |- context [gemini_generate W ?l ?r] =>
      destruct (gemini_generate W l r) end; reflexivity.
Qed.

Lemma tavily_google_error_status (message : jsstring) : status (google_error message) <> 200.
Proof.
  unfold google_error.
  destruct (includes message (js "API key")); [cbn; discriminate|].
  destruct (includes message (js "quota") || includes message (js "limit"));
    cbn; discriminate.
Qed.

Lemma tavily_handleGoogle_run ms model stream fs :
  google_configured env = true ->
  exists ups sent,
    uploadFilesToGeminiSDK env W fs [] = (Ok ups, map EvUpload sent) /\
    run (handleGoogle env W ms model stream fs) =
    match process_each W CONTENT_SYSTEM ms (map EvUpload sent) with
    | (Throw msg, l) => (Ok (google_error msg), l)
    | (Ok (cts, ps), l) =>
        let greq :=
          google_request model
            (push_to_last_user (flat_map inline_image fs)
               (push_to_last_user (map file_data_part ups) cts)) in
        (match gemini_generate W l greq with
         | GeminiText t => Ok (google_success t ps)
         | GeminiThrows msg => Ok (google_error msg)
         end, l ++ [EvGemini greq])
    end.
Proof.
  intros Hg. destruct (uploadFilesToGeminiSDK_log env W fs []) as (ups & sent & Hup).
  cbn [app] in Hup. exists ups, sent. split; [exact Hup|].
  unfold run, handleGoogle. rewrite Hg. cbn [negb]. unfold try_catch.
  rewrite (bind_ok _ _ _ _ _ Hup).
  destruct (process_each W CONTENT_SYSTEM ms (map EvUpload sent))
    as [[[cts ps]|msg] l] eqn:E.
  - rewrite (bind_ok _ _ _ _ _ (processMessagesForGoogleSDK_ok W _ ms fs ups _ _ _ _ E)).
    cbn zeta. unfold bind. rewrite generateContent_run.
    match goal with |- context [gemini_generate W ?l ?r] =>
      destruct (gemini_generate W l r) end; reflexivity.
  - now rewrite (bind_throw _ _ _ _ _ (processMessagesForGoogleSDK_throw W _ ms fs ups _ _ _ E)).
Qed.

Lemma tavily_handleGoogle_returns ms model stream fs log :
  exists r l, handleGoogle env W ms model stream fs log = (Ok r, l).
Proof.
  unfold handleGoogle. destruct (google_configured env); cbn [negb].
  - apply try_catch_returns.
  - eexists _, _. reflexivity.
Qed.

Lemma handleTavilyToGemini_returns ms model stream fs log :
  exists r l, handleTavilyToGemini pf env W ms model stream fs log = (Ok r, l).
Proof.
  unfold handleTavilyToGemini.
  destruct (google_configured env); cbn [negb]; [|eexists _, _; reflexivity].
  apply (try_catch_returns _
           (workflow_error (js "Failed to process Tavily-to-Gemini workflow"))).
Qed.

Lemma tavily_POST_dispatch req actualModel :
  modelConfig (model req) = Some actualModel ->
  run (POST pf env W req) = run (dispatch pf env W req actualModel).
Proof.
  intros Hm. unfold run, POST, dispatch. rewrite Hm.
  destruct (eqb (workflow_of req) (js "tavily-to-gemini")).
  { destruct (handleTavilyToGemini_returns (messages req) actualModel (stream req)
                (files req) []) as (r & l & H). rewrite H. now apply try_catch_ok. }
  destruct (tavily_handleGoogle_returns (messages req) actualModel (stream req)
              (files req) []) as (r & l & H). rewrite H. now apply try_catch_ok.
Qed.

End Runs.
End TavilyRoute.

(* ===================================================================== *)
(** ** What a successful response implies *)
(* ===================================================================== *)

Section Success.
Variable pf : Platform.
Variable env : Env.
Variable W : World.

Lemma lastMessage_of_none (ms : list Message) log :
  last_opt ms = None -> lastMessage_of ms log = (Throw TypeError_reading_content, log).
Proof. unfold lastMessage_of. now intros ->. Qed.

Lemma eq_true_or_false (b : bool) : b = true \/ b = false.
Proof. destruct b; auto. Qed.

Lemma handleChatGPTToGemini_200 ms model stream fs :
  status_of (run (Perplexity.handleChatGPTToGemini pf env W ms model stream fs)) = Some 200 ->
  Perplexity.google_configured env = true /\ Perplexity.openai_configured env = true /\
  exists m, last_opt ms = Some m /\ truthy (trim (userQuestion_of m)) = true.
Proof.
  intros H.
  destruct (Perplexity.google_configured env) eqn:Hg.
  2:{ unfold run, Perplexity.handleChatGPTToGemini in H. rewrite Hg in H. discriminate. }
  destruct (Perplexity.openai_configured env) eqn:Ho.
  2:{ unfold run, Perplexity.handleChatGPTToGemini in H. rewrite Hg, Ho in H.
      discriminate. }
  destruct (last_opt ms) as [m|] eqn:Hm.
  2:{ unfold run, Perplexity.handleChatGPTToGemini in H. rewrite Hg, Ho in H.
      cbn [negb] in H.
      rewrite (try_catch_throw _ _ _ _ _
                 (bind_throw _ _ _ _ _ (lastMessage_of_none ms [] Hm))) in H.
      discriminate. }
  destruct (truthy (trim (userQuestion_of m))) eqn:Hq.
  2:{ rewrite (PerplexityFacts.handleChatGPTToGemini_blank pf env W ms model stream fs m
                 Hg Ho Hm Hq) in H. discriminate. }
  repeat split; auto. now exists m.
Qed.

Lemma handlePerplexityToGemini_200 ms model stream fs :
  status_of (run (Perplexity.handlePerplexityToGemini pf env W ms model stream fs))
  = Some 200 ->
  Perplexity.google_configured env = true /\
  exists m, last_opt ms = Some m /\ truthy (trim (userQuestion_of m)) = true.
Proof.
  intros H.
  destruct (Perplexity.google_configured env) eqn:Hg.
  2:{ unfold run, Perplexity.handlePerplexityToGemini in H. rewrite Hg in H.
      discriminate. }
  destruct (last_opt ms) as [m|] eqn:Hm.
  2:{ unfold run, Perplexity.handlePerplexityToGemini in H. rewrite Hg in H.
      cbn [negb] in H.
      rewrite (try_catch_throw _ _ _ _ _
                 (bind_throw _ _ _ _ _ (lastMessage_of_none ms [] Hm))) in H.
      discriminate. }
  destruct (truthy (trim (userQuestion_of m))) eqn:Hq.
  2:{ rewrite (PerplexityFacts.handlePerplexityToGemini_blank pf env W ms model stream fs m
                 Hg Hm Hq) in H. discriminate. }
  split; auto. now exists m.
Qed.

Lemma handlePerplexityChatGPTToGemini_200 ms model stream fs :
  status_of (run (Perplexity.handlePerplexityChatGPTToGemini pf env W ms model stream fs))
  = Some 200 ->
  Perplexity.google_configured env = true /\ Perplexity.openai_configured env = true /\
  exists m, last_opt ms = Some m /\ truthy (trim (userQuestion_of m)) = true.
Proof.
  intros H.
  destruct (Perplexity.google_configured env) eqn:Hg.
  2:{ unfold run, Perplexity.handlePerplexityChatGPTToGemini in H. rewrite Hg in H.
      discriminate. }
  destruct (Perplexity.openai_configured env) eqn:Ho.
  2:{ unfold run, Perplexity.handlePerplexityChatGPTToGemini in H. rewrite Hg, Ho in H.
      discriminate. }
  destruct (last_opt ms) as [m|] eqn:Hm.
  2:{ unfold run, Perplexity.handlePerplexityChatGPTToGemini in H. rewrite Hg, Ho in H.
      cbn [negb orb] in H.
      rewrite (try_catch_throw _ _ _ _ _
                 (bind_throw _ _ _ _ _ (lastMessage_of_none ms [] Hm))) in H.
      discriminate. }
  destruct (truthy (trim (userQuestion_of m))) eqn:Hq.
  2:{ rewrite (PerplexityFacts.handlePerplexityChatGPTToGemini_blank pf env W ms model
                 stream fs m Hg Ho Hm Hq) in H. discriminate. }
  repeat split; auto. now exists m.
Qed.

Lemma handleTavilyToGemini_200 ms model stream fs :
  status_of (run (Tavily.handleTavilyToGemini pf env W ms model stream fs)) = Some 200 ->
  Tavily.google_configured env = true /\
  exists m, last_opt ms = Some m /\ truthy (trim (userQuestion_of m)) = true.
Proof.
  intros H.
  destruct (Tavily.google_configured env) eqn:Hg.
  2:{ unfold run, Tavily.handleTavilyToGemini in H. rewrite Hg in H. discriminate. }
  destruct (last_opt ms) as [m|] eqn:Hm.
  2:{ unfold run, Tavily.handleTavilyToGemini in H. rewrite Hg in H.
      cbn [negb] in H.
      rewrite (try_catch_throw _ _ _ _ _
                 (bind_throw _ _ _ _ _ (lastMessage_of_none ms [] Hm))) in H.
      discriminate. }
  destruct (truthy (trim (userQuestion_of m))) eqn:Hq.
  2:{ rewrite (TavilyRoute.handleTavilyToGemini_blank pf env W ms model stream fs m
                 Hg Hm Hq) in H. discriminate. }
  split; auto. now exists m.
Qed.

End Success.

Section DefaultHandler.
Variable pf : Platform.
Variable env : Env.
Variable W : World.

Lemma stages_single (sent : list File) (cs : jsstring) (ms : list Message)
  (greq : GeminiRequest) :
  stages ((map EvUpload sent
           ++ map (fun s => EvOpenAI (rewrite_request cs s)) (string_contents ms))
          ++ [EvGemini greq]) = single_stages ms.
Proof.
  rewrite !stages_app, stages_uploads.
  rewrite <- (map_map (rewrite_request cs) EvOpenAI), stages_rewrites, length_map.
  reflexivity.
Qed.

(** A successful default request of the Perplexity variant: the calls are
    the uploads, one rewrite per string-content message and the answer;
    the response carries one prompt per rewrite and no step. *)
Lemma Perplexity_handleGoogle_200 ms model stream fs :
  let o := run (Perplexity.handleGoogle pf env W ms model stream fs) in
  status_of o = Some 200 ->
  exists sent greq ps t ups,
    uploadFilesToGeminiSDK env W fs [] = (Ok ups, map EvUpload sent) /\
    calls o = (map EvUpload sent
               ++ map (fun s => EvOpenAI (rewrite_request Perplexity.CONTENT_SYSTEM s))
                      (string_contents ms)) ++ [EvGemini greq] /\
    response_of o
    = Some (Perplexity.google_success (Perplexity.google_finalText pf t ups) ps) /\
    map p_user ps = string_contents ms.
Proof.
  intros o H. subst o.
  destruct (Perplexity.google_configured env) eqn:Hg.
  2:{ unfold run, Perplexity.handleGoogle in H. rewrite Hg in H. discriminate. }
  destruct (PerplexityRoute.handleGoogle_run pf env W ms model stream fs Hg)
    as (ups & sent & Hup & Hrun).
  rewrite Hrun in *. clear Hrun.
  destruct (process_each W Perplexity.CONTENT_SYSTEM ms (map EvUpload sent))
    as [[[cts ps]|msg] l] eqn:E.
  2:{ exfalso. unfold status_of, response_of in H. cbn [fst option_map] in H.
      injection H as H. now apply (PerplexityRoute.google_error_status msg). }
  destruct (process_each_ok W _ ms _ _ _ _ E) as (-> & Hu & _).
  cbn zeta in *.
  match type of H with context [gemini_generate W ?l ?r] =>
    destruct (gemini_generate W l r) as [t|msg] eqn:Eg; set (greq := r) in * end.
  2:{ exfalso. unfold status_of, response_of in H. cbn [fst option_map] in H.
      injection H as H. now apply (PerplexityRoute.google_error_status msg). }
  exists sent, greq, ps, t, ups. repeat split; auto.
Qed.

Lemma Tavily_handleGoogle_200 ms model stream fs :
  let o := run (Tavily.handleGoogle env W ms model stream fs) in
  status_of o = Some 200 ->
  exists sent greq ps t,
    calls o = (map EvUpload sent
               ++ map (fun s => EvOpenAI (rewrite_request Tavily.CONTENT_SYSTEM s))
                      (string_contents ms)) ++ [EvGemini greq] /\
    response_of o = Some (Tavily.google_success t ps) /\
    map p_user ps = string_contents ms.
Proof.
  intros o H. subst o.
  destruct (Tavily.google_configured env) eqn:Hg.
  2:{ unfold run, Tavily.handleGoogle in H. rewrite Hg in H. discriminate. }
  destruct (TavilyRoute.tavily_handleGoogle_run env W ms model stream fs Hg)
    as (ups & sent & _ & Hrun).
  rewrite Hrun in *. clear Hrun.
  destruct (process_each W Tavily.CONTENT_SYSTEM ms (map EvUpload sent))
    as [[[cts ps]|msg] l] eqn:E.
  2:{ exfalso. unfold status_of, response_of in H. cbn [fst option_map] in H.
      injection H as H. now apply (TavilyRoute.tavily_google_error_status msg). }
  destruct (process_each_ok W _ ms _ _ _ _ E) as (-> & Hu & _).
  cbn zeta in *.
  match type of H with context [gemini_generate W ?l ?r] =>
    destruct (gemini_generate W l r) as [t|msg] eqn:Eg; set (greq := r) in * end.
  2:{ exfalso. unfold status_of, response_of in H. cbn [fst option_map] in H.
      injection H as H. now apply (TavilyRoute.tavily_google_error_status msg). }
  exists sent, greq, ps, t. repeat split; auto.
Qed.

End DefaultHandler.

(* ===================================================================== *)
(** ** C1: the stage sequence of each workflow *)
(* ===================================================================== *)

(** C1, as stated, fails for the workflow single: the default handler
    rewrites every string-content message through ChatGPT before it calls
    Gemini, so a one-message request runs REWRITE then ANSWER, where the
    table has ANSWER alone; and it reports no step at all. *)
Lemma C1_single_also_rewrites :
  let o := run (Perplexity.POST ascii_platform all_keys steady_world
                  (request_of [user_says (js "Xin chao")] (js "single"))) in
  status_of o = Some 200 /\
  stages (calls o) = [REWRITE; ANSWER] /\
  reported o = [] /\
  workflow_table (js "single") = Some [ANSWER].
Proof. vm_compute. repeat split. Qed.

Ltac status_200 H :=
  unfold status_of, response_of in H; cbn [fst option_map status] in H;
  try discriminate H.

(** C1 (amended): a request that is answered with status 200 has run the
    stages its variant of the route dispatches to, in that order and no
    others: REWRITE, ANSWER for chatgpt-to-gemini; SEARCH, ANSWER for
    perplexity-to-gemini and for tavily-to-gemini; SEARCH, REWRITE, ANSWER
    for perplexity-chatgpt-gemini; and, for single and every other id, one
    REWRITE per string-content message followed by ANSWER.  The workflow
    handlers report exactly these stages in their step fields; the default
    handler reports none.  For the ids a variant tests for, the stages are
    those of the workflow table. *)
Theorem C1_stage_sequence (v : Variant) (pf : Platform) (env : Env) (W : World)
  (req : Request) :
  let o := run (route_POST v pf env W req) in
  status_of o = Some 200 ->
  stages (calls o) = route_stages v req /\
  reported o = route_reported v req /\
  (handles v (Perplexity.workflow_of req) = true ->
   workflow_table (Perplexity.workflow_of req) = Some (route_stages v req)).
Proof.
  intros o H. subst o.
  destruct (modelConfig (model req)) as [actualModel|] eqn:Hmodel.
  2:{ exfalso. destruct v; unfold route_POST, run, Perplexity.POST, Tavily.POST in H;
        rewrite Hmodel in H; discriminate H. }
  destruct v; unfold route_POST in *.
  - rewrite (PerplexityRoute.POST_dispatch pf env W req actualModel Hmodel) in *.
    unfold route_reported, route_stages, handles, Perplexity.dispatch in *.
    set (w := Perplexity.workflow_of req) in *.
    destruct (eqb w (js "chatgpt-to-gemini")) eqn:E1.
    { apply JS_eqb_eq in E1. rewrite E1. cbn [orb].
      destruct (handleChatGPTToGemini_200 pf env W _ _ _ _ H) as (Hg & Ho & m & Hm & Hq).
      rewrite (PerplexityFacts.handleChatGPTToGemini_run pf env W _ actualModel
                 (stream req) (files req) m Hg Ho Hm Hq) in *.
      cbn zeta in *.
      destruct (openai_chat W [] _); [status_200 H| |];
        match type of H with context [gemini_generate W ?l ?r] =>
          destruct (gemini_generate W l r) end; status_200 H;
        repeat split; reflexivity. }
    destruct (eqb w (js "perplexity-to-gemini")) eqn:E2.
    { apply JS_eqb_eq in E2. rewrite E2. cbn [orb].
      destruct (handlePerplexityToGemini_200 pf env W _ _ _ _ H) as (Hg & m & Hm & Hq).
      rewrite (PerplexityFacts.handlePerplexityToGemini_run pf env W _ actualModel
                 (stream req) (files req) m Hg Hm Hq) in *.
      cbn zeta in *.
      destruct (Perplexity.search_outcome env W [] _); [status_200 H|].
      match type of H with context [gemini_generate W ?l ?r] =>
        destruct (gemini_generate W l r) end; status_200 H.
      repeat split; reflexivity. }
    destruct (eqb w (js "perplexity-chatgpt-gemini")) eqn:E3.
    { apply JS_eqb_eq in E3. rewrite E3. cbn [orb].
      destruct (handlePerplexityChatGPTToGemini_200 pf env W _ _ _ _ H)
        as (Hg & Ho & m & Hm & Hq).
      rewrite (PerplexityFacts.handlePerplexityChatGPTToGemini_run pf env W _ actualModel
                 (stream req) (files req) m Hg Ho Hm Hq) in *.
      cbn zeta in *.
      destruct (Perplexity.search_outcome env W [] _); [status_200 H|].
      destruct (openai_chat W _ _); [status_200 H|status_200 H|].
      match type of H with context [gemini_generate W ?l ?r] =>
        destruct (gemini_generate W l r) end; status_200 H.
      repeat split; reflexivity. }
    cbn [orb].
    destruct (Perplexity_handleGoogle_200 pf env W _ _ _ _ H)
      as (sent & greq & ps & t & ups & _ & Hcalls & Hresp & _).
    split; [rewrite Hcalls; apply stages_single|].
    split; [|discriminate]. unfold reported. now rewrite Hresp.
  - rewrite (TavilyRoute.tavily_POST_dispatch pf env W req actualModel Hmodel) in *.
    unfold route_reported, route_stages, handles, Tavily.dispatch in *.
    change (Tavily.workflow_of req) with (Perplexity.workflow_of req) in *.
    set (w := Perplexity.workflow_of req) in *.
    destruct (eqb w (js "tavily-to-gemini")) eqn:E1.
    { apply JS_eqb_eq in E1. rewrite E1.
      destruct (handleTavilyToGemini_200 pf env W _ _ _ _ H) as (Hg & m & Hm & Hq).
      rewrite (TavilyRoute.handleTavilyToGemini_run pf env W _ actualModel
                 (stream req) (files req) m Hg Hm Hq) in *.
      cbn zeta in *.
      match type of H with context [gemini_generate W ?l ?r] =>
        destruct (gemini_generate W l r) end; status_200 H.
      repeat split; reflexivity. }
    destruct (Tavily_handleGoogle_200 env W _ _ _ _ H)
      as (sent & greq & ps & t & Hcalls & Hresp & _).
    split; [rewrite Hcalls; apply stages_single|].
    split; [|discriminate]. unfold reported. now rewrite Hresp.
Qed.

(** The amended C1 on a three-stage request. *)
Lemma C1_witness :
  status_of (run (route_POST PerplexityVariant ascii_platform all_keys steady_world
                    (request_of [user_says (js "gia vang hom nay")]
                                (js "perplexity-chatgpt-gemini")))) = Some 200 /\
  stages (calls (run (route_POST PerplexityVariant ascii_platform all_keys steady_world
                        (request_of [user_says (js "gia vang hom nay")]
                                    (js "perplexity-chatgpt-gemini")))))
  = [SEARCH; REWRITE; ANSWER] /\
  reported (run (route_POST PerplexityVariant ascii_platform all_keys steady_world
                   (request_of [user_says (js "gia vang hom nay")]
                               (js "perplexity-chatgpt-gemini"))))
  = [SEARCH; REWRITE; ANSWER].
Proof.
  split; [vm_compute; reflexivity|].
  destruct (C1_stage_sequence PerplexityVariant ascii_platform all_keys steady_world
              (request_of [user_says (js "gia vang hom nay")]
                          (js "perplexity-chatgpt-gemini")))
    as (H1 & H2 & _); [vm_compute; reflexivity|].
  split; [exact H1 | exact H2].
Defined.

(* ===================================================================== *)
(** ** Dispatch of [POST] on a given workflow id *)
(* ===================================================================== *)

Section Dispatch.
Variable pf : Platform.
Variable env : Env.
Variable W : World.

Lemma Perplexity_POST_chatgpt req actualModel :
  modelConfig (model req) = Some actualModel ->
  Perplexity.workflow_of req = js "chatgpt-to-gemini" ->
  run (Perplexity.POST pf env W req)
  = run (Perplexity.handleChatGPTToGemini pf env W (messages req) actualModel
           (stream req) (files req)).
Proof.
  intros Hm Hw. rewrite (PerplexityRoute.POST_dispatch pf env W req actualModel Hm).
  unfold Perplexity.dispatch. now rewrite Hw.
Qed.

Lemma Perplexity_POST_perplexity req actualModel :
  modelConfig (model req) = Some actualModel ->
  Perplexity.workflow_of req = js "perplexity-to-gemini" ->
  run (Perplexity.POST pf env W req)
  = run (Perplexity.handlePerplexityToGemini pf env W (messages req) actualModel
           (stream req) (files req)).
Proof.
  intros Hm Hw. rewrite (PerplexityRoute.POST_dispatch pf env W req actualModel Hm).
  unfold Perplexity.dispatch. now rewrite Hw.
Qed.

Lemma Perplexity_POST_refined req actualModel :
  modelConfig (model req) = Some actualModel ->
  Perplexity.workflow_of req = js "perplexity-chatgpt-gemini" ->
  run (Perplexity.POST pf env W req)
  = run (Perplexity.handlePerplexityChatGPTToGemini pf env W (messages req) actualModel
           (stream req) (files req)).
Proof.
  intros Hm Hw. rewrite (PerplexityRoute.POST_dispatch pf env W req actualModel Hm).
  unfold Perplexity.dispatch. now rewrite Hw.
Qed.

Lemma Perplexity_POST_default req actualModel :
  modelConfig (model req) = Some actualModel ->
  handles PerplexityVariant (Perplexity.workflow_of req) = false ->
  run (Perplexity.POST pf env W req)
  = run (Perplexity.handleGoogle pf env W (messages req) actualModel
           (stream req) (files req)).
Proof.
  intros Hm Hw. rewrite (PerplexityRoute.POST_dispatch pf env W req actualModel Hm).
  unfold Perplexity.dispatch. cbn [handles] in Hw.
  apply orb_false_elim in Hw as [Hw H3]. apply orb_false_elim in Hw as [H1 H2].
  now rewrite H1, H2, H3.
Qed.

Lemma Tavily_POST_tavily req actualModel :
  modelConfig (model req) = Some actualModel ->
  Tavily.workflow_of req = js "tavily-to-gemini" ->
  run (Tavily.POST pf env W req)
  = run (Tavily.handleTavilyToGemini pf env W (messages req) actualModel
           (stream req) (files req)).
Proof.
  intros Hm Hw. rewrite (TavilyRoute.tavily_POST_dispatch pf env W req actualModel Hm).
  unfold Tavily.dispatch. now rewrite Hw.
Qed.

Lemma Tavily_POST_default req actualModel :
  modelConfig (model req) = Some actualModel ->
  handles TavilyVariant (Tavily.workflow_of req) = false ->
  run (Tavily.POST pf env W req)
  = run (Tavily.handleGoogle env W (messages req) actualModel (stream req) (files req)).
Proof.
  intros Hm Hw. rewrite (TavilyRoute.tavily_POST_dispatch pf env W req actualModel Hm).
  unfold Tavily.dispatch. cbn [handles] in Hw. now rewrite Hw.
Qed.

(** [POST] always answers: no exception escapes it. *)
Lemma route_POST_returns (v : Variant) req :
  exists r l, run (route_POST v pf env W req) = (Ok r, l).
Proof.
  destruct v; unfold route_POST, run, Perplexity.POST, Tavily.POST;
    apply (try_catch_returns _
             (fun _ => error_response 500 (js "Internal server error") None)).
Qed.

End Dispatch.

(* ===================================================================== *)
(** ** C2: a failing search *)
(* ===================================================================== *)

(** C2, as stated, fails for tavily-to-gemini: its search adapter turns
    every failure into [null], and the handler then asks Gemini with the
    bare question and answers with status 200. *)
Lemma C2_tavily_failure_is_not_fatal :
  let req := request_of [user_says (js "gia vang hom nay")] (js "tavily-to-gemini") in
  let o := run (Tavily.POST ascii_platform all_keys tavily_down req) in
  Tavily.search_outcome all_keys tavily_down [] (js "gia vang hom nay") = None /\
  status_of o = Some 200 /\
  stages (calls o) = [SEARCH; ANSWER].
Proof. vm_compute. repeat split. Qed.

(** C2 (amended): in the workflows perplexity-to-gemini and
    perplexity-chatgpt-gemini, when the search adapter reports an error
    the handler answers at once with status 502 and the error kind
    perplexity_search_error; the search is the only adapter call made and
    no step is reported.  In tavily-to-gemini a failed search is not
    reported as an error: the handler goes on to the ANSWER stage with the
    question as its prompt. *)
Theorem C2_search_failure (pf : Platform) (env : Env) (W : World) (req : Request)
  (actualModel : option jsstring) (m : Message) :
  modelConfig (model req) = Some actualModel ->
  Perplexity.google_configured env = true ->
  last_opt (messages req) = Some m ->
  truthy (trim (userQuestion_of m)) = true ->
  let q := userQuestion_of m in
  (forall ty message,
     Perplexity.search_outcome env W [] q = SearchFailed ty message ->
     Perplexity.workflow_of req = js "perplexity-to-gemini" \/
     (Perplexity.workflow_of req = js "perplexity-chatgpt-gemini" /\
      Perplexity.openai_configured env = true) ->
     let o := run (Perplexity.POST pf env W req) in
     response_of o = Some (Perplexity.search_error_response message) /\
     status_of o = Some 502 /\
     calls o = [EvSearch q] /\
     reported o = []) /\
  (Tavily.search_outcome env W [] q = None ->
   Tavily.workflow_of req = js "tavily-to-gemini" ->
   calls (run (Tavily.POST pf env W req))
   = [EvSearch q; EvGemini (Tavily.workflow_request pf actualModel (messages req) q)]).
Proof.
  intros Hmodel Hg Hm Hq q. split.
  - intros ty message Hs [Hw|[Hw Ho]] o; subst o.
    + rewrite (Perplexity_POST_perplexity pf env W req actualModel Hmodel Hw).
      rewrite (PerplexityFacts.handlePerplexityToGemini_run pf env W _ actualModel
                 (stream req) (files req) m Hg Hm Hq).
      cbn zeta. fold q. rewrite Hs. repeat split.
    + rewrite (Perplexity_POST_refined pf env W req actualModel Hmodel Hw).
      rewrite (PerplexityFacts.handlePerplexityChatGPTToGemini_run pf env W _ actualModel
                 (stream req) (files req) m Hg Ho Hm Hq).
      cbn zeta. fold q. rewrite Hs. repeat split.
  - intros Hs Hw.
    rewrite (Tavily_POST_tavily pf env W req actualModel Hmodel Hw).
    rewrite (TavilyRoute.handleTavilyToGemini_run pf env W _ actualModel
               (stream req) (files req) m Hg Hm Hq).
    cbn zeta. fold q. rewrite Hs. reflexivity.
Qed.

(** The amended C2 on a request whose Perplexity call is answered 503. *)
Lemma C2_witness :
  status_of (run (Perplexity.POST ascii_platform all_keys perplexity_down
                    (request_of [user_says (js "gia vang hom nay")]
                                (js "perplexity-to-gemini")))) = Some 502 /\
  calls (run (Perplexity.POST ascii_platform all_keys perplexity_down
                (request_of [user_says (js "gia vang hom nay")]
                            (js "perplexity-to-gemini"))))
  = [EvSearch (js "gia vang hom nay")].
Proof.
  destruct (C2_search_failure ascii_platform all_keys perplexity_down
              (request_of [user_says (js "gia vang hom nay")] (js "perplexity-to-gemini"))
              (Some (js "gemini-2.5-flash")) (user_says (js "gia vang hom nay"))
              eq_refl eq_refl eq_refl eq_refl) as [H _].
  destruct (H (js "perplexity_api_error") (js "upstream down") eq_refl
              (or_introl eq_refl)) as (_ & H2 & H3 & _).
  split; [exact H2 | exact H3].
Defined.

(* ===================================================================== *)
(** ** C3: a failing rewrite *)
(* ===================================================================== *)

(** C3, as stated, fails for perplexity-chatgpt-gemini: its rewrite stage
    is an inline call that throws when the response is not OK, and the
    handler answers with status 500 without calling Gemini. *)
Lemma C3_refinement_failure_is_fatal :
  let req := request_of [user_says (js "gia vang hom nay")]
                        (js "perplexity-chatgpt-gemini") in
  let o := run (Perplexity.POST ascii_platform all_keys openai_down req) in
  status_of o = Some 500 /\
  stages (calls o) = [SEARCH; REWRITE] /\
  option_map (fun r => error (body r)) (response_of o)
  = Some (Some (js "Failed to get response from ChatGPT")).
Proof. vm_compute. repeat split. Qed.

(** C3 (amended): [convertToPromptChatGPT], the rewrite step of the
    workflow chatgpt-to-gemini and of the default handler, returns its
    input unchanged whenever the reply to its request is not OK or is OK
    without content, for every input text, system prompt and history of
    calls.  The workflow chatgpt-to-gemini, for a request that passes
    its checks of keys and question, then goes on to the ANSWER stage
    with the prompt built from the unchanged question, and answers with
    status 200 when Gemini does.  In the loop of the default handler the
    message whose rewrite failed is sent with its own text, and reported
    so in the prompts, and the loop carries on with the next message; with
    the Google key configured and as long as no rewrite call throws, the
    handler goes on to call Gemini.  The inline rewrite of
    perplexity-chatgpt-gemini, after a search that succeeded, is
    different: a reply that is OK without content falls back to the
    original question and the handler goes on to the ANSWER stage, but a
    reply that is not OK throws and is answered with status 500, without
    a call to Gemini. *)
Theorem C3_rewrite_degrades (pf : Platform) (env : Env) (W : World) :
  (forall cs contentText log,
     rewrite_failed (openai_chat W log (rewrite_request cs contentText)) = true ->
     convertToPromptChatGPT W cs contentText log
     = (Ok contentText, log ++ [EvOpenAI (rewrite_request cs contentText)])) /\
  (forall req actualModel m,
     modelConfig (model req) = Some actualModel ->
     Perplexity.workflow_of req = js "chatgpt-to-gemini" ->
     Perplexity.google_configured env = true ->
     Perplexity.openai_configured env = true ->
     last_opt (messages req) = Some m ->
     truthy (trim (userQuestion_of m)) = true ->
     let q := userQuestion_of m in
     let rq := rewrite_request Perplexity.CONTENT_SYSTEM q in
     rewrite_failed (openai_chat W [] rq) = true ->
     let prompt :=
       Perplexity.chatgpt_enhancedPrompt
         (Perplexity.conversationContext_of pf (messages req)) q q in
     let greq := Perplexity.workflow_request pf actualModel (messages req) prompt in
     let o := run (Perplexity.POST pf env W req) in
     calls o = [EvOpenAI rq; EvGemini greq] /\
     (forall t, gemini_generate W [EvOpenAI rq] greq = GeminiText t ->
                response_of o = Some (Perplexity.chatgpt_success q q prompt t) /\
                status_of o = Some 200)) /\
  (forall cs earlier message later s log c1 p1 l1 c2 p2 l2,
     msg_content message = CString s ->
     process_each W cs earlier log = (Ok (c1, p1), l1) ->
     rewrite_failed (openai_chat W l1 (rewrite_request cs s)) = true ->
     process_each W cs later (l1 ++ [EvOpenAI (rewrite_request cs s)])
     = (Ok (c2, p2), l2) ->
     process_each W cs (earlier ++ message :: later) log
     = (Ok (c1 ++ {| g_role := gemini_role (msg_role message);
                     g_parts := [GText s] |} :: c2,
            p1 ++ {| p_system := cs; p_user := s; p_output := s |} :: p2), l2)) /\
  (forall v req actualModel,
     modelConfig (model req) = Some actualModel ->
     handles v (Perplexity.workflow_of req) = false ->
     opt_truthy (GOOGLE_API_KEY env) = true ->
     openai_never_throws W ->
     exists greq,
       calls (run (route_POST v pf env W req))
       = (map EvUpload (filter needsUpload (files req))
          ++ map (fun s => EvOpenAI (rewrite_request (content_system_of v) s))
                 (string_contents (messages req)))
         ++ [EvGemini greq]) /\
  (forall req actualModel m answer results,
     modelConfig (model req) = Some actualModel ->
     Perplexity.workflow_of req = js "perplexity-chatgpt-gemini" ->
     Perplexity.google_configured env = true ->
     Perplexity.openai_configured env = true ->
     last_opt (messages req) = Some m ->
     truthy (trim (userQuestion_of m)) = true ->
     let q := userQuestion_of m in
     Perplexity.search_outcome env W [] q = SearchDone answer results ->
     let rq :=
       Perplexity.refinement_request
         (Perplexity.searchContext_of pf (trim answer) results) q in
     let greq := Perplexity.refined_request actualModel q in
     let o := run (Perplexity.POST pf env W req) in
     (forall c, openai_chat W [EvSearch q] rq = OpenAIOk c -> opt_truthy c = false ->
        calls o = [EvSearch q; EvOpenAI rq; EvGemini greq] /\
        (forall t, gemini_generate W [EvSearch q; EvOpenAI rq] greq = GeminiText t ->
                   response_of o = Some (Perplexity.refined_success pf q answer results q t) /\
                   status_of o = Some 200)) /\
     (openai_chat W [EvSearch q] rq = OpenAINotOk ->
      calls o = [EvSearch q; EvOpenAI rq] /\
      response_of o =
      Some (error_response 500 (js "Failed to get response from ChatGPT")
              (Some (js "workflow_error"))) /\
      status_of o = Some 500)).
Proof.
  split; [intros cs contentText log; apply convertToPromptChatGPT_degrades|].
  split.
  { intros req actualModel m Hmodel Hw Hg Ho Hm Hq q rq Hfail prompt greq o. subst o.
    rewrite (Perplexity_POST_chatgpt pf env W req actualModel Hmodel Hw).
    rewrite (PerplexityFacts.handleChatGPTToGemini_run pf env W _ actualModel
               (stream req) (files req) m Hg Ho Hm Hq).
    cbn zeta. fold q rq.
    destruct (openai_chat W [] rq) as [msg| |c]; [discriminate Hfail| |].
    - fold prompt greq. split; [reflexivity|].
      intros t Ht. rewrite Ht. split; reflexivity.
    - cbn [rewrite_failed] in Hfail. apply negb_true_iff in Hfail.
      rewrite (opt_or_falsy c q Hfail). fold prompt greq.
      split; [reflexivity|].
      intros t Ht. rewrite Ht. split; reflexivity. }
  split.
  { intros cs earlier message later s log c1 p1 l1 c2 p2 l2 Hc H1 Hfail H2.
    rewrite (process_each_app W cs earlier (message :: later) log c1 p1 l1 H1).
    cbn [process_each]. rewrite Hc. unfold bind at 1. unfold bind at 1.
    rewrite (convertToPromptChatGPT_degrades W cs s l1 Hfail).
    unfold ret at 1. cbn beta iota. unfold bind at 1. rewrite H2. reflexivity. }
  split.
  { intros v req actualModel Hmodel Hh Hkey Hnt. destruct v; unfold route_POST.
    - rewrite (Perplexity_POST_default pf env W req actualModel Hmodel Hh).
      destruct (PerplexityRoute.handleGoogle_run pf env W (messages req) actualModel
                  (stream req) (files req) Hkey) as (ups & sent & Hup & ->).
      rewrite (filter_sent env W _ _ _ Hkey Hup).
      destruct (process_each_returns W Perplexity.CONTENT_SYSTEM (messages req) Hnt
                  (map EvUpload (filter needsUpload (files req)))) as (cts & ps & l & E).
      rewrite E. destruct (process_each_ok W _ _ _ _ _ _ E) as (-> & _ & _).
      cbn zeta. eexists. reflexivity.
    - rewrite (Tavily_POST_default pf env W req actualModel Hmodel Hh).
      destruct (TavilyRoute.tavily_handleGoogle_run env W (messages req) actualModel
                  (stream req) (files req) Hkey) as (ups & sent & Hup & ->).
      rewrite (filter_sent env W _ _ _ Hkey Hup).
      destruct (process_each_returns W Tavily.CONTENT_SYSTEM (messages req) Hnt
                  (map EvUpload (filter needsUpload (files req)))) as (cts & ps & l & E).
      rewrite E. destruct (process_each_ok W _ _ _ _ _ _ E) as (-> & _ & _).
      cbn zeta. eexists. reflexivity. }
  intros req actualModel m answer results Hmodel Hw Hg Ho Hm Hq q Hs rq greq o. subst o.
  rewrite (Perplexity_POST_refined pf env W req actualModel Hmodel Hw).
  rewrite (PerplexityFacts.handlePerplexityChatGPTToGemini_run pf env W _ actualModel
             (stream req) (files req) m Hg Ho Hm Hq).
  cbn zeta. fold q. rewrite Hs. fold rq. split.
  - intros c Hc Hnone. rewrite Hc. rewrite (opt_or_falsy c q Hnone). fold greq.
    split; [reflexivity|]. intros t Ht. rewrite Ht. split; reflexivity.
  - intros Hc. rewrite Hc. unfold calls, status_of, response_of. cbn [fst snd option_map].
    split; [reflexivity|]. split; [|reflexivity].
    unfold Perplexity.workflow_error.
    now rewrite (or_else_left (js "Failed to get response from ChatGPT") _ eq_refl).
Qed.

(** The amended C3 on a request whose rewrite call is not OK, and on the
    inline rewrite when the reply has no content and when it is not OK. *)
Lemma C3_witness :
  (let o := run (Perplexity.POST ascii_platform all_keys openai_down
                   (request_of [user_says (js "Xin chao")] (js "chatgpt-to-gemini"))) in
   calls o
   = [EvOpenAI (rewrite_request Perplexity.CONTENT_SYSTEM (js "Xin chao"));
      EvGemini (Perplexity.workflow_request ascii_platform (Some (js "gemini-2.5-flash"))
                  [user_says (js "Xin chao")] (js "Xin chao"))] /\
   status_of o = Some 200) /\
  (let o := run (Perplexity.POST ascii_platform all_keys openai_silent
                   (request_of [user_says (js "Xin chao")]
                               (js "perplexity-chatgpt-gemini"))) in
   stages (calls o) = [SEARCH; REWRITE; ANSWER] /\ status_of o = Some 200) /\
  (let o := run (Perplexity.POST ascii_platform all_keys openai_down
                   (request_of [user_says (js "Xin chao")]
                               (js "perplexity-chatgpt-gemini"))) in
   stages (calls o) = [SEARCH; REWRITE] /\ status_of o = Some 500).
Proof.
  pose proof (C3_rewrite_degrades ascii_platform all_keys openai_down)
    as (_ & H2 & _ & _ & H5).
  pose proof (C3_rewrite_degrades ascii_platform all_keys openai_silent)
    as (_ & _ & _ & _ & H5').
  split; [|split].
  - edestruct (H2 (request_of [user_says (js "Xin chao")] (js "chatgpt-to-gemini"))
                (Some (js "gemini-2.5-flash")) (user_says (js "Xin chao")))
      as (Hc & Ht); try (vm_compute; reflexivity).
    split; [exact Hc|]. apply (Ht (js "Chao ban")). vm_compute; reflexivity.
  - edestruct (H5' (request_of [user_says (js "Xin chao")] (js "perplexity-chatgpt-gemini"))
                (Some (js "gemini-2.5-flash")) (user_says (js "Xin chao"))
                (js "tom tat") []) as (Ha & _); try (vm_compute; reflexivity).
    edestruct (Ha None) as (Hc & Ht); try (vm_compute; reflexivity).
    cbn zeta. rewrite Hc. split; [vm_compute; reflexivity|].
    apply (Ht (js "Chao ban")). vm_compute; reflexivity.
  - edestruct (H5 (request_of [user_says (js "Xin chao")] (js "perplexity-chatgpt-gemini"))
                (Some (js "gemini-2.5-flash")) (user_says (js "Xin chao"))
                (js "tom tat") []) as (_ & Hb); try (vm_compute; reflexivity).
    edestruct Hb as (Hc & _ & Hst); try (vm_compute; reflexivity).
    cbn zeta. rewrite Hc. split; [vm_compute; reflexivity | exact Hst].
Defined.

(* ===================================================================== *)
(** ** C5: a blank question *)
(* ===================================================================== *)

(** C5, as stated, fails for the workflow single: the default handler
    never looks for a question.  A request whose only message is one
    space is rewritten, sent to Gemini and answered with status 200. *)
Lemma C5_single_accepts_blank_question :
  let req := request_of [user_says (js " ")] (js "single") in
  let o := run (Perplexity.POST ascii_platform all_keys steady_world req) in
  truthy (trim (js " ")) = false /\
  status_of o = Some 200 /\
  stages (calls o) = [REWRITE; ANSWER].
Proof. vm_compute. repeat split. Qed.

(** C5 (amended): in every workflow a variant tests for (chatgpt-to-gemini,
    perplexity-to-gemini, perplexity-chatgpt-gemini, tavily-to-gemini),
    for a supported model and with the credentials of the workflow
    configured, a last message whose question is empty or only white
    space is answered with status 400, No question provided, and no
    adapter is called. *)
Theorem C5_blank_question (v : Variant) (pf : Platform) (env : Env) (W : World)
  (req : Request) (actualModel : option jsstring) (m : Message) :
  modelConfig (model req) = Some actualModel ->
  handles v (Perplexity.workflow_of req) = true ->
  keys_checked v env (Perplexity.workflow_of req) = true ->
  last_opt (messages req) = Some m ->
  truthy (trim (userQuestion_of m)) = false ->
  run (route_POST v pf env W req)
  = (Ok (error_response 400 (js "No question provided") None), []).
Proof.
  intros Hmodel Hh Hk Hm Hq. destruct v; unfold route_POST.
  - rewrite (PerplexityRoute.POST_dispatch pf env W req actualModel Hmodel).
    unfold Perplexity.dispatch. cbn [handles keys_checked] in Hh, Hk.
    set (w := Perplexity.workflow_of req) in *.
    destruct (eqb w (js "chatgpt-to-gemini")) eqn:E1.
    { apply JS_eqb_eq in E1. rewrite E1 in Hk. cbn in Hk.
      apply andb_prop in Hk as [Hg Ho].
      now apply PerplexityFacts.handleChatGPTToGemini_blank with (m := m). }
    destruct (eqb w (js "perplexity-to-gemini")) eqn:E2.
    { now apply PerplexityFacts.handlePerplexityToGemini_blank with (m := m). }
    destruct (eqb w (js "perplexity-chatgpt-gemini")) eqn:E3; [|discriminate Hh].
    apply andb_prop in Hk as [Hg Ho].
    now apply PerplexityFacts.handlePerplexityChatGPTToGemini_blank with (m := m).
  - rewrite (TavilyRoute.tavily_POST_dispatch pf env W req actualModel Hmodel).
    unfold Tavily.dispatch. cbn [handles keys_checked] in Hh, Hk.
    change (Tavily.workflow_of req) with (Perplexity.workflow_of req).
    rewrite Hh. now apply TavilyRoute.handleTavilyToGemini_blank with (m := m).
Qed.

(** The amended C5 on a mixed-content message whose first text part is
    white space. *)
Lemma C5_witness :
  run (route_POST PerplexityVariant ascii_platform all_keys steady_world
         (request_of [ {| msg_role := js "user";
                          msg_content := CParts [ImageUrlPart None;
                                                 TextPart (js "  ");
                                                 TextPart (js "hoi") ] |} ]
                     (js "perplexity-to-gemini")))
  = (Ok (error_response 400 (js "No question provided") None), []).
Proof.
  apply (C5_blank_question PerplexityVariant ascii_platform all_keys steady_world _
           (Some (js "gemini-2.5-flash"))
           {| msg_role := js "user";
              msg_content := CParts [ImageUrlPart None; TextPart (js "  ");
                                     TextPart (js "hoi") ] |});
    vm_compute; reflexivity.
Defined.

(* ===================================================================== *)
(** ** C6: unsupported model, unknown workflow *)
(* ===================================================================== *)

(** C6, as stated, fails in its second half: a workflow id that no test of
    [POST] recognises falls through to the default handler and is
    answered like the workflow single. *)
Lemma C6_unknown_workflow_is_served :
  let req := request_of [user_says (js "Xin chao")] (js "no-such-workflow") in
  let o := run (Perplexity.POST ascii_platform all_keys steady_world req) in
  workflow_table (js "no-such-workflow") = None /\
  status_of o = Some 200 /\
  o = run (Perplexity.POST ascii_platform all_keys steady_world
             (request_of [user_says (js "Xin chao")] (js "single"))).
Proof. vm_compute. repeat split. Qed.

(** C6 (amended): a model identifier that is neither a key of the model
    mapping nor a property name inherited from [Object.prototype] is
    answered with status 400, Unsupported model, before any adapter is
    called, whatever the workflow.  A workflow identifier that the variant
    does not test for is not an error: with a supported model the request
    is served by the default handler, as the workflow single is. *)
Theorem C6_unsupported_model_unknown_workflow (v : Variant) (pf : Platform) (env : Env)
  (W : World) (req : Request) :
  (mem (model req) MODEL_MAPPING = false ->
   mem (model req) Object_prototype_names = false ->
   run (route_POST v pf env W req)
   = (Ok (error_response 400 (js "Unsupported model: " ++ model req) None), []) /\
   status_of (run (route_POST v pf env W req)) = Some 400) /\
  (forall actualModel,
     modelConfig (model req) = Some actualModel ->
     handles v (Perplexity.workflow_of req) = false ->
     run (route_POST v pf env W req) = run (default_handler v pf env W req actualModel)).
Proof.
  split.
  - intros H1 H2.
    assert (Hnone : modelConfig (model req) = None).
    { unfold modelConfig. now rewrite H1, H2. }
    destruct v; unfold route_POST, run, Perplexity.POST, Tavily.POST, status_of;
      rewrite Hnone; split; reflexivity.
  - intros actualModel Hm Hh. destruct v; unfold route_POST, default_handler.
    + now apply Perplexity_POST_default.
    + now apply Tavily_POST_default.
Qed.

(** The amended C6 on a model the mapping does not know. *)
Lemma C6_witness :
  status_of (run (route_POST PerplexityVariant ascii_platform all_keys steady_world
                    {| messages := [user_says (js "Xin chao")]; model := js "gpt-5";
                       stream := false; files := [];
                       workflow := Some (js "chatgpt-to-gemini") |})) = Some 400.
Proof.
  exact (proj2 (proj1 (C6_unsupported_model_unknown_workflow PerplexityVariant
                         ascii_platform all_keys steady_world
                         {| messages := [user_says (js "Xin chao")]; model := js "gpt-5";
                            stream := false; files := [];
                            workflow := Some (js "chatgpt-to-gemini") |})
                      eq_refl eq_refl)).
Defined.

(* ===================================================================== *)
(** ** C7: the reference block is capped *)
(* ===================================================================== *)

Lemma mapi_from_length {A B : Type} (f : nat -> A -> B) (l : list A) :
  forall i, length (mapi_from f i l) = length l.
Proof. induction l as [|x l IH]; intros i; cbn; [reflexivity | now rewrite IH]. Qed.

Lemma mapi_from_nth {A B : Type} (f : nat -> A -> B) (l : list A) :
  forall i n, nth_error (mapi_from f i l) n = option_map (f (i + n)) (nth_error l n).
Proof.
  induction l as [|x l IH]; intros i [|n]; cbn [mapi_from nth_error option_map];
    try reflexivity.
  - now rewrite Nat.add_0_r.
  - rewrite IH. now rewrite Nat.add_succ_r.
Qed.

Lemma startsWith_app (a b : jsstring) : startsWith (a ++ b) a = true.
Proof.
  induction a as [|x a IH]; [now destruct b|].
  cbn [app startsWith]. now rewrite N.eqb_refl, IH.
Qed.

Lemma digits_of_truthy (fuel n : nat) (acc : jsstring) :
  truthy acc = true -> truthy (digits_of fuel n acc) = true.
Proof.
  revert n acc. induction fuel as [|fuel IH]; intros n acc H; cbn [digits_of]; [exact H|].
  destruct (n <? 10); [reflexivity|]. now apply IH.
Qed.

Lemma of_nat_truthy (n : nat) : truthy (of_nat n) = true.
Proof.
  unfold of_nat. cbn [digits_of]. destruct (n <? 10); [reflexivity|].
  now apply digits_of_truthy.
Qed.

Lemma truthy_app_l (a b : jsstring) : truthy a = true -> truthy (a ++ b) = true.
Proof. now destruct a. Qed.

Lemma join_truthy (sep x : jsstring) (rest : list jsstring) :
  truthy x = true -> truthy (join sep (x :: rest)) = true.
Proof.
  intros H. cbn [join]. destruct rest; [exact H|]. now apply truthy_app_l.
Qed.

Lemma reference_line_truthy (pf : Platform) (i : nat) (r : SearchResult) :
  truthy (Perplexity.reference_line pf i r) = true.
Proof. unfold Perplexity.reference_line. cbn zeta. apply truthy_app_l, of_nat_truthy. Qed.

Lemma referencesText_truthy (pf : Platform) (results : list SearchResult) :
  0 < length results ->
  Perplexity.referencesText_of pf results
  = join nl (Perplexity.reference_entries pf results) /\
  truthy (Perplexity.referencesText_of pf results) = true.
Proof.
  intros H. unfold Perplexity.referencesText_of.
  destruct results as [|r results]; [cbn in H; lia|].
  cbn [length Nat.ltb Nat.leb]. split; [reflexivity|].
  unfold Perplexity.reference_entries, mapi, MAX_REFERENCES.
  cbn [firstn mapi_from]. apply join_truthy, reference_line_truthy.
Qed.

(** Where the final text of a Perplexity workflow ends when there are
    references. *)
Lemma finalText_with_references (pf : Platform) (text refs : jsstring) :
  truthy refs = true ->
  exists before,
    Perplexity.finalText_of pf text refs
    = before ++ Perplexity.REFERENCES_HEADING ++ nl ++ refs.
Proof.
  intros H. unfold Perplexity.finalText_of. cbn zeta. rewrite H.
  destruct (truthy (stripReferenceSection pf (cleanText text))).
  - exists (stripReferenceSection pf (cleanText text) ++ nl ++ nl).
    cbn [app length Nat.ltb Nat.leb join]. now rewrite <- !app_assoc.
  - exists []. reflexivity.
Qed.

(** C7: the reference block of the Perplexity workflows has exactly five
    numbered entries when there are more than five search results and
    exactly as many entries as results otherwise; the entry at position
    [i] is the line of the result at position [i], numbered [i + 1]; and
    when there is a result the final text ends with the heading followed
    by these entries, one per line group. *)
Theorem C7_reference_cap (pf : Platform) (results : list SearchResult) :
  (5 < length results -> length (Perplexity.reference_entries pf results) = 5) /\
  (length results <= 5 ->
   length (Perplexity.reference_entries pf results) = length results) /\
  (forall i r,
     i < 5 -> nth_error results i = Some r ->
     nth_error (Perplexity.reference_entries pf results) i
     = Some (Perplexity.reference_line pf i r) /\
     startsWith (Perplexity.reference_line pf i r) (of_nat (i + 1) ++ js ". ") = true) /\
  (0 < length results ->
   forall text, exists before,
     Perplexity.finalText_of pf text (Perplexity.referencesText_of pf results)
     = before ++ Perplexity.REFERENCES_HEADING ++ nl
       ++ join nl (Perplexity.reference_entries pf results)).
Proof.
  assert (Hlen : length (Perplexity.reference_entries pf results)
                 = Nat.min 5 (length results)).
  { unfold Perplexity.reference_entries, mapi, MAX_REFERENCES.
    now rewrite mapi_from_length, length_firstn. }
  split; [intros H; rewrite Hlen; lia|].
  split; [intros H; rewrite Hlen; lia|].
  split.
  - intros i r Hi Hr. split.
    + unfold Perplexity.reference_entries, mapi, MAX_REFERENCES.
      rewrite mapi_from_nth, nth_error_firstn.
      destruct (Nat.ltb_spec i 5); [|lia]. now rewrite Hr.
    + unfold Perplexity.reference_line. cbn zeta.
      rewrite (app_assoc (of_nat (i + 1)) (js ". ")). apply startsWith_app.
  - intros H text. destruct (referencesText_truthy pf results H) as [Heq Ht].
    destruct (finalText_with_references pf text _ Ht) as [before Hb].
    exists before. now rewrite Hb, Heq.
Qed.

(** C7 on seven results: five entries, the first five in order. *)
Lemma C7_witness :
  length (Perplexity.reference_entries ascii_platform seven_results) = 5 /\
  Perplexity.reference_entries ascii_platform seven_results
  = [ js "1. T1 - http://x/1" ++ nl ++ js "c"; js "2. T2 - http://x/2" ++ nl ++ js "c";
      js "3. T3 - http://x/3" ++ nl ++ js "c"; js "4. T4 - http://x/4" ++ nl ++ js "c";
      js "5. T5 - http://x/5" ++ nl ++ js "c" ].
Proof.
  split; [|vm_compute; reflexivity].
  apply (proj1 (C7_reference_cap ascii_platform seven_results)).
  vm_compute. lia.
Defined.

(* ===================================================================== *)
(** ** C8: the references section when there is nothing to cite *)
(* ===================================================================== *)








(* ===================================================================== *)
(** ** C9: a summary without results *)
(* ===================================================================== *)

Lemma occurs_in_refl (p : jsstring) : occurs_in p p.
Proof. exists [], []. now rewrite app_nil_r. Qed.

Lemma occurs_in_app_r (p s x : jsstring) : occurs_in p s -> occurs_in p (x ++ s).
Proof. intros (a & b & ->). exists (x ++ a), b. now rewrite <- app_assoc. Qed.

Lemma occurs_in_app_l (p s x : jsstring) : occurs_in p s -> occurs_in p (s ++ x).
Proof. intros (a & b & ->). exists a, (b ++ x). now rewrite <- !app_assoc. Qed.

Lemma occurs_in_join (sep p x : jsstring) (parts : list jsstring) :
  In x parts -> occurs_in p x -> occurs_in p (join sep parts).
Proof.
  intros Hin Hx. induction parts as [|y parts IH]; [contradiction|].
  cbn [join]. destruct Hin as [->|Hin].
  - destruct parts; [exact Hx|]. now apply occurs_in_app_l.
  - destruct parts as [|z parts]; [contradiction|].
    apply occurs_in_app_r, occurs_in_app_r. now apply IH.
Qed.

(** The summary the Perplexity adapter returns is trimmed. *)
Lemma search_outcome_trimmed (env : Env) (W : World) log q answer results :
  Perplexity.search_outcome env W log q = SearchDone answer results ->
  trim answer = answer.
Proof.
  unfold Perplexity.search_outcome.
  destruct (Perplexity.getPerplexityConfig env) as [[k|] mdl]; [|discriminate].
  destruct (perplexity_chat W log mdl q) as [msg|st stt raw pe pm|summary cands];
    cbn [Perplexity.search_return]; try discriminate.
  intros H. inversion H; subst. destruct (truthy summary); [apply trim_idem|reflexivity].
Qed.

Lemma perplexity_prompt_has_summary (pf : Platform) (ctx answer q : jsstring)
  (results : list SearchResult) :
  truthy answer = true ->
  occurs_in answer (Perplexity.perplexity_prompt pf ctx answer q results).
Proof.
  intros H. unfold Perplexity.perplexity_prompt. cbn zeta. rewrite H.
  eapply occurs_in_join.
  - apply in_or_app. right. apply in_or_app. right. apply in_or_app. left.
    cbn [app length Nat.ltb Nat.leb]. left. reflexivity.
  - apply occurs_in_app_r, occurs_in_app_r.
    eapply occurs_in_join; [left; reflexivity|].
    apply occurs_in_app_r, occurs_in_app_r, occurs_in_refl.
Qed.

Lemma refinement_request_has_summary (pf : Platform) (answer q : jsstring)
  (results : list SearchResult) :
  truthy answer = true ->
  occurs_in answer
    (oa_user (Perplexity.refinement_request
                (Perplexity.searchContext_of pf answer results) q)).
Proof.
  intros H. unfold Perplexity.refinement_request. cbn [oa_user].
  apply occurs_in_app_r, occurs_in_app_l.
  unfold Perplexity.searchContext_of. cbn zeta. rewrite H.
  assert (Hj : occurs_in answer
                 (join (nl ++ nl)
                    ([js "Summary:" ++ nl ++ answer] ++
                     (if 0 <? length results
                      then [js "References:" ++ nl
                            ++ Perplexity.referencesText_of pf results]
                      else [])))).
  { eapply occurs_in_join; [left; reflexivity|].
    apply occurs_in_app_r, occurs_in_app_r, occurs_in_refl. }
  unfold or_else.
  match type of Hj with occurs_in _ ?j => set (joined := j) in * end.
  destruct (truthy joined) eqn:E; [exact Hj|].
  destruct Hj as (a & b & Hab). rewrite Hab in E.
  destruct a; [destruct answer; discriminate|discriminate].
Qed.

(** C9, as stated, fails for tavily-to-gemini: the summary is composed
    only inside the test for a non-empty result list, so a summary that
    comes with no result is dropped and Gemini is asked the bare
    question. *)
Lemma C9_tavily_drops_summary_without_results :
  let req := request_of [user_says (js "gia vang")] (js "tavily-to-gemini") in
  let o := run (Tavily.POST ascii_platform all_keys summary_only req) in
  Tavily.search_outcome all_keys summary_only [] (js "gia vang")
  = Some {| tv_results := Some []; tv_answer := Some (js "tom tat") |} /\
  calls o = [EvSearch (js "gia vang");
             EvGemini {| g_model := Some (js "gemini-2.5-flash");
                         g_contents := [{| g_role := js "user";
                                           g_parts := [GText (js "gia vang")] |}];
                         g_maxOutputTokens := 2000 |}] /\
  includes (js "gia vang") (js "tom tat") = false.
Proof. vm_compute. repeat split. Qed.

(** C9 (amended): in the Perplexity workflows a search response with a
    non-empty summary and an empty result list still puts the summary
    into the input of the next stage: into the prompt sent to Gemini in
    perplexity-to-gemini, and into the refinement request sent to ChatGPT
    in perplexity-chatgpt-gemini.  In tavily-to-gemini the summary is used
    only together with at least one result; with an empty result list
    the prompt is the question itself. *)
Theorem C9_summary_without_results (pf : Platform) (env : Env) (W : World)
  (req : Request) (actualModel : option jsstring) (m : Message) :
  modelConfig (model req) = Some actualModel ->
  Perplexity.google_configured env = true ->
  last_opt (messages req) = Some m ->
  truthy (trim (userQuestion_of m)) = true ->
  let q := userQuestion_of m in
  (forall answer,
     Perplexity.search_outcome env W [] q = SearchDone answer [] ->
     truthy answer = true ->
     (Perplexity.workflow_of req = js "perplexity-to-gemini" ->
      exists prompt,
        occurs_in answer prompt /\
        calls (run (Perplexity.POST pf env W req))
        = [EvSearch q;
           EvGemini (Perplexity.workflow_request pf actualModel (messages req) prompt)]) /\
     (Perplexity.workflow_of req = js "perplexity-chatgpt-gemini" ->
      Perplexity.openai_configured env = true ->
      exists rq rest,
        occurs_in answer (oa_user rq) /\
        calls (run (Perplexity.POST pf env W req)) = EvSearch q :: EvOpenAI rq :: rest)) /\
  (forall data,
     Tavily.search_outcome env W [] q = Some data ->
     tv_results data = Some [] ->
     Tavily.workflow_of req = js "tavily-to-gemini" ->
     calls (run (Tavily.POST pf env W req))
     = [EvSearch q; EvGemini (Tavily.workflow_request pf actualModel (messages req) q)]).
Proof.
  intros Hmodel Hg Hm Hq q. split.
  - intros answer Hs Ha. pose proof (search_outcome_trimmed _ _ _ _ _ _ Hs) as Htrim.
    split.
    + intros Hw.
      exists (Perplexity.perplexity_prompt pf
                (Perplexity.conversationContext_of pf (messages req)) answer q []).
      split; [now apply perplexity_prompt_has_summary|].
      rewrite (Perplexity_POST_perplexity pf env W req actualModel Hmodel Hw).
      rewrite (PerplexityFacts.handlePerplexityToGemini_run pf env W _ actualModel
                 (stream req) (files req) m Hg Hm Hq).
      cbn zeta. fold q. rewrite Hs, Htrim. reflexivity.
    + intros Hw Ho.
      exists (Perplexity.refinement_request (Perplexity.searchContext_of pf answer []) q).
      rewrite (Perplexity_POST_refined pf env W req actualModel Hmodel Hw).
      rewrite (PerplexityFacts.handlePerplexityChatGPTToGemini_run pf env W _ actualModel
                 (stream req) (files req) m Hg Ho Hm Hq).
      cbn zeta. fold q. rewrite Hs, Htrim.
      destruct (openai_chat W [EvSearch q] _);
        eexists; (split; [now apply refinement_request_has_summary | reflexivity]).
  - intros data Hs Hr Hw.
    rewrite (Tavily_POST_tavily pf env W req actualModel Hmodel Hw).
    rewrite (TavilyRoute.handleTavilyToGemini_run pf env W _ actualModel
               (stream req) (files req) m Hg Hm Hq).
    cbn zeta. fold q. rewrite Hs. unfold Tavily.enhancedPrompt_of. rewrite Hr.
    reflexivity.
Qed.

(** The amended C9 on a summary-only response in perplexity-to-gemini. *)
Lemma C9_witness :
  exists prompt,
    occurs_in (js "tom tat") prompt /\
    calls (run (Perplexity.POST ascii_platform all_keys summary_only
                  (request_of [user_says (js "gia vang")] (js "perplexity-to-gemini"))))
    = [EvSearch (js "gia vang");
       EvGemini (Perplexity.workflow_request ascii_platform (Some (js "gemini-2.5-flash"))
                   [user_says (js "gia vang")] prompt)].
Proof.
  destruct (C9_summary_without_results ascii_platform all_keys summary_only
              (request_of [user_says (js "gia vang")] (js "perplexity-to-gemini"))
              (Some (js "gemini-2.5-flash")) (user_says (js "gia vang"))
              eq_refl eq_refl eq_refl eq_refl) as [H _].
  exact (proj1 (H (js "tom tat") eq_refl eq_refl) eq_refl).
Defined.

(* ===================================================================== *)
(** ** C10: the default handler rewrites every string message *)
(* ===================================================================== *)

(** C10: in the workflow single (and every id the route does not test
    for), with the Google key configured and as long as no rewrite call
    throws, [convertToPromptChatGPT] is called once for every message
    whose content is a string, whatever its role and position, in
    conversation order, between the uploads and the one call to Gemini;
    and a successful response carries one prompts entry per such message,
    whose input is the content of that message. *)
Theorem C10_single_rewrites_every_string_message (pf : Platform) (env : Env)
  (W : World) (req : Request) (actualModel : option jsstring) :
  modelConfig (model req) = Some actualModel ->
  handles PerplexityVariant (Perplexity.workflow_of req) = false ->
  Perplexity.google_configured env = true ->
  openai_never_throws W ->
  let o := run (Perplexity.POST pf env W req) in
  let contents := string_contents (messages req) in
  (exists sent greq,
     calls o = (map EvUpload sent
                ++ map (fun s => EvOpenAI (rewrite_request Perplexity.CONTENT_SYSTEM s))
                       contents)
               ++ [EvGemini greq]) /\
  (status_of o = Some 200 ->
   exists r ps,
     response_of o = Some r /\ prompts (body r) = Some ps /\
     map p_user ps = contents /\ length ps = length contents).
Proof.
  intros Hmodel Hh Hg Hnt o contents. subst o.
  rewrite (Perplexity_POST_default pf env W req actualModel Hmodel Hh).
  split.
  - destruct (PerplexityRoute.handleGoogle_run pf env W (messages req) actualModel
                (stream req) (files req) Hg) as (ups & sent & _ & Hrun).
    rewrite Hrun.
    destruct (process_each_returns W Perplexity.CONTENT_SYSTEM (messages req) Hnt
                (map EvUpload sent)) as (cts & ps & l & E).
    rewrite E. destruct (process_each_ok W _ _ _ _ _ _ E) as (-> & _ & _).
    cbn zeta. eexists sent, _. reflexivity.
  - intros H.
    destruct (Perplexity_handleGoogle_200 pf env W _ _ _ _ H)
      as (sent & greq & ps & t & ups & _ & _ & Hresp & Hu).
    eexists _, ps. split; [exact Hresp|]. split; [reflexivity|]. split; [exact Hu|].
    fold contents in Hu. rewrite <- Hu. now rewrite length_map.
Qed.

Lemma steady_world_never_throws : openai_never_throws steady_world.
Proof. intros log req msg. discriminate. Qed.

(** C10 on a four-message conversation: the three string messages, the
    assistant's among them, are each rewritten; the mixed one is not. *)
Lemma C10_witness :
  string_contents four_turns = [js "Xin chao"; js "Chao ban"; js "gia vang hom nay"] /\
  stages (calls (run (Perplexity.POST ascii_platform all_keys steady_world
                        (request_of four_turns (js "single")))))
  = [REWRITE; REWRITE; REWRITE; ANSWER] /\
  exists r ps,
    response_of (run (Perplexity.POST ascii_platform all_keys steady_world
                        (request_of four_turns (js "single")))) = Some r /\
    prompts (body r) = Some ps /\
    map p_user ps = string_contents (messages (request_of four_turns (js "single"))) /\
    length ps = length (string_contents (messages (request_of four_turns (js "single")))).
Proof.
  split; [reflexivity|].
  destruct (C10_single_rewrites_every_string_message ascii_platform all_keys
              steady_world (request_of four_turns (js "single"))
              (Some (js "gemini-2.5-flash")) eq_refl eq_refl eq_refl
              steady_world_never_throws) as [(sent & greq & Hcalls) Hok].
  split.
  - rewrite Hcalls. apply stages_single.
  - apply Hok. vm_compute. reflexivity.
Defined.

(* ===================================================================== *)
(** ** Further properties: the clean-up chain and the reference section *)
(* ===================================================================== *)

Lemma startsWith_split (s p : jsstring) :
  startsWith s p = true -> s = p ++ skipn (length p) s.
Proof.
  revert s. induction p as [|x p IH]; intros s; [reflexivity|].
  destruct s as [|y s]; cbn [startsWith]; [discriminate|].
  intros [Hx Hs]%andb_prop. apply N.eqb_eq in Hx. subst y.
  cbn [length skipn app]. f_equal. now apply IH.
Qed.

Lemma lazy_until_split (close : jsstring) (s : jsstring) : forall g r,
  lazy_until close s = Some (g, r) -> s = g ++ close ++ r.
Proof.
  induction s as [|c t IH]; intros g r; cbn [lazy_until].
  - destruct (startsWith [] close) eqn:E; [|discriminate].
    intros H. inversion H; subst. cbn [app]. now apply startsWith_split.
  - destruct (startsWith (c :: t) close) eqn:E.
    + intros H. inversion H; subst. cbn [app]. now apply startsWith_split.
    + destruct (is_line_terminator c); [discriminate|].
      destruct (lazy_until close t) as [[g' r']|] eqn:E'; [|discriminate].
      intros H. inversion H; subst. cbn [app]. f_equal. now apply IH.
Qed.

Lemma re_wrapped_non_expanding (d : jsstring) : non_expanding (re_wrapped d).
Proof.
  intros prev s out last rest. unfold re_wrapped.
  destruct (startsWith s d) eqn:E; [|discriminate].
  destruct (lazy_until d (skipn (length d) s)) as [[g r]|] eqn:E'; [|discriminate].
  intros H. inversion H; subst.
  apply startsWith_split in E. apply lazy_until_split in E'.
  rewrite E, E'. rewrite !length_app. lia.
Qed.

Lemma re_heading_non_expanding : non_expanding re_heading.
Proof.
  intros prev s out last rest. unfold re_heading.
  destruct (at_line_start prev); [|discriminate].
  destruct (take_while (N.eqb 35) s) as [|h hs]; [discriminate|].
  destruct (take_while is_space (drop_while (N.eqb 35) s)) as [|w ws]; [discriminate|].
  intros H. inversion H; subst.
  pose proof (drop_while_length (N.eqb 35) s).
  pose proof (drop_while_length is_space (drop_while (N.eqb 35) s)).
  cbn [length]. lia.
Qed.

Lemma re_link_non_expanding : non_expanding re_link.
Proof.
  intros prev s out last rest. unfold re_link.
  destruct s as [|c t]; [discriminate|].
  destruct (N.eqb_spec c 91) as [->|Hc].
  2:{ destruct c as [|p]; [discriminate|].
      repeat (destruct p as [p|p|]; try discriminate). now elim Hc. }
  pose proof (take_drop_while_length (not_unit 93) t) as H1.
  destruct (take_while (not_unit 93) t) as [|x xs]; [discriminate|].
  destruct (drop_while (not_unit 93) t) as [|c1 [|c2 r2]]; try discriminate.
  { destruct c1 as [|p]; [discriminate|].
    repeat (destruct p as [p|p|]; try discriminate). }
  destruct (N.eqb_spec c1 93) as [->|Hc1].
  2:{ destruct c1 as [|p]; [discriminate|].
      repeat (destruct p as [p|p|]; try discriminate). now elim Hc1. }
  destruct (N.eqb_spec c2 40) as [->|Hc2].
  2:{ destruct c2 as [|p]; [discriminate|].
      repeat (destruct p as [p|p|]; try discriminate). now elim Hc2. }
  destruct (take_while (not_unit 41) r2) as [|y ys]; [discriminate|].
  pose proof (drop_while_length (not_unit 41) r2) as H2.
  destruct (drop_while (not_unit 41) r2) as [|c3 r4]; [discriminate|].
  destruct (N.eqb_spec c3 41) as [->|Hc3].
  2:{ destruct c3 as [|p]; [discriminate|].
      repeat (destruct p as [p|p|]; try discriminate). now elim Hc3. }
  intros H. inversion H; subst. cbn [length] in *. lia.
Qed.

Lemma re_list_non_expanding : non_expanding re_list.
Proof.
  intros prev s out last rest Hm.
  pose proof (re_list_shrinking _ _ _ _ _ Hm) as Hs.
  unfold re_list in Hm.
  destruct (at_line_start prev); [|discriminate].
  destruct s as [|c t]; [discriminate|].
  destruct ((c =? 45)%N || (c =? 42)%N || (c =? 43)%N); [|discriminate].
  destruct (take_while is_space t) as [|w ws]; [discriminate|].
  inversion Hm; subst. cbn [length] in *. lia.
Qed.

Lemma re_newlines_non_expanding : non_expanding re_newlines.
Proof.
  intros prev s out last rest. unfold re_newlines.
  destruct (3 <=? length (take_while (N.eqb 10) s)) eqn:E; [|discriminate].
  apply Nat.leb_le in E. intros H. inversion H; subst.
  pose proof (take_drop_while_length (N.eqb 10) s). cbn [length]. lia.
Qed.

Lemma re_crlf_non_expanding : non_expanding re_crlf.
Proof.
  intros prev s out last rest Hm.
  pose proof (re_crlf_shrinking _ _ _ _ _ Hm) as Hs.
  unfold re_crlf in Hm.
  destruct s as [|c1 [|c2 r]]; try discriminate.
  { destruct c1 as [|p]; [discriminate|].
    repeat (destruct p as [p|p|]; try discriminate). }
  destruct (N.eqb_spec c1 13) as [->|Hc1].
  2:{ destruct c1 as [|p]; [discriminate|].
      repeat (destruct p as [p|p|]; try discriminate). now elim Hc1. }
  destruct (N.eqb_spec c2 10) as [->|Hc2].
  2:{ destruct c2 as [|p]; [discriminate|].
      repeat (destruct p as [p|p|]; try discriminate). now elim Hc2. }
  inversion Hm; subst. cbn [length] in *. lia.
Qed.

Lemma replace_all_length (m : matcher) :
  non_expanding m ->
  forall fuel prev s, length (replace_all m fuel prev s) <= length s.
Proof.
  intros Hm. induction fuel as [|fuel IH]; intros prev s; cbn [replace_all]; [lia|].
  destruct (m prev s) as [[[out last] rest]|] eqn:E.
  - pose proof (Hm _ _ _ _ _ E). pose proof (IH (Some last) rest).
    rewrite length_app. lia.
  - destruct s as [|c t]; [cbn; lia|]. cbn [length]. pose proof (IH (Some c) t). lia.
Qed.

Lemma replace_g_length (m : matcher) (s : jsstring) :
  non_expanding m -> length (replace_g m s) <= length s.
Proof. intros Hm. now apply replace_all_length. Qed.

Lemma trim_length (s : jsstring) : length (trim s) <= length s.
Proof.
  unfold trim, trimEnd, trimStart. rewrite length_rev.
  pose proof (drop_while_length is_space (rev (drop_while is_space s))).
  rewrite length_rev in H. pose proof (drop_while_length is_space s). lia.
Qed.

(** X1: the clean-up chain never lengthens a text.  Each of its seven
    replacements emits at most what it consumed (the captured group, two
    newlines for a longer run, or nothing) and [trim] only removes, so
    the cleaned text has at most as many code units as the generated
    one. *)
Theorem X1_cleanText_never_longer (text : jsstring) :
  length (cleanText text) <= length text.
Proof.
  unfold cleanText.
  pose proof (replace_g_length re_bold text (re_wrapped_non_expanding _)) as H1.
  set (t1 := replace_g re_bold text) in *.
  pose proof (replace_g_length re_italic t1 (re_wrapped_non_expanding _)) as H2.
  set (t2 := replace_g re_italic t1) in *.
  pose proof (replace_g_length re_code t2 (re_wrapped_non_expanding _)) as H3.
  set (t3 := replace_g re_code t2) in *.
  pose proof (replace_g_length re_heading t3 re_heading_non_expanding) as H4.
  set (t4 := replace_g re_heading t3) in *.
  pose proof (replace_g_length re_link t4 re_link_non_expanding) as H5.
  set (t5 := replace_g re_link t4) in *.
  pose proof (replace_g_length re_list t5 re_list_non_expanding) as H6.
  set (t6 := replace_g re_list t5) in *.
  pose proof (replace_g_length re_newlines t6 re_newlines_non_expanding) as H7.
  set (t7 := replace_g re_newlines t6) in *.
  pose proof (trim_length t7). lia.
Qed.

Lemma no_triple_newline_suffix (a b : jsstring) :
  no_triple_newline (a ++ b) = true -> no_triple_newline b = true.
Proof.
  induction a as [|c t IH]; [auto|].
  change ((c :: t) ++ b) with (c :: (t ++ b)).
  rewrite no_triple_newline_cons. intros [_ H]%andb_prop. auto.
Qed.

Lemma no_triple_newline_occurs (s : jsstring) :
  no_triple_newline s = true -> ~ occurs_in [10; 10; 10]%N s.
Proof.
  intros H (a & b & E). subst s. apply no_triple_newline_suffix in H.
  cbn in H. discriminate.
Qed.

(** X2: whatever the generated text, the cleaned text is trimmed (it
    neither starts nor ends with white space or a line terminator) and
    nowhere has three newlines in a row. *)
Theorem X2_cleanText_normal_form (text : jsstring) :
  trim (cleanText text) = cleanText text /\
  ~ occurs_in (nl ++ nl ++ nl) (cleanText text).
Proof.
  split; [apply cleanText_trimmed|].
  apply no_triple_newline_occurs, cleanText_no_triple_newline.
Qed.

(** X3: on a text without markup (no star, backtick or opening bracket,
    no line that starts with a heading or list marker) the clean-up only
    collapses the runs of three or more newlines and trims; every other
    code unit, Vietnamese letters with their diacritics included, is left
    as it is.  If moreover the text has no such run and is trimmed, it is
    returned unchanged. *)
Theorem X3_cleanText_keeps_plain_text (text : jsstring) :
  markup_free text = true ->
  cleanText text = trim (replace_g re_newlines text) /\
  (no_triple_newline text = true -> trim text = text -> cleanText text = text).
Proof.
  intros Hfree. unfold markup_free in Hfree.
  apply andb_prop in Hfree as [Hinline Hline].
  assert (E : cleanText text = trim (replace_g re_newlines text)).
  { unfold cleanText, re_bold, re_italic, re_code.
    rewrite (replace_wrapped_id 42 [42%N] text eq_refl Hinline).
    rewrite (replace_wrapped_id 42 [] text eq_refl Hinline).
    rewrite (replace_wrapped_id 96 [] text eq_refl Hinline).
    rewrite (replace_heading_id text Hline).
    rewrite (replace_link_id text Hinline).
    now rewrite (replace_list_id text Hinline Hline). }
  split; [exact E|].
  intros Hn Ht. rewrite E, (replace_newlines_id text Hn). exact Ht.
Qed.

(** X3 on a Vietnamese text with a long run of newlines and trailing
    spaces. *)
Lemma X3_witness :
  markup_free plain_vietnamese = true /\
  cleanText plain_vietnamese =
  js "Giá vàng hôm nay tăng." ++ nl ++ nl ++ js "1. Nguồn cung giảm".
Proof.
  split; [vm_compute; reflexivity|].
  rewrite (proj1 (X3_cleanText_keeps_plain_text plain_vietnamese eq_refl)).
  vm_compute. reflexivity.
Defined.

Lemma find_last_index_none {A : Type} (p : A -> bool) (l : list A) : forall i,
  forallb (fun x => negb (p x)) l = true -> find_last_index p i l = None.
Proof.
  induction l as [|x l IH]; intros i; [reflexivity|].
  cbn [forallb find_last_index]. intros [Hx Hl]%andb_prop.
  rewrite (IH _ Hl). apply negb_true_iff in Hx. now rewrite Hx.
Qed.

Lemma find_last_index_last {A : Type} (p : A -> bool) (pre : list A) h post :
  p h = true -> forallb (fun x => negb (p x)) post = true ->
  forall i, find_last_index p i (pre ++ h :: post) = Some (i + length pre).
Proof.
  intros Hh Hpost. induction pre as [|x pre IH]; intros i.
  - cbn [app find_last_index length]. rewrite (find_last_index_none _ _ _ Hpost), Hh.
    f_equal. lia.
  - cbn [app find_last_index length]. rewrite IH. f_equal. lia.
Qed.

(** X4: [stripReferenceSection] cuts at the last heading line.  When the
    lines of the text (CRLF read as LF) are [before], then a line that in
    simplified form starts with nguon tham khao, then lines [after] none
    of which does, the result is the lines [before], joined and trimmed:
    the heading and everything below it go, and an earlier heading among
    [before] stays. *)
Theorem X4_stripReferenceSection_cuts_at_last_heading (pf : Platform)
  (text : jsstring) (before : list jsstring) (heading : jsstring)
  (after : list jsstring) :
  truthy text = true ->
  split_on 10 (replace_g re_crlf text) = before ++ heading :: after ->
  heading_line pf heading = true ->
  forallb (fun line => negb (heading_line pf line)) after = true ->
  stripReferenceSection pf text = trim (join nl before).
Proof.
  intros Ht Hsplit Hh Hafter. unfold stripReferenceSection. rewrite Ht. cbn [negb].
  cbv zeta. rewrite Hsplit.
  change (fun l : jsstring => startsWith (simplified pf l) (js "nguon tham khao"))
    with (heading_line pf).
  rewrite (find_last_index_last (heading_line pf) before heading after Hh Hafter 0).
  cbn [Nat.add]. now rewrite firstn_app, firstn_all, Nat.sub_diag, firstn_O, app_nil_r.
Qed.

(** X4 on an answer with two reference headings: the first one stays. *)
Lemma X4_witness :
  stripReferenceSection ascii_platform answer_with_two_headings =
  js "Tra loi" ++ nl ++ js "Nguon tham khao:" ++ nl ++ js "1) a".
Proof.
  rewrite (X4_stripReferenceSection_cuts_at_last_heading ascii_platform
             answer_with_two_headings
             [js "Tra loi"; js "Nguon tham khao:"; js "1) a"]
             (js "  NGUON THAM KHAO") [js "2) b"]);
    vm_compute; reflexivity.
Defined.

Lemma split_on_nonempty (sep : N) (s : jsstring) : split_on sep s <> [].
Proof.
  destruct s as [|c t]; cbn [split_on]; [discriminate|].
  destruct (c =? sep)%N; [discriminate|]. now destruct (split_on sep t).
Qed.

(** Splitting on a separator and joining with it gives the string back. *)
Lemma join_split_on (sep : N) (s : jsstring) : join [sep] (split_on sep s) = s.
Proof.
  induction s as [|c t IH]; [reflexivity|]. cbn [split_on].
  pose proof (split_on_nonempty sep t) as Hne.
  destruct (N.eqb_spec c sep) as [->|Hc].
  - destruct (split_on sep t) as [|l ls] eqn:E; [contradiction|].
    cbn [join]. cbn [join] in IH. now rewrite IH.
  - destruct (split_on sep t) as [|l ls] eqn:E; [contradiction|].
    cbn [join]. cbn [join] in IH. destruct ls; cbn [app]; now rewrite <- IH.
Qed.

Lemma join_firstn (sep : jsstring) (l : list jsstring) : forall i,
  exists rest, join sep l = join sep (firstn i l) ++ rest.
Proof.
  induction l as [|x l IH]; intros i.
  - exists []. now rewrite firstn_nil.
  - destruct i as [|i]; [now exists (join sep (x :: l))|].
    cbn [firstn]. destruct (IH i) as [rest Hrest].
    destruct l as [|y l]; [exists []; rewrite firstn_nil; cbn; now rewrite app_nil_r|].
    destruct (firstn i (y :: l)) as [|z zs] eqn:E.
    + exists (sep ++ join sep (y :: l)). reflexivity.
    + exists rest. change (join sep (x :: y :: l)) with (x ++ sep ++ join sep (y :: l)).
      change (join sep (x :: z :: zs)) with (x ++ sep ++ join sep (z :: zs)).
      rewrite Hrest. now rewrite <- !app_assoc.
Qed.

Lemma trim_occurs (s : jsstring) : occurs_in (trim s) s.
Proof.
  unfold trim. destruct (trimEnd_prefix (trimStart s)) as [w Hw].
  exists (take_while is_space s), w. rewrite <- Hw. unfold trimStart.
  now rewrite take_drop_while.
Qed.

(** X5: what [stripReferenceSection] returns is a contiguous piece of the
    text with CRLF read as LF: nothing is inserted or reordered.  The
    piece is trimmed and no longer than the text. *)
Theorem X5_stripReferenceSection_returns_a_piece (pf : Platform) (text : jsstring) :
  occurs_in (stripReferenceSection pf text) (replace_g re_crlf text) /\
  trim (stripReferenceSection pf text) = stripReferenceSection pf text /\
  length (stripReferenceSection pf text) <= length text.
Proof.
  unfold stripReferenceSection. destruct text as [|c t]; cbn [truthy negb].
  { split; [exists [], []; reflexivity|]. split; [reflexivity | lia]. }
  cbv zeta. set (normalized := replace_g re_crlf (c :: t)).
  pose proof (replace_g_length re_crlf (c :: t) re_crlf_non_expanding) as Hlen.
  fold normalized in Hlen.
  destruct (find_last_index _ 0 (split_on 10 normalized)) as [i|].
  - destruct (join_firstn nl (split_on 10 normalized) i) as [rest Hrest].
    unfold nl in Hrest at 1. rewrite join_split_on in Hrest.
    set (kept := join nl (firstn i (split_on 10 normalized))) in *.
    split; [|split].
    + destruct (trim_occurs kept) as (a & b & E).
      exists a, (b ++ rest). rewrite Hrest, E at 1. now rewrite <- !app_assoc.
    + apply trim_idem.
    + pose proof (trim_length kept). apply (f_equal (@length N)) in Hrest.
      rewrite length_app in Hrest. lia.
  - split; [apply trim_occurs|]. split; [apply trim_idem|].
    pose proof (trim_length normalized). lia.
Qed.

(* ===================================================================== *)
(** ** Further properties: uploads and the preparation of messages *)
(* ===================================================================== *)

Lemma mapi_from_ext {A B : Type} (f g : nat -> A -> B) (l : list A) : forall i,
  (forall k x, f (i + k) x = g (i + k) x) -> mapi_from f i l = mapi_from g i l.
Proof.
  induction l as [|x l IH]; intros i H; [reflexivity|].
  cbn [mapi_from]. f_equal.
  - specialize (H 0 x). now rewrite Nat.add_0_r in H.
  - apply IH. intros k y. specialize (H (S k) y). now rewrite Nat.add_succ_r in H.
Qed.

Lemma mapi_from_shift {A B : Type} (f : nat -> A -> B) (l : list A) : forall i,
  mapi_from f (S i) l = mapi_from (fun k => f (S k)) i l.
Proof.
  induction l as [|x l IH]; intros i; [reflexivity|].
  cbn [mapi_from]. now rewrite IH.
Qed.

(** The handles the loop returns, in closed form: document [i] is
    uploaded after the documents before it, and contributes its handle
    exactly when its own upload did not throw. *)
Lemma upload_each_handles (W : World) (fs : list File) : forall log,
  upload_each W fs log =
  (Ok (concat (mapi (fun i file =>
                       pushed_handle file
                         (gemini_upload W
                            (log ++ map EvUpload (firstn i (filter needsUpload fs))) file))
                    (filter needsUpload fs))),
   log ++ map EvUpload (filter needsUpload fs)).
Proof.
  induction fs as [|f fs IH]; intros log.
  - cbn. now rewrite app_nil_r.
  - cbn [upload_each filter]. destruct (needsUpload f); [|apply IH].
    unfold bind at 1. unfold call at 1. cbn beta iota.
    unfold mapi. cbn [mapi_from concat firstn map]. rewrite app_nil_r.
    rewrite mapi_from_shift.
    rewrite (mapi_from_ext
               (fun k file => pushed_handle file
                  (gemini_upload W
                     (log ++ map EvUpload (firstn (S k) (f :: filter needsUpload fs))) file))
               (fun k file => pushed_handle file
                  (gemini_upload W
                     ((log ++ [EvUpload f])
                      ++ map EvUpload (firstn k (filter needsUpload fs))) file))).
    2:{ intros k x. cbn [firstn map]. now rewrite <- app_assoc. }
    fold (mapi (fun k file => pushed_handle file
                  (gemini_upload W
                     ((log ++ [EvUpload f])
                      ++ map EvUpload (firstn k (filter needsUpload fs))) file))
               (filter needsUpload fs)).
    destruct (gemini_upload W log f) as [uri name mt|].
    + unfold bind, ret. rewrite IH. cbn [pushed_handle app map]. now rewrite <- app_assoc.
    + rewrite IH. cbn [pushed_handle app map]. now rewrite <- app_assoc.
Qed.

Lemma pushed_handles_kept (reply : nat -> File -> UploadReply) (docs : list File) :
  forall i,
    subseq (map originalFile (concat (mapi_from (fun k file => pushed_handle file (reply k file)) i docs)))
           docs /\
    ((forall k file, reply k file <> UploadThrows) ->
     map originalFile (concat (mapi_from (fun k file => pushed_handle file (reply k file)) i docs))
     = docs).
Proof.
  induction docs as [|d docs IH]; intros i.
  - split; [constructor | reflexivity].
  - cbn [mapi_from concat]. destruct (IH (S i)) as [Hsub Hall].
    rewrite map_app. destruct (reply i d) as [uri name mt|] eqn:E.
    + cbn [pushed_handle map app originalFile]. split; [now constructor|].
      intros H. now rewrite (Hall H).
    + cbn [pushed_handle map app]. split; [now constructor|].
      intros H. now elim (H i d).
Qed.

(** X6: [uploadFilesToGeminiSDK] never throws.  It calls the Files API
    once for each file whose type is one of the six document types, in
    the order of the request, and for no other file (none at all without
    a Google key).  The handles it returns are exactly those of the
    uploads that did not throw, in that order: a document contributes the
    handle built from the reply to its own upload, made after the uploads
    of the documents before it, and nothing when that upload threw.  So
    the files of the handles are a subsequence of the documents, and when
    no upload fails there is one handle per document. *)
Theorem X6_uploadFilesToGeminiSDK_keeps_order (env : Env) (W : World)
  (fs : list File) log :
  let documents :=
    if opt_truthy (GOOGLE_API_KEY env) then filter needsUpload fs else [] in
  let reply i file := gemini_upload W (log ++ map EvUpload (firstn i documents)) file in
  let handles := concat (mapi (fun i file => pushed_handle file (reply i file)) documents) in
  uploadFilesToGeminiSDK env W fs log = (Ok handles, log ++ map EvUpload documents) /\
  subseq (map originalFile handles) documents /\
  (uploads_succeed W -> map originalFile handles = documents).
Proof.
  intros documents reply handles.
  destruct (pushed_handles_kept reply documents 0) as [Hsub Hall].
  split; [|split].
  - subst handles reply documents. unfold uploadFilesToGeminiSDK.
    destruct (opt_truthy (GOOGLE_API_KEY env)); cbn [negb].
    + apply upload_each_handles.
    + cbn. now rewrite app_nil_r.
  - exact Hsub.
  - intros HW. apply Hall. intros k file. apply HW.
Qed.

(** X6 on a Word document whose upload fails, an image and a PDF. *)
Lemma X6_witness :
  uploadFilesToGeminiSDK all_keys word_upload_fails [docx; png; pdf] [] =
  (Ok [{| originalFile := pdf; fileUri := js "files/1"; up_name := js "b.pdf";
          up_mimeType := js "application/pdf" |}],
   [EvUpload docx; EvUpload pdf]).
Proof.
  exact (proj1 (X6_uploadFilesToGeminiSDK_keeps_order all_keys word_upload_fails
                  [docx; png; pdf] [])).
Defined.

Lemma map_last_app {A : Type} (f : A -> A) (l : list A) x :
  map_last f (l ++ [x]) = l ++ [f x].
Proof.
  induction l as [|y l IH]; [reflexivity|].
  cbn [app]. destruct (l ++ [x]) eqn:E; [now destruct l|].
  cbn [map_last]. cbn [map_last] in IH. now rewrite IH.
Qed.

Lemma map_last_length {A : Type} (f : A -> A) (l : list A) :
  length (map_last f l) = length l.
Proof.
  induction l as [|y l IH]; [reflexivity|].
  destruct l; [reflexivity|]. cbn [map_last length] in *. now rewrite IH.
Qed.

Lemma last_cases {A : Type} (l : list A) : l = [] \/ exists l' x, l = l' ++ [x].
Proof.
  destruct l as [|a l]; [now left|]. right.
  destruct (@exists_last _ (a :: l)) as (l' & x & E); [discriminate|]. eauto.
Qed.

Lemma last_opt_app {A : Type} (l : list A) x : last_opt (l ++ [x]) = Some x.
Proof.
  induction l as [|y l IH]; [reflexivity|].
  cbn [app]. destruct (l ++ [x]) eqn:E; [now destruct l|]. exact IH.
Qed.

Lemma Forall_map_last {A : Type} (P : A -> Prop) (f : A -> A) (l : list A) :
  (forall x, P x -> P (f x)) -> Forall P l -> Forall P (map_last f l).
Proof.
  intros Hf H. destruct (last_cases l) as [->|(l' & x & ->)]; [constructor|].
  rewrite map_last_app. apply Forall_app in H as [H1 H2]. apply Forall_app.
  split; [exact H1|]. inversion H2; subst. constructor; auto.
Qed.

Lemma gemini_role_cases (r : jsstring) :
  gemini_role r = js "user" \/ gemini_role r = js "model".
Proof. unfold gemini_role. destruct (eqb r (js "assistant")); auto. Qed.

Lemma process_each_contents (W : World) (cs : jsstring) (ms : list Message) :
  forall log cts ps l,
    process_each W cs ms log = (Ok (cts, ps), l) ->
    length cts <= length ms /\ Forall well_formed_content cts.
Proof.
  induction ms as [|m ms IH]; intros log cts ps l H.
  - cbn in H. inversion H; subst. split; [cbn; lia | constructor].
  - cbn [process_each] in H.
    assert (Hcons : forall parts cts' ps' l2 l',
               process_each W cs ms l2 = (Ok (cts', ps'), l') ->
               let cts0 := match parts with
                           | [] => cts'
                           | _ => {| g_role := gemini_role (msg_role m);
                                     g_parts := parts |} :: cts'
                           end in
               length cts0 <= length (m :: ms) /\ Forall well_formed_content cts0).
    { intros parts cts' ps' l2 l' E2.
      destruct (IH _ _ _ _ E2) as [Hlen Hall]. cbn [length].
      destruct parts as [|p parts]; [split; [lia | exact Hall]|].
      split; [cbn [length]; lia|]. constructor; [|exact Hall].
      split; [discriminate | apply gemini_role_cases]. }
    destruct (msg_content m) as [s|ps0].
    + unfold bind at 1 in H. unfold bind at 1 in H.
      rewrite convertToPromptChatGPT_run in H.
      destruct (openai_chat W log (rewrite_request cs s)) as [msg| |c];
        cbn beta iota in H; [discriminate| |];
        unfold ret at 1 in H; cbn beta iota in H; unfold bind at 1 in H;
        destruct (process_each W cs ms (log ++ [EvOpenAI (rewrite_request cs s)]))
          as [[[cts' ps']|msg] l1] eqn:E; try discriminate;
        unfold ret in H; inversion H; subst;
        apply (Hcons [GText _] _ _ _ _ E).
    + unfold bind at 1 in H. unfold ret at 1 in H. cbn beta iota in H.
      unfold bind at 1 in H.
      destruct (process_each W cs ms log) as [[[cts' ps']|msg] l1] eqn:E; [|discriminate].
      unfold ret in H. inversion H; subst.
      apply (Hcons (flat_map part_to_gemini ps0) _ _ _ _ E).
Qed.

Lemma push_to_last_user_well_formed extra cts :
  Forall well_formed_content cts -> Forall well_formed_content (push_to_last_user extra cts).
Proof.
  apply Forall_map_last. intros c [Hp Hr].
  destruct (eqb (g_role c) (js "user")); [|now split].
  split; [|exact Hr]. cbn [g_parts]. destruct (g_parts c); [contradiction|discriminate].
Qed.

(** X7: the contents [processMessagesForGoogleSDK] returns are never more
    than the messages; each has at least one part and the role user or
    model.  A message that yields no part is left out. *)
Theorem X7_processMessagesForGoogleSDK_contents (W : World) (cs : jsstring)
  (ms : list Message) (fs : list File) (ups : list UploadedFile) log cts ps l :
  processMessagesForGoogleSDK W cs ms fs ups log = (Ok (cts, ps), l) ->
  length cts <= length ms /\ Forall well_formed_content cts.
Proof.
  intros H. destruct (process_each W cs ms log) as [[[cts0 ps0]|msg] l0] eqn:E.
  - rewrite (processMessagesForGoogleSDK_ok W cs ms fs ups log _ _ _ E) in H.
    inversion H; subst. destruct (process_each_contents _ _ _ _ _ _ _ E) as [Hlen Hall].
    split.
    + unfold push_to_last_user. now rewrite !map_last_length.
    + now do 2 apply push_to_last_user_well_formed.
  - rewrite (processMessagesForGoogleSDK_throw W cs ms fs ups log _ _ E) in H.
    discriminate.
Qed.

(** X7 on the four-turn conversation with an image attached. *)
Lemma X7_witness :
  exists cts ps l,
    processMessagesForGoogleSDK steady_world Perplexity.CONTENT_SYSTEM four_turns
      [png] [] [] = (Ok (cts, ps), l) /\
    length cts <= length four_turns /\ Forall well_formed_content cts.
Proof.
  eexists _, _, _. split; [vm_compute; reflexivity|].
  eapply (X7_processMessagesForGoogleSDK_contents steady_world Perplexity.CONTENT_SYSTEM
            four_turns [png] [] []).
  vm_compute. reflexivity.
Defined.

Lemma push_to_last_user_nil (cts : list GeminiContent) : push_to_last_user [] cts = cts.
Proof.
  unfold push_to_last_user.
  destruct (last_cases cts) as [->|(l' & x & ->)]; [reflexivity|].
  rewrite map_last_app. f_equal. destruct x as [r p]. cbn [g_role g_parts].
  rewrite app_nil_r. now destruct (eqb r (js "user")).
Qed.

Lemma push_to_last_user_twice (a b : list GeminiPart) (cts : list GeminiContent) :
  push_to_last_user b (push_to_last_user a cts) = push_to_last_user (a ++ b) cts.
Proof.
  unfold push_to_last_user.
  destruct (last_cases cts) as [->|(l' & x & ->)]; [reflexivity|].
  rewrite !map_last_app. f_equal.
  destruct (eqb (g_role x) (js "user")) eqn:E; cbn [g_role g_parts]; rewrite E;
    [now rewrite app_assoc | reflexivity].
Qed.

(** X8: attachments are pushed onto the last content and nowhere else,
    the uploaded documents first and the inline images after them, and
    only when that content is a user turn: when the last content is a
    model turn the attachments are dropped.  The earlier contents and the
    recorded prompts are what they are without attachments. *)
Theorem X8_attachments_go_to_the_last_user_content (W : World) (cs : jsstring)
  (ms : list Message) (fs : list File) (ups : list UploadedFile) log earlier c ps l :
  processMessagesForGoogleSDK W cs ms [] [] log = (Ok (earlier ++ [c], ps), l) ->
  processMessagesForGoogleSDK W cs ms fs ups log =
  (Ok (earlier ++
       [if eqb (g_role c) (js "user")
        then {| g_role := g_role c;
                g_parts := g_parts c ++ map file_data_part ups
                           ++ flat_map inline_image fs |}
        else c], ps), l).
Proof.
  intros H. destruct (process_each W cs ms log) as [[[cts0 ps0]|msg] l0] eqn:E.
  - rewrite (processMessagesForGoogleSDK_ok W cs ms [] [] log _ _ _ E) in H.
    rewrite (processMessagesForGoogleSDK_ok W cs ms fs ups log _ _ _ E).
    cbn [map flat_map] in H. rewrite !push_to_last_user_nil in H.
    inversion H; subst. rewrite push_to_last_user_twice.
    unfold push_to_last_user. now rewrite map_last_app.
  - rewrite (processMessagesForGoogleSDK_throw W cs ms [] [] log _ _ E) in H.
    discriminate.
Qed.

(** X8 on a conversation that ends with a model turn: the image is
    dropped. *)
Lemma X8_witness :
  processMessagesForGoogleSDK steady_world Perplexity.CONTENT_SYSTEM assistant_last
    [png] [] [] =
  processMessagesForGoogleSDK steady_world Perplexity.CONTENT_SYSTEM assistant_last
    [] [] [].
Proof.
  rewrite (X8_attachments_go_to_the_last_user_content steady_world
             Perplexity.CONTENT_SYSTEM assistant_last [png] [] []
             [{| g_role := js "user";
                 g_parts := [GText (js "Tra loi ngan gon: Xin chao")] |}]
             {| g_role := js "model"; g_parts := [GText (js "Chao ban")] |}
             [{| p_system := Perplexity.CONTENT_SYSTEM; p_user := js "Xin chao";
                 p_output := js "Tra loi ngan gon: Xin chao" |}]
             [EvOpenAI (rewrite_request Perplexity.CONTENT_SYSTEM (js "Xin chao"))]);
    vm_compute; reflexivity.
Defined.

Lemma take_while_app_stop (p : N -> bool) (a : jsstring) c (r : jsstring) :
  forallb p a = true -> p c = false ->
  take_while p (a ++ c :: r) = a /\ drop_while p (a ++ c :: r) = c :: r.
Proof.
  intros Ha Hc. induction a as [|x a IH]; cbn [app take_while drop_while].
  - now rewrite Hc.
  - cbn [forallb] in Ha. apply andb_prop in Ha as [Hx Ha]. rewrite Hx.
    destruct (IH Ha) as [-> ->]. now split.
Qed.

(** Building a data URL and parsing it gives the two components back. *)
Lemma parse_data_url_built (mime data : jsstring) :
  truthy mime = true -> forallb (not_unit 59) mime = true ->
  truthy data = true -> forallb (fun c => negb (is_line_terminator c)) data = true ->
  parse_data_url (js "data:" ++ mime ++ js ";base64," ++ data) = Some (mime, data).
Proof.
  intros Hm Hsemi Hd Hline. unfold parse_data_url.
  rewrite startsWith_app.
  replace (skipn 5 (js "data:" ++ mime ++ js ";base64," ++ data))
    with (mime ++ js ";base64," ++ data) by reflexivity.
  replace (js ";base64," ++ data) with (59%N :: skipn 1 (js ";base64,") ++ data)
    by reflexivity.
  destruct (take_while_app_stop (not_unit 59) mime 59%N
              (skipn 1 (js ";base64,") ++ data) Hsemi eq_refl) as [-> ->].
  rewrite Hm. cbn [andb].
  replace (59%N :: skipn 1 (js ";base64,") ++ data) with (js ";base64," ++ data)
    by reflexivity.
  rewrite startsWith_app.
  replace (skipn 8 (js ";base64," ++ data)) with data by reflexivity.
  now rewrite Hd, Hline.
Qed.

Lemma startsWith_truthy (s p : jsstring) :
  startsWith s p = true -> truthy p = true -> truthy s = true.
Proof. destruct p; [discriminate|]. now destruct s. Qed.

(** X9: the data URL [processMessagesForOpenAI] builds for an image is
    read back by [processMessagesForGoogleSDK] as the inline data of that
    image: same type, same data as a direct attachment.  This needs a
    type without a semicolon and non-empty data without a line
    terminator, which is what the expression that parses the URL
    accepts. *)
Theorem X9_openai_image_decodes_to_inline_data (file : File) :
  startsWith (file_type file) (js "image/") = true ->
  forallb (not_unit 59) (file_type file) = true ->
  truthy (file_data file) = true ->
  forallb (fun c => negb (is_line_terminator c)) (file_data file) = true ->
  flat_map part_to_gemini (openai_file_parts file) = inline_image file.
Proof.
  intros Himg Hsemi Hd Hline. unfold openai_file_parts, inline_image. rewrite Himg.
  assert (Hm : truthy (file_type file) = true)
    by (eapply startsWith_truthy; eauto).
  cbn [flat_map part_to_gemini app].
  rewrite (parse_data_url_built _ _ Hm Hsemi Hd Hline).
  replace (js "data:" ++ file_type file ++ js ";base64," ++ file_data file)
    with (100%N :: skipn 1 (js "data:") ++ file_type file ++ js ";base64,"
                ++ file_data file) by reflexivity.
  reflexivity.
Qed.

(** X9 on a PNG file. *)
Lemma X9_witness :
  flat_map part_to_gemini (openai_file_parts png) =
  [GInlineData (js "image/png") (js "iVBORw0KGgo=")].
Proof.
  rewrite (X9_openai_image_decodes_to_inline_data png); vm_compute; reflexivity.
Defined.

Lemma removelast_app_one {A : Type} (l : list A) x : removelast (l ++ [x]) = l.
Proof. rewrite removelast_app; [|discriminate]. cbn. apply app_nil_r. Qed.

(** X10: [processMessagesForOpenAI] changes at most the content of the
    last message: roles and all earlier messages are kept.  Without files,
    or when the last message is not a user turn, the conversation is
    returned as it is; otherwise the content of the last message becomes
    its text part (or its parts) followed by one part per image or PDF
    file, in the order of the files, files of any other type being left
    out. *)
Theorem X10_processMessagesForOpenAI_touches_last_only (ms : list Message)
  (fs : list File) :
  map msg_role (processMessagesForOpenAI ms fs) = map msg_role ms /\
  removelast (processMessagesForOpenAI ms fs) = removelast ms /\
  processMessagesForOpenAI ms [] = ms /\
  (forall m, last_opt ms = Some m -> eqb (msg_role m) (js "user") = false ->
             processMessagesForOpenAI ms fs = ms) /\
  (forall m, last_opt ms = Some m -> eqb (msg_role m) (js "user") = true ->
             fs <> [] ->
             last_opt (processMessagesForOpenAI ms fs) =
             Some {| msg_role := msg_role m;
                     msg_content :=
                       CParts ((match msg_content m with
                                | CString s => [TextPart s]
                                | CParts ps => ps
                                end) ++ flat_map openai_file_parts fs) |}).
Proof.
  unfold processMessagesForOpenAI.
  destruct (last_cases ms) as [->|(l' & x & ->)].
  { rewrite andb_false_r. repeat split; try reflexivity; discriminate. }
  rewrite last_opt_app.
  destruct fs as [|f fs].
  { cbn [length Nat.ltb Nat.leb andb]. repeat split; try reflexivity.
    intros m _ _ H. now elim H. }
  replace (0 <? length (l' ++ [x])) with true
    by (symmetry; apply Nat.ltb_lt; rewrite length_app; cbn [length]; lia).
  cbn [length Nat.ltb Nat.leb andb]. rewrite map_last_app.
  rewrite !removelast_app_one, !map_app, last_opt_app. cbn [map].
  destruct (eqb (msg_role x) (js "user")) eqn:E; repeat split; try reflexivity.
  - intros m H. inversion H; subst. congruence.
  - intros m H. now inversion H; subst.
  - intros m H. inversion H; subst. congruence.
Qed.

(** X10 on a question with an image, a Word document and a PDF: the Word
    document is left out. *)
Lemma X10_witness :
  last_opt (processMessagesForOpenAI [user_says (js "Xin chao")] [png; docx; pdf]) =
  Some {| msg_role := js "user";
          msg_content :=
            CParts [TextPart (js "Xin chao");
                    ImageUrlPart (Some (js "data:image/png;base64,iVBORw0KGgo="));
                    TextPart (js "[PDF File: b.pdf - Note: OpenAI cannot directly " ++
                              js "process PDF files. Please extract text content " ++
                              js "manually.]")] |}.
Proof.
  destruct (X10_processMessagesForOpenAI_touches_last_only
              [user_says (js "Xin chao")] [png; docx; pdf]) as (_ & _ & _ & _ & H).
  rewrite (H (user_says (js "Xin chao")) eq_refl eq_refl); [|discriminate].
  vm_compute. reflexivity.
Defined.

(* ===================================================================== *)
(** ** Further properties: what holds of every request *)
(* ===================================================================== *)

Lemma or_else_truthy (a b : jsstring) : truthy b = true -> truthy (or_else a b) = true.
Proof. intros Hb. unfold or_else. now destruct (truthy a) eqn:E. Qed.

Lemma opt_or_truthy (a : option jsstring) (b : jsstring) :
  truthy b = true -> truthy (opt_or a b) = true.
Proof. intros H. destruct a as [s|]; [now apply or_else_truthy | exact H]. Qed.

Lemma error_response_envelope st msg ty :
  truthy msg = true -> existsb (Nat.eqb st) [400; 401; 429; 500; 502] = true ->
  envelope (error_response st msg ty) = true.
Proof.
  intros Hm Hs. unfold envelope, error_response. cbn [text body error status].
  now rewrite Hm, Hs.
Qed.

Lemma Perplexity_workflow_error_envelope fb msg :
  truthy fb = true -> envelope (Perplexity.workflow_error fb msg) = true.
Proof.
  intros H. apply error_response_envelope; [now apply or_else_truthy | reflexivity].
Qed.

Lemma Tavily_workflow_error_envelope fb msg :
  truthy fb = true -> envelope (Tavily.workflow_error fb msg) = true.
Proof.
  intros H. apply error_response_envelope; [now apply or_else_truthy | reflexivity].
Qed.

Lemma search_error_envelope msg : envelope (Perplexity.search_error_response msg) = true.
Proof. apply error_response_envelope; [now apply or_else_truthy | reflexivity]. Qed.

Lemma Perplexity_google_error_envelope msg : envelope (Perplexity.google_error msg) = true.
Proof.
  unfold Perplexity.google_error.
  destruct (includes msg (js "API key")); [reflexivity|].
  destruct (includes msg (js "quota") || includes msg (js "limit")); [reflexivity|].
  apply error_response_envelope; [now apply or_else_truthy | reflexivity].
Qed.

Lemma Tavily_google_error_envelope msg : envelope (Tavily.google_error msg) = true.
Proof.
  unfold Tavily.google_error.
  destruct (includes msg (js "API key")); [reflexivity|].
  destruct (includes msg (js "quota") || includes msg (js "limit")); [reflexivity|].
  apply error_response_envelope; [now apply or_else_truthy | reflexivity].
Qed.

Lemma prefix_of_refl {A : Type} (l : list A) : prefix_of l l.
Proof. exists []. now rewrite app_nil_r. Qed.

Lemma prefix_of_nil {A : Type} (l : list A) : prefix_of [] l.
Proof. now exists l. Qed.

Lemma prefix_of_cons {A : Type} (x : A) (p l : list A) :
  prefix_of p l -> prefix_of (x :: p) (x :: l).
Proof. intros [rest ->]. now exists rest. Qed.

Create HintDb route.
#[local] Hint Resolve prefix_of_refl prefix_of_nil prefix_of_cons : route.
#[local] Hint Resolve Perplexity_workflow_error_envelope Tavily_workflow_error_envelope
  search_error_envelope Perplexity_google_error_envelope Tavily_google_error_envelope : route.

Lemma Perplexity_google_error_statuses msg :
  In (status (Perplexity.google_error msg)) default_statuses.
Proof.
  unfold Perplexity.google_error, default_statuses.
  destruct (includes msg (js "API key")); [cbn; tauto|].
  destruct (includes msg (js "quota") || includes msg (js "limit")); cbn; tauto.
Qed.

Lemma Tavily_google_error_statuses msg :
  In (status (Tavily.google_error msg)) default_statuses.
Proof.
  unfold Tavily.google_error, default_statuses.
  destruct (includes msg (js "API key")); [cbn; tauto|].
  destruct (includes msg (js "quota") || includes msg (js "limit")); cbn; tauto.
Qed.

#[local] Hint Resolve Perplexity_google_error_statuses Tavily_google_error_statuses : route.

(** The status of a response that is known up to its texts is in a list. *)
Ltac status_in :=
  first [ solve [auto with route]
        | unfold workflow_statuses, search_statuses, default_statuses; cbn [In];
          first [ left; reflexivity | right; left; reflexivity
                | right; right; left; reflexivity
                | right; right; right; left; reflexivity ] ].

(** Closes the invariant of a run that has been reduced to a response and
    a list of calls. *)
Ltac close_invariant :=
  eexists; split; [reflexivity|]; cbn [snd];
  split; [first [reflexivity | auto with route]|];
  split; [cbn [stages stage_of_event]; auto 6 with route|];
  split; [|split; [cbn [snd length negb orb ret]; lia | status_in]];
  repeat (first [apply Forall_nil | apply Forall_cons]);
  cbn [routed]; first [exact I | reflexivity | now left | now right].

Section WorkflowInvariants.
Variable pf : Platform.
Variable env : Env.
Variable W : World.

Lemma handleChatGPTToGemini_invariant ms model stream fs :
  handler_invariant model [REWRITE; ANSWER] 2 workflow_statuses
    (run (Perplexity.handleChatGPTToGemini pf env W ms model stream fs)).
Proof.
  destruct (Perplexity.google_configured env) eqn:Hg.
  2:{ unfold run, Perplexity.handleChatGPTToGemini. rewrite Hg. close_invariant. }
  destruct (Perplexity.openai_configured env) eqn:Ho.
  2:{ unfold run, Perplexity.handleChatGPTToGemini. rewrite Hg, Ho. close_invariant. }
  destruct (last_opt ms) as [m|] eqn:Hm.
  2:{ unfold run, Perplexity.handleChatGPTToGemini. rewrite Hg, Ho. cbn [negb].
      rewrite (try_catch_throw _ _ _ _ _
                 (bind_throw _ _ _ _ _ (lastMessage_of_none ms [] Hm))).
      close_invariant. }
  destruct (truthy (trim (userQuestion_of m))) eqn:Hq.
  2:{ rewrite (PerplexityFacts.handleChatGPTToGemini_blank pf env W ms model stream fs m
                 Hg Ho Hm Hq). close_invariant. }
  rewrite (PerplexityFacts.handleChatGPTToGemini_run pf env W ms model stream fs m
             Hg Ho Hm Hq). cbn zeta.
  destruct (openai_chat W [] _); [close_invariant| |];
    match goal with |- context [gemini_generate W ?l ?r] =>
      destruct (gemini_generate W l r) end; close_invariant.
Qed.

Lemma handlePerplexityToGemini_invariant ms model stream fs :
  handler_invariant model [SEARCH; ANSWER] 2 search_statuses
    (run (Perplexity.handlePerplexityToGemini pf env W ms model stream fs)).
Proof.
  destruct (Perplexity.google_configured env) eqn:Hg.
  2:{ unfold run, Perplexity.handlePerplexityToGemini. rewrite Hg. close_invariant. }
  destruct (last_opt ms) as [m|] eqn:Hm.
  2:{ unfold run, Perplexity.handlePerplexityToGemini. rewrite Hg. cbn [negb].
      rewrite (try_catch_throw _ _ _ _ _
                 (bind_throw _ _ _ _ _ (lastMessage_of_none ms [] Hm))).
      close_invariant. }
  destruct (truthy (trim (userQuestion_of m))) eqn:Hq.
  2:{ rewrite (PerplexityFacts.handlePerplexityToGemini_blank pf env W ms model stream fs m
                 Hg Hm Hq). close_invariant. }
  rewrite (PerplexityFacts.handlePerplexityToGemini_run pf env W ms model stream fs m
             Hg Hm Hq). cbn zeta.
  destruct (Perplexity.search_outcome env W [] _); [close_invariant|].
  match goal with |- context [gemini_generate W ?l ?r] =>
    destruct (gemini_generate W l r) end; close_invariant.
Qed.

Lemma handlePerplexityChatGPTToGemini_invariant ms model stream fs :
  handler_invariant model [SEARCH; REWRITE; ANSWER] 3 search_statuses
    (run (Perplexity.handlePerplexityChatGPTToGemini pf env W ms model stream fs)).
Proof.
  destruct (Perplexity.google_configured env) eqn:Hg.
  2:{ unfold run, Perplexity.handlePerplexityChatGPTToGemini. rewrite Hg.
      close_invariant. }
  destruct (Perplexity.openai_configured env) eqn:Ho.
  2:{ unfold run, Perplexity.handlePerplexityChatGPTToGemini. rewrite Hg, Ho.
      close_invariant. }
  destruct (last_opt ms) as [m|] eqn:Hm.
  2:{ unfold run, Perplexity.handlePerplexityChatGPTToGemini. rewrite Hg, Ho.
      cbn [negb orb].
      rewrite (try_catch_throw _ _ _ _ _
                 (bind_throw _ _ _ _ _ (lastMessage_of_none ms [] Hm))).
      close_invariant. }
  destruct (truthy (trim (userQuestion_of m))) eqn:Hq.
  2:{ rewrite (PerplexityFacts.handlePerplexityChatGPTToGemini_blank pf env W ms model
                 stream fs m Hg Ho Hm Hq). close_invariant. }
  rewrite (PerplexityFacts.handlePerplexityChatGPTToGemini_run pf env W ms model stream
             fs m Hg Ho Hm Hq). cbn zeta.
  destruct (Perplexity.search_outcome env W [] _); [close_invariant|].
  destruct (openai_chat W _ _); [close_invariant|close_invariant|].
  match goal with |- context [gemini_generate W ?l ?r] =>
    destruct (gemini_generate W l r) end; close_invariant.
Qed.

Lemma handleTavilyToGemini_invariant ms model stream fs :
  handler_invariant model [SEARCH; ANSWER] 2 workflow_statuses
    (run (Tavily.handleTavilyToGemini pf env W ms model stream fs)).
Proof.
  destruct (Tavily.google_configured env) eqn:Hg.
  2:{ unfold run, Tavily.handleTavilyToGemini. rewrite Hg. close_invariant. }
  destruct (last_opt ms) as [m|] eqn:Hm.
  2:{ unfold run, Tavily.handleTavilyToGemini. rewrite Hg. cbn [negb].
      rewrite (try_catch_throw _ _ _ _ _
                 (bind_throw _ _ _ _ _ (lastMessage_of_none ms [] Hm))).
      close_invariant. }
  destruct (truthy (trim (userQuestion_of m))) eqn:Hq.
  2:{ rewrite (TavilyRoute.handleTavilyToGemini_blank pf env W ms model stream fs m
                 Hg Hm Hq). close_invariant. }
  rewrite (TavilyRoute.handleTavilyToGemini_run pf env W ms model stream fs m
             Hg Hm Hq). cbn zeta.
  match goal with |- context [gemini_generate W ?l ?r] =>
    destruct (gemini_generate W l r) end; close_invariant.
Qed.

End WorkflowInvariants.

(** The rewrite calls the loop of [processMessagesForGoogleSDK] has made
    when it stops, normally or not: those of the first string contents. *)
Lemma process_each_calls (W : World) (cs : jsstring) (ms : list Message) :
  forall log, exists k,
    k <= length (string_contents ms) /\
    snd (process_each W cs ms log) =
    log ++ map (fun s => EvOpenAI (rewrite_request cs s)) (firstn k (string_contents ms)).
Proof.
  induction ms as [|m ms IH]; intros log.
  - exists 0. cbn. now rewrite app_nil_r.
  - cbn [process_each]. unfold string_contents. cbn [flat_map].
    fold (string_contents ms). destruct (msg_content m) as [s|ps].
    + unfold bind at 1. unfold bind at 1. rewrite convertToPromptChatGPT_run.
      destruct (IH (log ++ [EvOpenAI (rewrite_request cs s)])) as (k & Hk & Hs).
      destruct (openai_chat W log (rewrite_request cs s)) as [msg| |c]; cbn beta iota.
      * exists 1. cbn [app length firstn map snd]. split; [lia | reflexivity].
      * unfold ret at 1. cbn beta iota. unfold bind at 1.
        destruct (process_each W cs ms (log ++ [EvOpenAI (rewrite_request cs s)]))
          as [[[cts ps]|msg] l1]; cbn [snd] in *; subst l1; exists (S k);
          cbn [app length firstn map]; rewrite <- app_assoc; split; (lia || reflexivity).
      * unfold ret at 1. cbn beta iota. unfold bind at 1.
        destruct (process_each W cs ms (log ++ [EvOpenAI (rewrite_request cs s)]))
          as [[[cts ps]|msg] l1]; cbn [snd] in *; subst l1; exists (S k);
          cbn [app length firstn map]; rewrite <- app_assoc; split; (lia || reflexivity).
    + unfold bind at 1. unfold ret at 1. cbn beta iota. unfold bind at 1.
      destruct (IH log) as (k & Hk & Hs).
      destruct (process_each W cs ms log) as [[[cts ps']|msg] l1]; cbn [snd] in *;
        subst l1; exists k; cbn [app]; split; (lia || reflexivity).
Qed.

Lemma stages_default_prefix (sent : list File) (cs : jsstring) (ms : list Message) k :
  prefix_of
    (stages (map EvUpload sent
             ++ map (fun s => EvOpenAI (rewrite_request cs s))
                    (firstn k (string_contents ms))))
    (single_stages ms).
Proof.
  rewrite stages_app, stages_uploads. cbn [app].
  rewrite <- (map_map (rewrite_request cs) EvOpenAI), stages_rewrites, length_map.
  unfold single_stages.
  rewrite <- (firstn_skipn k (string_contents ms)) at 2.
  rewrite length_app, repeat_app, <- app_assoc. eexists. reflexivity.
Qed.

Lemma routed_default (model : option jsstring) (sent : list File) (cs : jsstring)
  (contents : list jsstring) :
  Forall (routed model)
    (map EvUpload sent ++ map (fun s => EvOpenAI (rewrite_request cs s)) contents).
Proof.
  apply Forall_app. split; apply Forall_forall; intros e He;
    apply in_map_iff in He as (x & <- & _); cbn; auto.
Qed.

Lemma uploads_bounded (env : Env) (W : World) (fs : list File) ups sent :
  uploadFilesToGeminiSDK env W fs [] = (Ok ups, map EvUpload sent) ->
  length sent <= length fs.
Proof.
  unfold uploadFilesToGeminiSDK.
  destruct (opt_truthy (GOOGLE_API_KEY env)); cbn [negb].
  - destruct (upload_each_log W fs []) as [ups' H]. rewrite H. cbn [app].
    intros E. inversion E as [[Hups Hsent]].
    apply (f_equal (@length Event)) in Hsent. rewrite !length_map in Hsent.
    rewrite <- Hsent. apply filter_length_le.
  - intros E. inversion E as [[Hups Hsent]]. destruct sent; [cbn; lia | discriminate].
Qed.

Lemma string_contents_length (ms : list Message) :
  length (string_contents ms) <= length ms.
Proof.
  induction ms as [|m ms IH]; [reflexivity|].
  unfold string_contents in *. cbn [flat_map length].
  destruct (msg_content m); rewrite length_app; cbn [length]; lia.
Qed.

Section DefaultInvariants.
Variable pf : Platform.
Variable env : Env.
Variable W : World.

Lemma Perplexity_handleGoogle_invariant ms model stream fs :
  handler_invariant model (single_stages ms) (length fs + length ms + 1)
    default_statuses
    (run (Perplexity.handleGoogle pf env W ms model stream fs)).
Proof.
  destruct (Perplexity.google_configured env) eqn:Hg.
  2:{ unfold run, Perplexity.handleGoogle. rewrite Hg. close_invariant. }
  destruct (PerplexityRoute.handleGoogle_run pf env W ms model stream fs Hg)
    as (ups & sent & Hup & ->).
  pose proof (uploads_bounded env W fs ups sent Hup) as Hsent.
  pose proof (string_contents_length ms) as Hcontents.
  destruct (process_each_calls W Perplexity.CONTENT_SYSTEM ms (map EvUpload sent))
    as (k & Hk & Hcalls).
  destruct (process_each W Perplexity.CONTENT_SYSTEM ms (map EvUpload sent))
    as [[[cts ps]|msg] l] eqn:E; cbn [snd] in Hcalls.
  - destruct (process_each_ok W _ ms _ _ _ _ E) as (Hl & _). cbn zeta.
    match goal with |- context [gemini_generate W ?l ?r] =>
      destruct (gemini_generate W l r); set (greq := r) end;
      (eexists; split; [reflexivity|]; cbn [snd];
       split; [first [reflexivity | auto with route]|];
       split; [rewrite Hl, stages_single; auto with route|];
       rewrite Hl; split;
       [apply Forall_app; split; [apply routed_default | repeat constructor]|];
       split; [rewrite !length_app, !length_map; cbn [length]; lia | status_in]).
  - eexists; split; [reflexivity|]. cbn [snd].
    split; [auto with route|]. rewrite Hcalls.
    split; [apply stages_default_prefix|]. split; [apply routed_default|].
    split; [|status_in].
    rewrite length_app, !length_map.
    pose proof (firstn_le_length k (string_contents ms)).
    unfold jsstring in *. lia.
Qed.

Lemma Tavily_handleGoogle_invariant ms model stream fs :
  handler_invariant model (single_stages ms) (length fs + length ms + 1)
    default_statuses
    (run (Tavily.handleGoogle env W ms model stream fs)).
Proof.
  destruct (Tavily.google_configured env) eqn:Hg.
  2:{ unfold run, Tavily.handleGoogle. rewrite Hg. close_invariant. }
  destruct (TavilyRoute.tavily_handleGoogle_run env W ms model stream fs Hg)
    as (ups & sent & Hup & ->).
  pose proof (uploads_bounded env W fs ups sent Hup) as Hsent.
  pose proof (string_contents_length ms) as Hcontents.
  destruct (process_each_calls W Tavily.CONTENT_SYSTEM ms (map EvUpload sent))
    as (k & Hk & Hcalls).
  destruct (process_each W Tavily.CONTENT_SYSTEM ms (map EvUpload sent))
    as [[[cts ps]|msg] l] eqn:E; cbn [snd] in Hcalls.
  - destruct (process_each_ok W _ ms _ _ _ _ E) as (Hl & _). cbn zeta.
    match goal with |- context [gemini_generate W ?l ?r] =>
      destruct (gemini_generate W l r); set (greq := r) end;
      (eexists; split; [reflexivity|]; cbn [snd];
       split; [first [reflexivity | auto with route]|];
       split; [rewrite Hl, stages_single; auto with route|];
       rewrite Hl; split;
       [apply Forall_app; split; [apply routed_default | repeat constructor]|];
       split; [rewrite !length_app, !length_map; cbn [length]; lia | status_in]).
  - eexists; split; [reflexivity|]. cbn [snd].
    split; [auto with route|]. rewrite Hcalls.
    split; [apply stages_default_prefix|]. split; [apply routed_default|].
    split; [|status_in].
    rewrite length_app, !length_map.
    pose proof (firstn_le_length k (string_contents ms)).
    unfold jsstring in *. lia.
Qed.

(** What holds of every run of [POST]. *)
Lemma route_POST_invariant (v : Variant) (req : Request) :
  match modelConfig (model req) with
  | Some actualModel =>
      handler_invariant actualModel (route_stages v req) (call_bound v req)
        (route_statuses v req) (run (route_POST v pf env W req))
  | None =>
      run (route_POST v pf env W req) =
      (Ok (error_response 400 (js "Unsupported model: " ++ model req) None), [])
  end.
Proof.
  destruct (modelConfig (model req)) as [actualModel|] eqn:Hmodel.
  2:{ destruct v; unfold route_POST, run, Perplexity.POST, Tavily.POST;
        now rewrite Hmodel. }
  destruct v; unfold route_POST.
  - rewrite (PerplexityRoute.POST_dispatch pf env W req actualModel Hmodel).
    unfold call_bound, handles, route_stages, route_statuses, Perplexity.dispatch.
    destruct (eqb (Perplexity.workflow_of req) (js "chatgpt-to-gemini"));
      [apply handleChatGPTToGemini_invariant|].
    destruct (eqb (Perplexity.workflow_of req) (js "perplexity-to-gemini"));
      [apply handlePerplexityToGemini_invariant|].
    destruct (eqb (Perplexity.workflow_of req) (js "perplexity-chatgpt-gemini"));
      [apply handlePerplexityChatGPTToGemini_invariant|].
    apply Perplexity_handleGoogle_invariant.
  - rewrite (TavilyRoute.tavily_POST_dispatch pf env W req actualModel Hmodel).
    unfold call_bound, handles, route_stages, route_statuses, Tavily.dispatch.
    change (Tavily.workflow_of req) with (Perplexity.workflow_of req).
    destruct (eqb (Perplexity.workflow_of req) (js "tavily-to-gemini"));
      [apply handleTavilyToGemini_invariant|].
    apply Tavily_handleGoogle_invariant.
Qed.

End DefaultInvariants.

(** X11: [POST] always answers, and every response has one of two shapes:
    status 200 with the generated text and no error, or one of the
    statuses 400, 401, 429, 500, 502 with a non-empty error message and
    no text.  This holds for both variants of the route, every request
    and every behaviour of the providers. *)
Theorem X11_every_response_is_an_answer_or_an_error (v : Variant) (pf : Platform)
  (env : Env) (W : World) (req : Request) :
  exists r, response_of (run (route_POST v pf env W req)) = Some r /\ envelope r = true.
Proof.
  pose proof (route_POST_invariant pf env W v req) as H.
  destruct (modelConfig (model req)) as [actualModel|].
  - destruct H as (r & Hr & He & _). exists r. unfold response_of. now rewrite Hr.
  - rewrite H. eexists. split; [reflexivity|].
    apply error_response_envelope; reflexivity.
Qed.

(** X12: whatever the outcome, the stages a request has run are an
    initial segment of the stage sequence of its workflow: a failing
    request stops early, but no stage runs out of order and nothing is
    called after Gemini was asked. *)
Theorem X12_stages_run_in_workflow_order (v : Variant) (pf : Platform)
  (env : Env) (W : World) (req : Request) :
  prefix_of (stages (calls (run (route_POST v pf env W req)))) (route_stages v req).
Proof.
  pose proof (route_POST_invariant pf env W v req) as H.
  destruct (modelConfig (model req)) as [actualModel|].
  - now destruct H as (r & _ & _ & Hp & _).
  - rewrite H. apply prefix_of_nil.
Qed.

(** X13: every Gemini call carries the model found in [MODEL_MAPPING] for
    the requested id (for a key of the mapping the id itself, also when
    the entry names the provider openai: [provider] is never read); every
    rewrite call uses gpt-4o-mini or gpt-4, whatever model was requested.
    A request for an unsupported model makes no call. *)
Theorem X13_calls_use_the_mapped_model (v : Variant) (pf : Platform)
  (env : Env) (W : World) (req : Request) :
  match modelConfig (model req) with
  | Some actualModel => Forall (routed actualModel) (calls (run (route_POST v pf env W req)))
  | None => calls (run (route_POST v pf env W req)) = []
  end.
Proof.
  pose proof (route_POST_invariant pf env W v req) as H.
  destruct (modelConfig (model req)) as [actualModel|].
  - now destruct H as (r & _ & _ & _ & Hr & _).
  - now rewrite H.
Qed.

(** X26: the adapter calls of a request are bounded, whatever the
    providers reply: a workflow handler makes at most one call per stage
    of its workflow, so at most three; the default handler makes at most
    one upload per file, one rewrite per message and one Gemini call.
    There is no retry anywhere. *)
Theorem X26_calls_are_bounded (v : Variant) (pf : Platform)
  (env : Env) (W : World) (req : Request) :
  length (calls (run (route_POST v pf env W req))) <= call_bound v req /\
  (handles v (Perplexity.workflow_of req) = true ->
   length (calls (run (route_POST v pf env W req))) <= 3).
Proof.
  pose proof (route_POST_invariant pf env W v req) as H.
  assert (Hb : length (calls (run (route_POST v pf env W req))) <= call_bound v req).
  { destruct (modelConfig (model req)) as [actualModel|].
    - now destruct H as (r & _ & _ & _ & _ & Hb & _).
    - rewrite H. cbn. lia. }
  split; [exact Hb|]. intros Hw. unfold call_bound in Hb. rewrite Hw in Hb.
  assert (length (route_stages v req) <= 3); [|lia].
  unfold route_stages. unfold handles in Hw. destruct v.
  - destruct (eqb (Perplexity.workflow_of req) (js "chatgpt-to-gemini"));
      [cbn [length]; lia|].
    destruct (eqb (Perplexity.workflow_of req) (js "perplexity-to-gemini"));
      [cbn [length]; lia|].
    destruct (eqb (Perplexity.workflow_of req) (js "perplexity-chatgpt-gemini"));
      [cbn [length]; lia | discriminate].
  - destruct (eqb (Perplexity.workflow_of req) (js "tavily-to-gemini"));
      [cbn [length]; lia | discriminate].
Qed.

(** X27: the statuses of each workflow.  A request for a supported model
    is answered 200, 400 or 500 by chatgpt-to-gemini and tavily-to-gemini;
    200, 400, 500 or 502 by the two Perplexity search workflows; and 200,
    401, 429 or 500 by the default handler, which never answers 400.  So
    502 only comes from a failed Perplexity search, and 401 and 429 only
    from the default handler.  A request for an unsupported model is
    answered 400. *)
Theorem X27_statuses_of_each_workflow (v : Variant) (pf : Platform)
  (env : Env) (W : World) (req : Request) :
  match modelConfig (model req) with
  | Some _ =>
      exists st, status_of (run (route_POST v pf env W req)) = Some st /\
                 In st (route_statuses v req)
  | None => status_of (run (route_POST v pf env W req)) = Some 400
  end.
Proof.
  pose proof (route_POST_invariant pf env W v req) as H.
  destruct (modelConfig (model req)) as [actualModel|].
  - destruct H as (r & Hr & _ & _ & _ & _ & Hs). exists (status r).
    split; [|exact Hs]. unfold status_of, response_of. now rewrite Hr.
  - now rewrite H.
Qed.

(* ===================================================================== *)
(** ** Further properties: credentials, empty input and errors *)
(* ===================================================================== *)

(** X14: without a Google key every request for a supported model is
    answered with status 500 before any adapter is called, in every
    workflow of either variant; the check comes before the validation of
    the question. *)
Theorem X14_missing_google_key_is_answered_500 (v : Variant) (pf : Platform) (env : Env)
  (W : World) (req : Request) (actualModel : option jsstring) :
  modelConfig (model req) = Some actualModel ->
  opt_truthy (GOOGLE_API_KEY env) = false ->
  exists msg,
    run (route_POST v pf env W req) = (Ok (error_response 500 msg None), []) /\
    (msg = js "Google API key not configured" \/ msg = js "API keys not configured").
Proof.
  intros Hmodel Hkey. destruct v; unfold route_POST.
  - rewrite (PerplexityRoute.POST_dispatch pf env W req actualModel Hmodel).
    unfold Perplexity.dispatch.
    destruct (eqb (Perplexity.workflow_of req) (js "chatgpt-to-gemini")).
    { unfold run, Perplexity.handleChatGPTToGemini, Perplexity.google_configured.
      rewrite Hkey. eexists. split; [reflexivity | now left]. }
    destruct (eqb (Perplexity.workflow_of req) (js "perplexity-to-gemini")).
    { unfold run, Perplexity.handlePerplexityToGemini, Perplexity.google_configured.
      rewrite Hkey. eexists. split; [reflexivity | now left]. }
    destruct (eqb (Perplexity.workflow_of req) (js "perplexity-chatgpt-gemini")).
    { unfold run, Perplexity.handlePerplexityChatGPTToGemini,
        Perplexity.google_configured.
      rewrite Hkey. eexists. split; [reflexivity | now right]. }
    unfold run, Perplexity.handleGoogle, Perplexity.google_configured.
    rewrite Hkey. eexists. split; [reflexivity | now left].
  - rewrite (TavilyRoute.tavily_POST_dispatch pf env W req actualModel Hmodel).
    unfold Tavily.dispatch.
    destruct (eqb (Tavily.workflow_of req) (js "tavily-to-gemini")).
    { unfold run, Tavily.handleTavilyToGemini, Tavily.google_configured.
      rewrite Hkey. eexists. split; [reflexivity | now left]. }
    unfold run, Tavily.handleGoogle, Tavily.google_configured.
    rewrite Hkey. eexists. split; [reflexivity | now left].
Qed.

(** X14 on a blank question: the missing key is reported, not the
    question. *)
Lemma X14_witness :
  exists msg,
    run (route_POST PerplexityVariant ascii_platform no_google_key steady_world
           (request_of [user_says []] (js "perplexity-chatgpt-gemini")))
    = (Ok (error_response 500 msg None), []) /\
    (msg = js "Google API key not configured" \/ msg = js "API keys not configured").
Proof.
  apply (X14_missing_google_key_is_answered_500 PerplexityVariant ascii_platform
           no_google_key steady_world
           (request_of [user_says []] (js "perplexity-chatgpt-gemini"))
           (Some (js "gemini-2.5-flash"))); vm_compute; reflexivity.
Defined.

(** X15: an empty [messages] array is not validated.  In a workflow
    handler, with the credentials it checks configured, reading the
    content of the missing last message throws; the catch clause answers
    with status 500, the error kind workflow_error and the message of the
    exception, and no adapter is called. *)
Theorem X15_empty_conversation_is_a_workflow_error (v : Variant) (pf : Platform)
  (env : Env) (W : World) (req : Request) (actualModel : option jsstring) :
  modelConfig (model req) = Some actualModel ->
  handles v (Perplexity.workflow_of req) = true ->
  keys_checked v env (Perplexity.workflow_of req) = true ->
  messages req = [] ->
  run (route_POST v pf env W req) =
  (Ok (error_response 500 TypeError_reading_content (Some (js "workflow_error"))), []).
Proof.
  intros Hmodel Hw Hkeys Hms. destruct v; unfold route_POST.
  - rewrite (PerplexityRoute.POST_dispatch pf env W req actualModel Hmodel).
    unfold Perplexity.dispatch. cbn [handles keys_checked] in Hw, Hkeys.
    rewrite Hms.
    destruct (eqb (Perplexity.workflow_of req) (js "chatgpt-to-gemini")) eqn:E1.
    { apply JS_eqb_eq in E1. rewrite E1 in Hkeys.
      change (eqb (js "chatgpt-to-gemini") (js "perplexity-to-gemini")) with false in Hkeys.
      apply andb_prop in Hkeys as [Hg Ho].
      unfold run, Perplexity.handleChatGPTToGemini. now rewrite Hg, Ho. }
    destruct (eqb (Perplexity.workflow_of req) (js "perplexity-to-gemini")) eqn:E2.
    { unfold run, Perplexity.handlePerplexityToGemini. now rewrite Hkeys. }
    destruct (eqb (Perplexity.workflow_of req) (js "perplexity-chatgpt-gemini")) eqn:E3;
      [|discriminate].
    apply andb_prop in Hkeys as [Hg Ho].
    unfold run, Perplexity.handlePerplexityChatGPTToGemini. now rewrite Hg, Ho.
  - rewrite (TavilyRoute.tavily_POST_dispatch pf env W req actualModel Hmodel).
    unfold Tavily.dispatch. cbn [handles keys_checked] in Hw, Hkeys.
    change (Tavily.workflow_of req) with (Perplexity.workflow_of req).
    rewrite Hw, Hms. unfold run, Tavily.handleTavilyToGemini. now rewrite Hkeys.
Qed.

(** X15 on the workflow tavily-to-gemini. *)
Lemma X15_witness :
  run (route_POST TavilyVariant ascii_platform all_keys steady_world
         (request_of [] (js "tavily-to-gemini"))) =
  (Ok (error_response 500 TypeError_reading_content (Some (js "workflow_error"))), []).
Proof.
  apply (X15_empty_conversation_is_a_workflow_error TavilyVariant ascii_platform all_keys
           steady_world (request_of [] (js "tavily-to-gemini"))
           (Some (js "gemini-2.5-flash"))); vm_compute; reflexivity.
Defined.

Lemma search_outcome_without_key (env : Env) (W : World) log q :
  fst (Perplexity.getPerplexityConfig env) = None ->
  Perplexity.search_outcome env W log q =
  SearchFailed (js "missing_api_key") (js "Perplexity API key is not configured.").
Proof.
  unfold Perplexity.search_outcome.
  destruct (Perplexity.getPerplexityConfig env) as [k mdl]. cbn [fst]. now intros ->.
Qed.

Lemma Perplexity_search_handlers_without_key (pf : Platform) (env : Env) (W W' : World)
  ms model stream fs :
  fst (Perplexity.getPerplexityConfig env) = None ->
  let search := run (Perplexity.handlePerplexityToGemini pf env W ms model stream fs) in
  let refine :=
    run (Perplexity.handlePerplexityChatGPTToGemini pf env W ms model stream fs) in
  (search = run (Perplexity.handlePerplexityToGemini pf env W' ms model stream fs) /\
   status_of search <> Some 200) /\
  (refine = run (Perplexity.handlePerplexityChatGPTToGemini pf env W' ms model stream fs) /\
   status_of refine <> Some 200).
Proof.
  intros Hkey search refine. subst search refine. split.
  - destruct (Perplexity.google_configured env) eqn:Hg.
    2:{ unfold run, Perplexity.handlePerplexityToGemini. rewrite Hg.
        split; [reflexivity | discriminate]. }
    destruct (last_opt ms) as [m|] eqn:Hm.
    2:{ unfold run, Perplexity.handlePerplexityToGemini. rewrite Hg. cbn [negb].
        rewrite !(try_catch_throw _ _ _ _ _
                    (bind_throw _ _ _ _ _ (lastMessage_of_none ms [] Hm))).
        split; [reflexivity | discriminate]. }
    destruct (truthy (trim (userQuestion_of m))) eqn:Hq.
    2:{ rewrite !(PerplexityFacts.handlePerplexityToGemini_blank pf env _ ms model
                    stream fs m Hg Hm Hq). split; [reflexivity | discriminate]. }
    rewrite !(PerplexityFacts.handlePerplexityToGemini_run pf env _ ms model stream fs m
                Hg Hm Hq). cbn zeta.
    rewrite !search_outcome_without_key by exact Hkey.
    split; [reflexivity | discriminate].
  - destruct (Perplexity.google_configured env) eqn:Hg.
    2:{ unfold run, Perplexity.handlePerplexityChatGPTToGemini. rewrite Hg.
        split; [reflexivity | discriminate]. }
    destruct (Perplexity.openai_configured env) eqn:Ho.
    2:{ unfold run, Perplexity.handlePerplexityChatGPTToGemini. rewrite Hg, Ho.
        split; [reflexivity | discriminate]. }
    destruct (last_opt ms) as [m|] eqn:Hm.
    2:{ unfold run, Perplexity.handlePerplexityChatGPTToGemini. rewrite Hg, Ho.
        cbn [negb orb].
        rewrite !(try_catch_throw _ _ _ _ _
                    (bind_throw _ _ _ _ _ (lastMessage_of_none ms [] Hm))).
        split; [reflexivity | discriminate]. }
    destruct (truthy (trim (userQuestion_of m))) eqn:Hq.
    2:{ rewrite !(PerplexityFacts.handlePerplexityChatGPTToGemini_blank pf env _ ms model
                    stream fs m Hg Ho Hm Hq). split; [reflexivity | discriminate]. }
    rewrite !(PerplexityFacts.handlePerplexityChatGPTToGemini_run pf env _ ms model
                stream fs m Hg Ho Hm Hq). cbn zeta.
    rewrite !search_outcome_without_key by exact Hkey.
    split; [reflexivity | discriminate].
Qed.

(** X16: when [getPerplexityConfig] finds no key (the variable is unset,
    empty or white space), the workflows perplexity-to-gemini and
    perplexity-chatgpt-gemini never consult a provider: the run is the
    same in every world, and it is never a status 200. *)
Theorem X16_no_perplexity_key_no_answer (pf : Platform) (env : Env) (W W' : World)
  (req : Request) :
  fst (Perplexity.getPerplexityConfig env) = None ->
  Perplexity.workflow_of req = js "perplexity-to-gemini" \/
  Perplexity.workflow_of req = js "perplexity-chatgpt-gemini" ->
  run (Perplexity.POST pf env W req) = run (Perplexity.POST pf env W' req) /\
  status_of (run (Perplexity.POST pf env W req)) <> Some 200.
Proof.
  intros Hkey Hw.
  destruct (modelConfig (model req)) as [actualModel|] eqn:Hmodel.
  2:{ rewrite !(PerplexityRoute.POST_unsupported pf env _ req Hmodel).
      split; [reflexivity | discriminate]. }
  destruct (Perplexity_search_handlers_without_key pf env W W' (messages req)
              actualModel (stream req) (files req) Hkey) as [Hs Hr].
  destruct Hw as [Hw|Hw].
  - rewrite !(Perplexity_POST_perplexity pf env _ req actualModel Hmodel Hw). exact Hs.
  - rewrite !(Perplexity_POST_refined pf env _ req actualModel Hmodel Hw). exact Hr.
Qed.

(** X16 with a key of three spaces: the run is the same whether
    Perplexity works or is down, and the status is 502. *)
Lemma X16_witness :
  run (Perplexity.POST ascii_platform blank_perplexity_key steady_world
         (request_of [user_says (js "gia vang hom nay")] (js "perplexity-to-gemini")))
  = run (Perplexity.POST ascii_platform blank_perplexity_key perplexity_down
           (request_of [user_says (js "gia vang hom nay")] (js "perplexity-to-gemini")))
  /\ status_of
       (run (Perplexity.POST ascii_platform blank_perplexity_key steady_world
               (request_of [user_says (js "gia vang hom nay")]
                           (js "perplexity-to-gemini")))) = Some 502.
Proof.
  split; [|vm_compute; reflexivity].
  apply (X16_no_perplexity_key_no_answer ascii_platform blank_perplexity_key steady_world
           perplexity_down
           (request_of [user_says (js "gia vang hom nay")] (js "perplexity-to-gemini")));
    [vm_compute; reflexivity | left; reflexivity].
Defined.

(** X17: in the default handler the first rewrite call that throws,
    whichever message it is for, ends the request: the messages after it
    are not rewritten and Gemini is not asked.  The error goes through
    the classification of Google errors: a failure of the OpenAI call
    whose message mentions a quota or a limit (and no API key) is
    reported as Google API quota exceeded, status 429. *)
Theorem X17_default_handler_blames_google_for_rewrite_errors (v : Variant) (pf : Platform)
  (env : Env) (W : World) (req : Request) (actualModel : option jsstring)
  (msg s : jsstring) (before after : list jsstring) :
  modelConfig (model req) = Some actualModel ->
  handles v (Perplexity.workflow_of req) = false ->
  opt_truthy (GOOGLE_API_KEY env) = true ->
  string_contents (messages req) = before ++ s :: after ->
  let rewrite_of x := rewrite_request (content_system_of v) x in
  let uploads := map EvUpload (filter needsUpload (files req)) in
  (forall b1 x b2 m, before = b1 ++ x :: b2 ->
     openai_chat W (uploads ++ map (fun y => EvOpenAI (rewrite_of y)) b1) (rewrite_of x)
     <> OpenAIThrows m) ->
  openai_chat W (uploads ++ map (fun y => EvOpenAI (rewrite_of y)) before) (rewrite_of s)
  = OpenAIThrows msg ->
  let o := run (route_POST v pf env W req) in
  calls o = uploads ++ map (fun y => EvOpenAI (rewrite_of y)) (before ++ [s]) /\
  stages (calls o) = repeat REWRITE (length before + 1) /\
  response_of o = Some (default_error v msg) /\
  (includes msg (js "API key") = false ->
   includes msg (js "quota") || includes msg (js "limit") = true ->
   response_of o =
   Some (error_response 429 (js "Google API quota exceeded. Please try again later.")
           (Some (js "quota_exceeded")))).
Proof.
  intros Hmodel Hw Hkey Hs rewrite_of uploads Hpass Hthrow o.
  assert (Hrun : o = (Ok (default_error v msg),
                      uploads ++ map (fun y => EvOpenAI (rewrite_of y)) (before ++ [s]))).
  { subst o. destruct v; unfold route_POST.
    - rewrite (Perplexity_POST_default pf env W req actualModel Hmodel Hw).
      destruct (PerplexityRoute.handleGoogle_run pf env W (messages req) actualModel
                  (stream req) (files req) Hkey) as (ups & sent & Hup & ->).
      rewrite (filter_sent env W _ _ _ Hkey Hup).
      now rewrite (process_each_throws_at W Perplexity.CONTENT_SYSTEM msg (messages req)
                     (map EvUpload (filter needsUpload (files req))) before s after
                     Hs Hpass Hthrow).
    - rewrite (Tavily_POST_default pf env W req actualModel Hmodel Hw).
      destruct (TavilyRoute.tavily_handleGoogle_run env W (messages req) actualModel
                  (stream req) (files req) Hkey) as (ups & sent & Hup & ->).
      rewrite (filter_sent env W _ _ _ Hkey Hup).
      now rewrite (process_each_throws_at W Tavily.CONTENT_SYSTEM msg (messages req)
                     (map EvUpload (filter needsUpload (files req))) before s after
                     Hs Hpass Hthrow). }
  rewrite Hrun. unfold calls, response_of. cbn [fst snd].
  split; [reflexivity|]. split.
  { subst uploads. rewrite stages_app, stages_uploads. cbn [app].
    rewrite <- (map_map rewrite_of EvOpenAI), stages_rewrites.
    now rewrite length_map, length_app. }
  split; [reflexivity|].
  intros Hk Hl. f_equal.
  destruct v; cbn [default_error]; unfold Perplexity.google_error, Tavily.google_error;
    now rewrite Hk, Hl.
Qed.

(** X17 when the first rewrite is answered and the second one is refused
    with a rate limit. *)
Lemma X17_witness :
  let o := run (route_POST PerplexityVariant ascii_platform all_keys second_rewrite_throws
                  (request_of four_turns (js "single"))) in
  stages (calls o) = [REWRITE; REWRITE] /\
  response_of o =
  Some (error_response 429 (js "Google API quota exceeded. Please try again later.")
          (Some (js "quota_exceeded"))).
Proof.
  destruct (X17_default_handler_blames_google_for_rewrite_errors PerplexityVariant
              ascii_platform all_keys second_rewrite_throws
              (request_of four_turns (js "single"))
              (Some (js "gemini-2.5-flash")) (js "rate limit reached") (js "Chao ban")
              [js "Xin chao"] [js "gia vang hom nay"] eq_refl eq_refl eq_refl eq_refl)
    as (_ & H2 & _ & H4).
  - intros [|? [|? ?]] x b2 m E; inversion E; subst. discriminate.
  - reflexivity.
  - split; [exact H2 | now apply H4].
Defined.

(** X18: the workflow handlers read neither the attachments nor the
    stream flag of a request: with other files and another flag the run,
    calls and response, is the same.  No file is uploaded or inlined in
    these workflows. *)
Theorem X18_workflow_handlers_ignore_attachments (v : Variant) (pf : Platform) (env : Env)
  (W : World) (req : Request) (fs : list File) (st : bool) :
  handles v (Perplexity.workflow_of req) = true ->
  run (route_POST v pf env W (with_attachments req fs st)) =
  run (route_POST v pf env W req).
Proof.
  intros Hw. destruct v; unfold route_POST, run.
  - unfold Perplexity.POST, Perplexity.dispatch.
    change (Perplexity.workflow_of (with_attachments req fs st))
      with (Perplexity.workflow_of req).
    cbn [handles] in Hw. cbn [with_attachments model messages stream files].
    destruct (modelConfig (model req)); [|reflexivity].
    destruct (eqb (Perplexity.workflow_of req) (js "chatgpt-to-gemini")); [reflexivity|].
    destruct (eqb (Perplexity.workflow_of req) (js "perplexity-to-gemini"));
      [reflexivity|].
    destruct (eqb (Perplexity.workflow_of req) (js "perplexity-chatgpt-gemini"));
      [reflexivity | discriminate].
  - unfold Tavily.POST, Tavily.dispatch.
    change (Tavily.workflow_of (with_attachments req fs st))
      with (Perplexity.workflow_of req).
    change (Tavily.workflow_of req) with (Perplexity.workflow_of req).
    cbn [handles] in Hw. cbn [with_attachments model messages stream files].
    rewrite Hw. now destruct (modelConfig (model req)).
Qed.

(** X18 on tavily-to-gemini with a PDF and an image attached. *)
Lemma X18_witness :
  run (route_POST TavilyVariant ascii_platform all_keys steady_world
         (with_attachments
            (request_of [user_says (js "gia vang hom nay")] (js "tavily-to-gemini"))
            [pdf; png] true)) =
  run (route_POST TavilyVariant ascii_platform all_keys steady_world
         (request_of [user_says (js "gia vang hom nay")] (js "tavily-to-gemini"))).
Proof.
  apply (X18_workflow_handlers_ignore_attachments TavilyVariant ascii_platform all_keys
           steady_world
           (request_of [user_says (js "gia vang hom nay")] (js "tavily-to-gemini"))
           [pdf; png] true).
  vm_compute. reflexivity.
Defined.

Lemma gemini_contents_replace_last (pf : Platform) (earlier : list Message)
  (last : Message) (prompt : jsstring) :
  gemini_contents pf (Perplexity.replace_last_content (earlier ++ [last]) prompt) =
  gemini_contents pf earlier ++
  [{| g_role := gemini_role (msg_role last); g_parts := [GText prompt] |}].
Proof.
  unfold Perplexity.replace_last_content. rewrite map_last_app.
  unfold gemini_contents. now rewrite map_app.
Qed.

(** X19: the Gemini request of the workflow handlers that keep the
    conversation has one content per message: the earlier messages in
    order with their own text, and the last message with its role kept
    and its content, whatever it was, replaced by the composed prompt.
    The two variants build the same contents; an empty conversation gives
    none. *)
Theorem X19_workflow_request_replaces_the_last_message (pf : Platform)
  (model : option jsstring) (earlier : list Message) (last : Message)
  (prompt : jsstring) :
  g_contents (Perplexity.workflow_request pf model (earlier ++ [last]) prompt) =
  gemini_contents pf earlier ++
  [{| g_role := gemini_role (msg_role last); g_parts := [GText prompt] |}] /\
  g_contents (Tavily.workflow_request pf model (earlier ++ [last]) prompt) =
  g_contents (Perplexity.workflow_request pf model (earlier ++ [last]) prompt) /\
  g_contents (Perplexity.workflow_request pf model [] prompt) = [].
Proof.
  split; [apply gemini_contents_replace_last|]. split; reflexivity.
Qed.

Lemma trim_truthy (s : jsstring) : truthy (trim s) = true -> truthy s = true.
Proof. destruct s; [discriminate | reflexivity]. Qed.

Lemma truthy_app_r (a b : jsstring) : truthy b = true -> truthy (a ++ b) = true.
Proof. destruct a; [auto | reflexivity]. Qed.

Lemma chatgpt_enhancedPrompt_truthy ctx q opt :
  truthy opt = true -> truthy (Perplexity.chatgpt_enhancedPrompt ctx q opt) = true.
Proof.
  intros H. unfold Perplexity.chatgpt_enhancedPrompt.
  destruct (truthy ctx); [reflexivity | exact H].
Qed.

Lemma perplexity_prompt_truthy pf ctx answer q results :
  truthy (Perplexity.perplexity_prompt pf ctx answer q results) = true.
Proof. unfold Perplexity.perplexity_prompt. cbn [app]. apply join_truthy. reflexivity. Qed.

Lemma enhancedPrompt_of_truthy q found :
  truthy q = true -> truthy (Tavily.enhancedPrompt_of q found) = true.
Proof.
  intros Hq. unfold Tavily.enhancedPrompt_of.
  destruct found as [[[results|] answer]|]; cbn [tv_results tv_answer]; auto.
  destruct (0 <? length results); [|exact Hq].
  apply truthy_app_r. reflexivity.
Qed.

Lemma workflow_request_last pf model ms m prompt :
  last_opt ms = Some m ->
  last_opt (g_contents (Perplexity.workflow_request pf model ms prompt)) =
  Some {| g_role := gemini_role (msg_role m); g_parts := [GText prompt] |} /\
  last_opt (g_contents (Tavily.workflow_request pf model ms prompt)) =
  Some {| g_role := gemini_role (msg_role m); g_parts := [GText prompt] |}.
Proof.
  intros Hm. destruct (last_cases ms) as [->|(earlier & x & ->)]; [discriminate|].
  rewrite last_opt_app in Hm. inversion Hm; subst x.
  assert (E : g_contents (Tavily.workflow_request pf model (earlier ++ [m]) prompt) =
              g_contents (Perplexity.workflow_request pf model (earlier ++ [m]) prompt))
    by reflexivity.
  rewrite E. unfold Perplexity.workflow_request. cbn [g_contents].
  rewrite gemini_contents_replace_last, last_opt_app. now split.
Qed.

Ltac no_gemini_call :=
  unfold calls; cbn [snd]; repeat (first [apply Forall_nil | apply Forall_cons]);
  exact I.

Section Prompts.
Variable pf : Platform.
Variable env : Env.
Variable W : World.

Lemma handleChatGPTToGemini_prompt ms model stream fs :
  Forall asks_with_prompt
    (calls (run (Perplexity.handleChatGPTToGemini pf env W ms model stream fs))).
Proof.
  destruct (Perplexity.google_configured env) eqn:Hg.
  2:{ unfold run, Perplexity.handleChatGPTToGemini. rewrite Hg. no_gemini_call. }
  destruct (Perplexity.openai_configured env) eqn:Ho.
  2:{ unfold run, Perplexity.handleChatGPTToGemini. rewrite Hg, Ho. no_gemini_call. }
  destruct (last_opt ms) as [m|] eqn:Hm.
  2:{ unfold run, Perplexity.handleChatGPTToGemini. rewrite Hg, Ho. cbn [negb].
      rewrite (try_catch_throw _ _ _ _ _
                 (bind_throw _ _ _ _ _ (lastMessage_of_none ms [] Hm))).
      no_gemini_call. }
  destruct (truthy (trim (userQuestion_of m))) eqn:Hq.
  2:{ rewrite (PerplexityFacts.handleChatGPTToGemini_blank pf env W ms model stream fs m
                 Hg Ho Hm Hq). no_gemini_call. }
  rewrite (PerplexityFacts.handleChatGPTToGemini_run pf env W ms model stream fs m
             Hg Ho Hm Hq). cbn zeta.
  apply trim_truthy in Hq.
  destruct (openai_chat W [] _) as [msg| |c]; [no_gemini_call| |];
    unfold calls; cbn [snd]; repeat constructor; cbn [asks_with_prompt];
    eexists _, _; (split; [apply (workflow_request_last pf model ms m _ Hm)|]);
    apply chatgpt_enhancedPrompt_truthy; [exact Hq | now apply opt_or_truthy].
Qed.

Lemma handlePerplexityToGemini_prompt ms model stream fs :
  Forall asks_with_prompt
    (calls (run (Perplexity.handlePerplexityToGemini pf env W ms model stream fs))).
Proof.
  destruct (Perplexity.google_configured env) eqn:Hg.
  2:{ unfold run, Perplexity.handlePerplexityToGemini. rewrite Hg. no_gemini_call. }
  destruct (last_opt ms) as [m|] eqn:Hm.
  2:{ unfold run, Perplexity.handlePerplexityToGemini. rewrite Hg. cbn [negb].
      rewrite (try_catch_throw _ _ _ _ _
                 (bind_throw _ _ _ _ _ (lastMessage_of_none ms [] Hm))).
      no_gemini_call. }
  destruct (truthy (trim (userQuestion_of m))) eqn:Hq.
  2:{ rewrite (PerplexityFacts.handlePerplexityToGemini_blank pf env W ms model stream fs m
                 Hg Hm Hq). no_gemini_call. }
  rewrite (PerplexityFacts.handlePerplexityToGemini_run pf env W ms model stream fs m
             Hg Hm Hq). cbn zeta.
  destruct (Perplexity.search_outcome env W [] _); [no_gemini_call|].
  unfold calls; cbn [snd]; repeat constructor; cbn [asks_with_prompt].
  eexists _, _. split; [apply (workflow_request_last pf model ms m _ Hm)|].
  apply perplexity_prompt_truthy.
Qed.

Lemma handlePerplexityChatGPTToGemini_prompt ms model stream fs :
  Forall asks_with_prompt
    (calls (run (Perplexity.handlePerplexityChatGPTToGemini pf env W ms model stream fs))).
Proof.
  destruct (Perplexity.google_configured env) eqn:Hg.
  2:{ unfold run, Perplexity.handlePerplexityChatGPTToGemini. rewrite Hg.
      no_gemini_call. }
  destruct (Perplexity.openai_configured env) eqn:Ho.
  2:{ unfold run, Perplexity.handlePerplexityChatGPTToGemini. rewrite Hg, Ho.
      no_gemini_call. }
  destruct (last_opt ms) as [m|] eqn:Hm.
  2:{ unfold run, Perplexity.handlePerplexityChatGPTToGemini. rewrite Hg, Ho.
      cbn [negb orb].
      rewrite (try_catch_throw _ _ _ _ _
                 (bind_throw _ _ _ _ _ (lastMessage_of_none ms [] Hm))).
      no_gemini_call. }
  destruct (truthy (trim (userQuestion_of m))) eqn:Hq.
  2:{ rewrite (PerplexityFacts.handlePerplexityChatGPTToGemini_blank pf env W ms model
                 stream fs m Hg Ho Hm Hq). no_gemini_call. }
  rewrite (PerplexityFacts.handlePerplexityChatGPTToGemini_run pf env W ms model stream
             fs m Hg Ho Hm Hq). cbn zeta.
  apply trim_truthy in Hq.
  destruct (Perplexity.search_outcome env W [] _); [no_gemini_call|].
  destruct (openai_chat W _ _); [no_gemini_call|no_gemini_call|].
  unfold calls; cbn [snd]; repeat constructor; cbn [asks_with_prompt].
  eexists _, _. split; [reflexivity|]. now apply opt_or_truthy.
Qed.

Lemma handleTavilyToGemini_prompt ms model stream fs :
  Forall asks_with_prompt
    (calls (run (Tavily.handleTavilyToGemini pf env W ms model stream fs))).
Proof.
  destruct (Tavily.google_configured env) eqn:Hg.
  2:{ unfold run, Tavily.handleTavilyToGemini. rewrite Hg. no_gemini_call. }
  destruct (last_opt ms) as [m|] eqn:Hm.
  2:{ unfold run, Tavily.handleTavilyToGemini. rewrite Hg. cbn [negb].
      rewrite (try_catch_throw _ _ _ _ _
                 (bind_throw _ _ _ _ _ (lastMessage_of_none ms [] Hm))).
      no_gemini_call. }
  destruct (truthy (trim (userQuestion_of m))) eqn:Hq.
  2:{ rewrite (TavilyRoute.handleTavilyToGemini_blank pf env W ms model stream fs m
                 Hg Hm Hq). no_gemini_call. }
  rewrite (TavilyRoute.handleTavilyToGemini_run pf env W ms model stream fs m
             Hg Hm Hq). cbn zeta.
  apply trim_truthy in Hq.
  unfold calls; cbn [snd]; repeat constructor; cbn [asks_with_prompt].
  eexists _, _. split; [apply (workflow_request_last pf model ms m _ Hm)|].
  now apply enhancedPrompt_of_truthy.
Qed.

End Prompts.

(** X20: a workflow handler never asks Gemini with an empty prompt: in
    every Gemini call it makes the last content is a single text part
    that is not empty, whatever the rewrite or the search returned. *)
Theorem X20_workflow_prompt_is_never_empty (v : Variant) (pf : Platform) (env : Env)
  (W : World) (req : Request) :
  handles v (Perplexity.workflow_of req) = true ->
  Forall asks_with_prompt (calls (run (route_POST v pf env W req))).
Proof.
  intros Hw.
  destruct (modelConfig (model req)) as [actualModel|] eqn:Hmodel.
  2:{ destruct v; unfold route_POST, run, Perplexity.POST, Tavily.POST;
        rewrite Hmodel; constructor. }
  destruct v; unfold route_POST.
  - rewrite (PerplexityRoute.POST_dispatch pf env W req actualModel Hmodel).
    unfold Perplexity.dispatch. cbn [handles] in Hw.
    destruct (eqb (Perplexity.workflow_of req) (js "chatgpt-to-gemini"));
      [apply handleChatGPTToGemini_prompt|].
    destruct (eqb (Perplexity.workflow_of req) (js "perplexity-to-gemini"));
      [apply handlePerplexityToGemini_prompt|].
    destruct (eqb (Perplexity.workflow_of req) (js "perplexity-chatgpt-gemini"));
      [apply handlePerplexityChatGPTToGemini_prompt | discriminate].
  - rewrite (TavilyRoute.tavily_POST_dispatch pf env W req actualModel Hmodel).
    unfold Tavily.dispatch. cbn [handles] in Hw.
    change (Tavily.workflow_of req) with (Perplexity.workflow_of req).
    rewrite Hw. apply handleTavilyToGemini_prompt.
Qed.

(** X20 when the rewrite is not OK. *)
Lemma X20_witness :
  Forall asks_with_prompt
    (calls (run (route_POST PerplexityVariant ascii_platform all_keys openai_down
                   (request_of [user_says (js "gia vang hom nay")]
                               (js "chatgpt-to-gemini"))))).
Proof.
  apply (X20_workflow_prompt_is_never_empty PerplexityVariant ascii_platform all_keys
           openai_down
           (request_of [user_says (js "gia vang hom nay")] (js "chatgpt-to-gemini"))).
  vm_compute. reflexivity.
Defined.

(** X28: a successful workflow response reports the prompt that was sent.
    When a workflow handler answers 200, its last adapter call is the
    Gemini call, the last content of that call is the composed prompt as
    a single text part, and the length the response reports
    ([promptLength] of the second step, or the refined prompt of the
    three-stage workflow) is the length of that prompt. *)
Theorem X28_reported_prompt_is_the_prompt_sent (v : Variant) (pf : Platform)
  (env : Env) (W : World) (req : Request) :
  let o := run (route_POST v pf env W req) in
  handles v (Perplexity.workflow_of req) = true ->
  status_of o = Some 200 ->
  exists r earlier greq role prompt,
    response_of o = Some r /\
    calls o = earlier ++ [EvGemini greq] /\
    last_opt (g_contents greq) = Some {| g_role := role; g_parts := [GText prompt] |} /\
    reported_prompt_length (body r) = Some (length prompt).
Proof.
  intros o Hw H. subst o.
  destruct (modelConfig (model req)) as [actualModel|] eqn:Hmodel.
  2:{ exfalso. destruct v; unfold route_POST, run, Perplexity.POST, Tavily.POST in H;
        rewrite Hmodel in H; discriminate H. }
  destruct v; unfold route_POST in *.
  - rewrite (PerplexityRoute.POST_dispatch pf env W req actualModel Hmodel) in *.
    unfold handles, Perplexity.dispatch in *.
    destruct (eqb (Perplexity.workflow_of req) (js "chatgpt-to-gemini")).
    { destruct (handleChatGPTToGemini_200 pf env W _ _ _ _ H) as (Hg & Ho & m & Hm & Hq).
      rewrite (PerplexityFacts.handleChatGPTToGemini_run pf env W _ actualModel
                 (stream req) (files req) m Hg Ho Hm Hq) in *.
      cbn zeta in *.
      destruct (openai_chat W [] _); [status_200 H| |];
        match type of H with context [gemini_generate W ?l ?r] =>
          destruct (gemini_generate W l r) end; status_200 H;
        (eexists _, [_], _, _, _; split; [reflexivity|]; split; [reflexivity|];
         split; [apply (workflow_request_last pf actualModel _ m _ Hm) | reflexivity]). }
    destruct (eqb (Perplexity.workflow_of req) (js "perplexity-to-gemini")).
    { destruct (handlePerplexityToGemini_200 pf env W _ _ _ _ H) as (Hg & m & Hm & Hq).
      rewrite (PerplexityFacts.handlePerplexityToGemini_run pf env W _ actualModel
                 (stream req) (files req) m Hg Hm Hq) in *.
      cbn zeta in *.
      destruct (Perplexity.search_outcome env W [] _); [status_200 H|].
      match type of H with context [gemini_generate W ?l ?r] =>
        destruct (gemini_generate W l r) end; status_200 H.
      eexists _, [_], _, _, _. split; [reflexivity|]. split; [reflexivity|].
      split; [apply (workflow_request_last pf actualModel _ m _ Hm) | reflexivity]. }
    destruct (eqb (Perplexity.workflow_of req) (js "perplexity-chatgpt-gemini"));
      [|discriminate].
    destruct (handlePerplexityChatGPTToGemini_200 pf env W _ _ _ _ H)
      as (Hg & Ho & m & Hm & Hq).
    rewrite (PerplexityFacts.handlePerplexityChatGPTToGemini_run pf env W _ actualModel
               (stream req) (files req) m Hg Ho Hm Hq) in *.
    cbn zeta in *.
    destruct (Perplexity.search_outcome env W [] _); [status_200 H|].
    destruct (openai_chat W _ _); [status_200 H|status_200 H|].
    match type of H with context [gemini_generate W ?l ?r] =>
      destruct (gemini_generate W l r) end; status_200 H.
    eexists _, [_; _], _, _, _. repeat split.
  - rewrite (TavilyRoute.tavily_POST_dispatch pf env W req actualModel Hmodel) in *.
    unfold handles, Tavily.dispatch in *.
    change (Tavily.workflow_of req) with (Perplexity.workflow_of req) in *.
    rewrite Hw in *.
    destruct (handleTavilyToGemini_200 pf env W _ _ _ _ H) as (Hg & m & Hm & Hq).
    rewrite (TavilyRoute.handleTavilyToGemini_run pf env W _ actualModel
               (stream req) (files req) m Hg Hm Hq) in *.
    cbn zeta in *.
    match type of H with context [gemini_generate W ?l ?r] =>
      destruct (gemini_generate W l r) end; status_200 H.
    eexists _, [_], _, _, _. split; [reflexivity|]. split; [reflexivity|].
    split; [apply (workflow_request_last pf actualModel _ m _ Hm) | reflexivity].
Qed.

(** X28 on a three-stage request: the refined prompt is what Gemini was
    asked. *)
Lemma X28_witness :
  exists r earlier greq role prompt,
    response_of (run (route_POST PerplexityVariant ascii_platform all_keys steady_world
                        (request_of [user_says (js "gia vang hom nay")]
                                    (js "perplexity-chatgpt-gemini")))) = Some r /\
    calls (run (route_POST PerplexityVariant ascii_platform all_keys steady_world
                  (request_of [user_says (js "gia vang hom nay")]
                              (js "perplexity-chatgpt-gemini"))))
    = earlier ++ [EvGemini greq] /\
    last_opt (g_contents greq) = Some {| g_role := role; g_parts := [GText prompt] |} /\
    reported_prompt_length (body r) = Some (length prompt).
Proof.
  apply (X28_reported_prompt_is_the_prompt_sent PerplexityVariant ascii_platform
           all_keys steady_world
           (request_of [user_says (js "gia vang hom nay")]
                       (js "perplexity-chatgpt-gemini")));
    vm_compute; reflexivity.
Defined.

Lemma drop_while_all (p : N -> bool) (s : jsstring) :
  forallb p s = true -> drop_while p s = [].
Proof.
  induction s as [|c t IH]; [reflexivity|]. cbn [forallb drop_while].
  intros H. apply andb_true_iff in H as [Hc Ht]. rewrite Hc. now apply IH.
Qed.

Lemma drop_while_some (p : N -> bool) (s : jsstring) :
  forallb p s = false -> exists c t, drop_while p s = c :: t /\ p c = false.
Proof.
  induction s as [|c t IH]; [discriminate|]. cbn [forallb drop_while].
  destruct (p c) eqn:Hc; cbn [andb]; [exact IH|]. intros _. now exists c, t.
Qed.

Lemma drop_while_last (p : N -> bool) (l : jsstring) c :
  p c = false -> drop_while p (l ++ [c]) <> [].
Proof.
  intros Hc. induction l as [|x l IH]; cbn [app drop_while].
  - now rewrite Hc.
  - destruct (p x); [exact IH | discriminate].
Qed.

(** [s.trim()] is empty exactly when [s] is made of white space and line
    terminators only. *)
Lemma trim_blank (s : jsstring) : truthy (trim s) = negb (forallb is_space s).
Proof.
  unfold trim, trimEnd, trimStart. destruct (forallb is_space s) eqn:E.
  - now rewrite (drop_while_all _ _ E).
  - destruct (drop_while_some _ _ E) as (c & t & -> & Hc). cbn [rev negb].
    pose proof (drop_while_last is_space (rev t) c Hc) as H.
    destruct (drop_while is_space (rev t ++ [c])) as [|x l] eqn:D; [now elim H|].
    cbn [rev]. destruct (rev l ++ [x]) eqn:R; [|reflexivity].
    now apply app_eq_nil in R as [_ R].
Qed.

(** X21: the key [getPerplexityConfig] returns is the trimmed
    [PERPLEXITY_API_KEY], and there is no key when the variable is unset
    or made of white space only; a key, when there is one, is trimmed and
    not empty.  The model is the trimmed [PERPLEXITY_MODEL], and the
    default sonar-pro when the variable is unset or blank; it is never
    empty. *)
Theorem X21_getPerplexityConfig_is_normalised (env : Env) :
  let apiKey := fst (Perplexity.getPerplexityConfig env) in
  let model := snd (Perplexity.getPerplexityConfig env) in
  (PERPLEXITY_API_KEY env = None -> apiKey = None) /\
  (forall raw, PERPLEXITY_API_KEY env = Some raw ->
     apiKey = if forallb is_space raw then None else Some (trim raw)) /\
  (forall k, apiKey = Some k -> truthy k = true /\ trim k = k) /\
  (PERPLEXITY_MODEL env = None -> model = js "sonar-pro") /\
  (forall raw, PERPLEXITY_MODEL env = Some raw ->
     model = if forallb is_space raw then js "sonar-pro" else trim raw) /\
  truthy model = true.
Proof.
  unfold Perplexity.getPerplexityConfig. cbn [fst snd]. cbn zeta.
  split; [now intros ->|].
  split; [intros raw ->; rewrite trim_blank; now destruct (forallb is_space raw)|].
  split.
  { intros k. destruct (PERPLEXITY_API_KEY env) as [raw|]; [|discriminate].
    destruct (truthy (trim raw)) eqn:E; [|discriminate].
    intros H. inversion H; subst. split; [exact E | apply trim_idem]. }
  split; [now intros ->|].
  split.
  { intros raw ->. unfold or_else. rewrite trim_blank.
    now destruct (forallb is_space raw). }
  destruct (PERPLEXITY_MODEL env) as [m|]; [|reflexivity].
  now apply or_else_truthy.
Qed.

(* ===================================================================== *)
(** ** Further properties: the search adapter *)
(* ===================================================================== *)

Lemma collect_sub (cs : list Citation) : forall index seen e,
  In e (Perplexity.collect index seen cs) ->
  exists i c, nth_error cs i = Some c /\ Perplexity.entry_of (index + i) c = Some e.
Proof.
  induction cs as [|c cs IH]; intros index seen e; cbn [Perplexity.collect]; [contradiction|].
  assert (Hrest : forall seen', In e (Perplexity.collect (S index) seen' cs) ->
            exists i c0, nth_error (c :: cs) i = Some c0 /\
                         Perplexity.entry_of (index + i) c0 = Some e).
  { intros seen' Hin. destruct (IH _ _ _ Hin) as (i & c0 & Hn & He).
    exists (S i), c0. split; [exact Hn|]. now rewrite Nat.add_succ_r. }
  destruct (Perplexity.entry_of index c) as [entry|] eqn:E; [|apply Hrest].
  destruct (mem (Perplexity.entry_key entry) seen); [apply Hrest|].
  intros [<-|Hin]; [|eapply Hrest; eauto].
  exists 0, c. split; [reflexivity|]. now rewrite Nat.add_0_r.
Qed.

Lemma collect_complete (cs : list Citation) : forall index seen i c e,
  nth_error cs i = Some c -> Perplexity.entry_of (index + i) c = Some e ->
  In (Perplexity.entry_key e) (seen ++ map Perplexity.entry_key (Perplexity.collect index seen cs)).
Proof.
  induction cs as [|c0 cs IH]; intros index seen i c e Hn He; [now destruct i|].
  cbn [Perplexity.collect]. destruct i as [|i].
  - cbn in Hn. inversion Hn; subst c0. rewrite Nat.add_0_r in He. rewrite He.
    destruct (mem (Perplexity.entry_key e) seen) eqn:Em.
    + apply in_or_app. left. now apply mem_true_iff.
    + apply in_or_app. right. now left.
  - cbn [nth_error] in Hn. rewrite Nat.add_succ_r in He.
    destruct (Perplexity.entry_of index c0) as [entry|].
    + destruct (mem (Perplexity.entry_key entry) seen).
      * eapply IH; eauto.
      * specialize (IH (S index) (Perplexity.entry_key entry :: seen) i c e Hn He).
        cbn [map]. apply in_app_or in IH. apply in_or_app.
        destruct IH as [[<-|H]|H]; [right; now left | now left | right; now right].
    + eapply IH; eauto.
Qed.

Lemma collect_length (cs : list Citation) : forall index seen,
  length (Perplexity.collect index seen cs) <= length cs.
Proof.
  induction cs as [|c cs IH]; intros index seen; cbn [Perplexity.collect length]; [lia|].
  destruct (Perplexity.entry_of index c) as [entry|].
  - destruct (mem _ seen); [pose proof (IH (S index) seen) |
      pose proof (IH (S index) (Perplexity.entry_key entry :: seen))]; cbn [length]; lia.
  - pose proof (IH (S index) seen). lia.
Qed.

Lemma entry_of_titled index c e :
  Perplexity.entry_of index c = Some e -> truthy (sr_title e) = true.
Proof.
  destruct c as [u|o|]; cbn [Perplexity.entry_of]; intros H; inversion H; subst;
    cbn [sr_title]; [reflexivity|].
  now repeat apply opt_or_truthy.
Qed.

(** X22: a successful search returns the trimmed summary and results
    with pairwise different keys (url and title).  Every result is the
    entry of a candidate and has a non-empty title; the key of every
    candidate's entry is the key of some result; there are at most as many
    results as candidates. *)
Theorem X22_search_keeps_the_first_entry_of_each_key (summary : jsstring)
  (candidates : list Citation) :
  exists results,
    Perplexity.search_return (PxOk summary candidates) = SearchDone (trim summary) results /\
    NoDup (map Perplexity.entry_key results) /\
    (forall r, In r results ->
       truthy (sr_title r) = true /\
       exists i c, nth_error candidates i = Some c /\ Perplexity.entry_of i c = Some r) /\
    (forall i c e, nth_error candidates i = Some c -> Perplexity.entry_of i c = Some e ->
       In (Perplexity.entry_key e) (map Perplexity.entry_key results)) /\
    length results <= length candidates.
Proof.
  exists (Perplexity.collect 0 [] candidates). split.
  { cbn [Perplexity.search_return]. now destruct summary. }
  split; [apply collect_keys|]. split; [|split].
  - intros r Hr. destruct (collect_sub _ _ _ _ Hr) as (i & c & Hn & He).
    split; [eapply entry_of_titled; eauto | eauto].
  - intros i c e Hn He. apply (collect_complete candidates 0 [] i c e Hn He).
  - apply collect_length.
Qed.

(** *** Plain URLs are never deduplicated *)

Lemma number_of_digits (fuel : nat) : forall n acc,
  n < fuel ->
  fold_left (fun a c => 10 * a + (N.to_nat c - 48)) (digits_of fuel n acc) 0 =
  fold_left (fun a c => 10 * a + (N.to_nat c - 48)) acc n.
Proof.
  induction fuel as [|fuel IH]; intros n acc Hn; [lia|].
  cbn [digits_of]. cbv zeta.
  assert (Hd : N.to_nat (digit (n mod 10)) - 48 = n mod 10).
  { unfold digit. rewrite N2Nat.inj_add, Nat2N.id. change (N.to_nat 48) with 48. lia. }
  destruct (n <? 10) eqn:E.
  - apply Nat.ltb_lt in E. cbn [fold_left]. rewrite Hd, Nat.mod_small by exact E.
    f_equal.
  - apply Nat.ltb_ge in E.
    rewrite IH by (pose proof (Nat.div_lt n 10); lia).
    cbn [fold_left]. rewrite Hd. f_equal.
    pose proof (Nat.div_mod_eq n 10). lia.
Qed.

Lemma number_of_of_nat (n : nat) : number_of (of_nat n) = n.
Proof. unfold number_of, of_nat. now rewrite number_of_digits by lia. Qed.

Lemma digits_of_digits (fuel : nat) : forall n acc,
  forallb is_digit acc = true -> forallb is_digit (digits_of fuel n acc) = true.
Proof.
  induction fuel as [|fuel IH]; intros n acc Hacc; [exact Hacc|].
  cbn [digits_of]. cbv zeta.
  assert (Hd : forallb is_digit (digit (n mod 10) :: acc) = true).
  { cbn [forallb]. rewrite Hacc, andb_true_r. unfold is_digit, digit.
    pose proof (Nat.mod_upper_bound n 10).
    apply andb_true_intro. split; apply N.leb_le; lia. }
  destruct (n <? 10); [exact Hd | now apply IH].
Qed.

Lemma of_nat_digits (n : nat) : forallb is_digit (of_nat n) = true.
Proof. now apply digits_of_digits. Qed.

(** The numeral at the end of a key. *)
Lemma key_numeral (u : jsstring) (n : nat) :
  take_while is_digit (rev (u ++ js "|Source " ++ of_nat n)) = rev (of_nat n).
Proof.
  rewrite !rev_app_distr, <- app_assoc.
  replace (rev (js "|Source ")) with (32%N :: rev (js "|Source")) by reflexivity.
  cbn [app].
  apply take_while_app_stop; [|reflexivity].
  rewrite forallb_forall. intros c Hc. apply in_rev in Hc.
  pose proof (of_nat_digits n) as H. rewrite forallb_forall in H. now apply H.
Qed.

Lemma url_key_injective (u u' : jsstring) (i j : nat) :
  Perplexity.entry_key (url_entry i u) = Perplexity.entry_key (url_entry j u') -> i = j.
Proof.
  assert (K : forall w n, Perplexity.entry_key (url_entry n w) =
                          or_else w [] ++ js "|Source " ++ of_nat (n + 1))
    by reflexivity.
  rewrite !K. intros H.
  assert (E : rev (of_nat (i + 1)) = rev (of_nat (j + 1))).
  { rewrite <- (key_numeral (or_else u []) (i + 1)),
            <- (key_numeral (or_else u' []) (j + 1)).
    now rewrite H. }
  apply (f_equal (@rev N)) in E. rewrite !rev_involutive in E.
  apply (f_equal number_of) in E. rewrite !number_of_of_nat in E. lia.
Qed.

Lemma collect_urls (urls : list jsstring) : forall index seen,
  (forall k, In k seen -> exists j u, j < index /\ k = Perplexity.entry_key (url_entry j u)) ->
  Perplexity.collect index seen (map CitString urls) = mapi_from url_entry index urls.
Proof.
  induction urls as [|u urls IH]; intros index seen Hseen; [reflexivity|].
  cbn [map Perplexity.collect Perplexity.entry_of mapi_from].
  fold (url_entry index u).
  destruct (mem (Perplexity.entry_key (url_entry index u)) seen) eqn:E.
  - apply mem_true_iff in E. destruct (Hseen _ E) as (j & u' & Hj & Hk).
    apply url_key_injective in Hk. lia.
  - f_equal. apply IH. intros k [<-|Hk].
    + exists index, u. split; [lia | reflexivity].
    + destruct (Hseen _ Hk) as (j & u' & Hj & ->). exists j, u'. split; [lia | reflexivity].
Qed.

(** X23: when the citation candidates are plain URLs, none is dropped, not
    even a URL that occurs twice: the title Source n numbers the
    candidates and is part of the key, so no two keys are equal.  The
    results are the URLs in order, the n-th with the title Source n. *)
Theorem X23_plain_url_citations_are_all_kept (summary : jsstring) (urls : list jsstring) :
  Perplexity.search_return (PxOk summary (map CitString urls)) =
  SearchDone (trim summary) (mapi url_entry urls).
Proof.
  cbn [Perplexity.search_return]. f_equal; [now destruct summary|].
  apply collect_urls. intros k [].
Qed.

Lemma assoc_last_depth key fields x :
  assoc_last key fields = Some x -> depth x < depth (JObject fields).
Proof.
  cbn [depth]. unfold list_max.
  induction fields as [|[k v] rest IH]; cbn [assoc_last]; [discriminate|].
  cbn [map fold_right snd].
  destruct (assoc_last key rest) as [y|].
  - intros H. inversion H; subst. specialize (IH eq_refl). lia.
  - destruct (eqb key k); [|discriminate]. intros H. inversion H; subst. lia.
Qed.

Lemma get_depth key v x : get key v = Some x -> depth x < depth v.
Proof. destruct v; cbn [get]; try discriminate. apply assoc_last_depth. Qed.

Lemma truthy_field_depth key v x : truthy_field key v = Some x -> depth x < depth v.
Proof.
  unfold truthy_field. destruct (get key v) as [y|] eqn:E; [|discriminate].
  destruct (truthy_json y); [|discriminate]. intros H. inversion H; subst.
  eapply get_depth; eauto.
Qed.

Lemma coalesce_depth (a b : option JSON) (n : nat) x :
  (forall y, a = Some y -> depth y <= n) -> (forall y, b = Some y -> depth y <= n) ->
  coalesce a b = Some x -> depth x <= n.
Proof. intros Ha Hb. destruct a as [[]|]; cbn [coalesce]; auto. Qed.

Lemma pick_depth (item : JSON) : depth (pick item) <= depth item.
Proof.
  assert (Hget : forall key y, get key item = Some y -> depth y <= depth item).
  { intros key y Hy. apply get_depth in Hy. lia. }
  unfold pick.
  destruct (coalesce _ _) as [x|] eqn:E; [|lia].
  revert E. apply coalesce_depth; [apply Hget|].
  intros y. apply coalesce_depth; [apply Hget|].
  intros z. apply coalesce_depth; [apply Hget|].
  intros w Hw. inversion Hw; subst. lia.
Qed.

Lemma item_depth (items : list JSON) (item : JSON) :
  In item items -> depth item < depth (JArray items).
Proof.
  cbn [depth]. unfold list_max. induction items as [|x items IH]; [contradiction|].
  cbn [map fold_right]. intros [->|H]; [lia|]. specialize (IH H). lia.
Qed.

(** With more steps than the depth of the value, the result of
    [extractText_upto] does not depend on the number of steps. *)
Lemma extractText_upto_stable (f1 : nat) : forall f2 value,
  depth value < f1 -> depth value < f2 ->
  extractText_upto f1 value = extractText_upto f2 value.
Proof.
  induction f1 as [|f1 IH]; intros f2 value H1 H2; [lia|].
  destruct f2 as [|f2]; [lia|]. cbn [extractText_upto].
  destruct (negb (truthy_json value)); [reflexivity|].
  destruct value as [| | |s|items|fields]; try reflexivity.
  - do 2 f_equal. apply map_ext_in. intros item Hin.
    pose proof (item_depth items item Hin). pose proof (pick_depth item).
    apply IH; lia.
  - destruct (truthy_field (js "text") (JObject fields)) as [t|] eqn:Et.
    { apply truthy_field_depth in Et. apply IH; lia. }
    destruct (truthy_field (js "content") (JObject fields)) as [c|] eqn:Ec.
    { apply truthy_field_depth in Ec. apply IH; lia. }
    destruct (truthy_field (js "value") (JObject fields)) as [x|] eqn:Ex.
    { apply truthy_field_depth in Ex. apply IH; lia. }
    destruct (get (js "parts") (JObject fields)) as [[| | | |parts|]|] eqn:Ep;
      try reflexivity.
    apply get_depth in Ep. apply IH; lia.
Qed.

Lemma extractText_array (items : list JSON) :
  extractText (JArray items) =
  join nl (filter truthy (map (fun item => extractText (pick item)) items)).
Proof.
  unfold extractText at 1. cbn [extractText_upto truthy_json negb].
  do 2 f_equal. apply map_ext_in. intros item Hin.
  pose proof (item_depth items item Hin). pose proof (pick_depth item).
  apply extractText_upto_stable; lia.
Qed.

Lemma extractText_string (s : jsstring) : extractText (JString s) = s.
Proof. unfold extractText. cbn. now destruct s. Qed.

(** X24: [extractText] of an array of parts each of which has a string
    [text] is the texts of the parts, one per line, the empty ones left
    out, whatever other fields the parts have. *)
Theorem X24_extractText_joins_the_text_parts (parts : list JSON) (texts : list jsstring) :
  Forall2 (fun part s => get (js "text") part = Some (JString s)) parts texts ->
  extractText (JArray parts) = join nl (filter truthy texts).
Proof.
  intros H. rewrite extractText_array. do 2 f_equal.
  induction H as [|part s parts texts Hp _ IH]; [reflexivity|].
  cbn [map]. rewrite IH. f_equal.
  unfold pick. rewrite Hp. cbn [coalesce]. apply extractText_string.
Qed.

(** X24 on three text parts, the second one empty. *)
Lemma X24_witness :
  extractText (JArray [text_part (js "Gia vang tang."); text_part []; text_part (js "Nguon: x")])
  = js "Gia vang tang." ++ nl ++ js "Nguon: x".
Proof.
  rewrite (X24_extractText_joins_the_text_parts _ [js "Gia vang tang."; []; js "Nguon: x"]).
  - reflexivity.
  - repeat constructor.
Defined.

Lemma get_some_object key value x :
  get key value = Some x -> exists fields, value = JObject fields.
Proof. destruct value; cbn [get]; try discriminate. eauto. Qed.

(** X25: in the body of an OK response, the text of the content of the
    first choice's message, when it is not empty, is the summary the
    adapter finds, whatever [choice.text], [data.answer],
    [data.output_text] and the other fields of the body hold. *)
Theorem X25_message_content_comes_first (array_join : list JSON -> jsstring)
  (data choice message content : JSON) (choices : list JSON) :
  get (js "choices") data = Some (JArray (choice :: choices)) ->
  get (js "message") choice = Some message ->
  get (js "content") message = Some content ->
  truthy (extractText content) = true ->
  sniffed_summary array_join data = Some (extractText content).
Proof.
  intros Hchoices Hmessage Hcontent H.
  destruct (get_some_object _ _ _ Hchoices) as [fields ->].
  destruct (get_some_object _ _ _ Hmessage) as [cfields ->].
  destruct (get_some_object _ _ _ Hcontent) as [mfields ->].
  unfold sniffed_summary. rewrite Hchoices.
  cbn [coalesce first_of or_null truthy_json]. rewrite Hmessage.
  cbn [coalesce]. rewrite Hcontent.
  cbv zeta. do 3 (rewrite H; cbn iota). reflexivity.
Qed.

(** X25 on a body that also has an [answer] and an [output_text]. *)
Lemma X25_witness :
  sniffed_summary (fun _ => js "lines")
    (completion (JArray [text_part (js "tom tat")])
                [(js "answer", JString (js "khac")); (js "output_text", JArray [])])
  = Some (js "tom tat").
Proof.
  apply (X25_message_content_comes_first (fun _ => js "lines") _
           (JObject [(js "message",
                      JObject [(js "role", JString (js "assistant"));
                               (js "content", JArray [text_part (js "tom tat")])])])
           (JObject [(js "role", JString (js "assistant"));
                     (js "content", JArray [text_part (js "tom tat")])])
           (JArray [text_part (js "tom tat")]) []);
    vm_compute; reflexivity.
Defined.
